(** * slinktool / libslink: the collect functions of slutils.c

    A shallow embedding of [detect], [sl_sequence], [update_stream],
    [sl_collect], [sl_collect_nb] and [sl_collect_nb_size] from
    libslink/slutils.c, with the declarations of libslink/libslink.h, and the
    properties of the receive pipeline and of the session state checked
    against them.  The other functions of slutils.c follow: [sl_newslcd],
    [sl_addstream], [sl_setuniparams] and [sl_packettype], and the queue
    length and address column of prtinfo_connections in src/slinkxml.c.

    Conventions.  A C [int] is a [Z] kept in range by [wrap32s] after every
    arithmetic operation (two's complement wrap-around, which is what the
    compilers in use emit where C leaves signed overflow undefined).  A byte is
    a [Z] in [0, 256).  A pointer into the receive buffer is the offset it
    points at.  Everything the library prints through sl_log_r or asks of the
    network is recorded, in order, in a trace of events. *)

From Stdlib Require Import ZArith List String Ascii Bool Lia.
Import ListNotations.
Open Scope Z_scope.

(** ** C integers *)

Definition wrap32s (x : Z) : Z := (x + 2 ^ 31) mod 2 ^ 32 - 2 ^ 31.
Definition wrap64u (x : Z) : Z := x mod 2 ^ 64.

Definition int_add (a b : Z) : Z := wrap32s (a + b).
Definition int_sub (a b : Z) : Z := wrap32s (a - b).

Definition INT_MAX : Z := 2 ^ 31 - 1.

(** ** Constants of libslink.h *)

Definition SLRECSIZEMIN : Z := 48.
Definition SLRECSIZEMAX : Z := 4096.
Definition SLHEADSIZE : Z := 8.
Definition BUFSIZE : Z := 8192.

Definition SLPACKET : Z := 1.
Definition SLTERMINATE : Z := 0.
Definition SLNOPACKET : Z := -1.

Definition UNISTATION : string := "UNI".
Definition UNINETWORK : string := "XX".

(** ** Bytes and buffers *)

Definition bytes_of_string (s : string) : list Z :=
  map (fun a => Z.of_nat (nat_of_ascii a)) (list_ascii_of_string s).

Definition SIGNATURE : list Z := bytes_of_string "SL".
Definition INFOSIGNATURE : list Z := bytes_of_string "SLINFO".

(** The byte at index [i] of a buffer.  A read outside the list gives 0.
    The collect functions can make such a read when the buffer is filled to
    its last 11 bytes: detect is given the length of the unread bytes, the 8
    bytes of the SeedLink header included, and reads the 4 bytes of a
    blockette that starts within that length.  C leaves the read undefined;
    in the program it reaches the members that follow [databuf] in SLstat
    ([recptr], [sendptr] and the first pointer of [slpack], an address). *)
Definition peek (buf : list Z) (i : Z) : Z :=
  if i <? 0 then 0 else (nth (Z.to_nat i) buf 0) mod 256.

(** [view buf p] is the C pointer [&buf[p]]: the bytes seen from offset [p]. *)
Definition view (buf : list Z) (p : Z) : Z -> Z := fun i => peek buf (p + i).

(** The [n] bytes a pointer [p] points at. *)
Definition bytes_at (p : Z -> Z) (n : nat) : list Z :=
  map (fun i => p (Z.of_nat i)) (seq 0 n).

Definition list_eqb (a b : list Z) : bool :=
  (Nat.eqb (List.length a) (List.length b)) && forallb (fun xy => fst xy =? snd xy) (combine a b).

(** [memcmp (p, sig, n) == 0] for a constant [sig] of [n] bytes. *)
Definition mem_equal (p : Z -> Z) (sig : list Z) : bool :=
  list_eqb (bytes_at p (List.length sig)) sig.

(** sl_gswap2: swap the two bytes of a 16-bit quantity. *)
Definition sl_gswap2 (v : Z) : Z := (v mod 256) * 256 + (v / 256) mod 256.

(** A [uint16_t] read through a pointer cast, in the byte order of the host. *)
Definition rd16 (big_endian : bool) (p : Z -> Z) (off : Z) : Z :=
  if big_endian then (p off mod 256) * 256 + p (off + 1) mod 256
  else p off mod 256 + 256 * (p (off + 1) mod 256).

(** ** miniSEED format macros (mseedformat.h)

    slutils.c includes mseedformat.h, which is not among the sources at hand.
    The header tests and the miniSEED 3 length fields it defines are taken as
    parameters; the miniSEED 2 field accessors follow the layout of
    [struct sl_fsdh_s] and [struct sl_blkt_1000_s] in libslink.h. *)

Record MSeedFormat : Type := {
  big_endian_host : bool;
  MS3_ISVALIDHEADER : (Z -> Z) -> bool;
  MS2_ISVALIDHEADER : (Z -> Z) -> bool;
  MS_ISVALIDYEARDAY : Z -> Z -> bool;
  pMS3FSDH_SIDLENGTH : (Z -> Z) -> Z;
  pMS3FSDH_EXTRALENGTH : (Z -> Z) -> Z;
  pMS3FSDH_DATALENGTH : (Z -> Z) -> Z
}.

Definition MS3FSDH_LENGTH : Z := 40.

Section Detect.

Variable F : MSeedFormat.

(** Modelled from the spec: mseedformat.h is missing; the year is the
    [uint16_t] at offset 20 of the fixed header (libslink.h, sl_fsdh_s). *)
Definition pMS2FSDH_YEAR (record : Z -> Z) : Z := rd16 (big_endian_host F) record 20.

(** Modelled from the spec: mseedformat.h is missing; the day of year is the
    [uint16_t] at offset 22 of the fixed header. *)
Definition pMS2FSDH_DAY (record : Z -> Z) : Z := rd16 (big_endian_host F) record 22.

(** Modelled from the spec: mseedformat.h is missing; the offset of the first
    blockette is the [uint16_t] at offset 46 of the fixed header. *)
Definition pMS2FSDH_BLOCKETTEOFFSET (record : Z -> Z) : Z :=
  rd16 (big_endian_host F) record 46.

(** Modelled from the spec: mseedformat.h is missing; the record length
    exponent is the byte at offset 6 of a 1000 blockette (sl_blkt_1000_s). *)
Definition pMS2B1000_RECLEN (blkt : Z -> Z) : Z := blkt 6.

(** Modelled from the spec: mseedformat.h is missing; a 16-bit value in host
    order, byte-swapped when the flag is set. *)
Definition HO2u (v : Z) (swapflag : bool) : Z := if swapflag then sl_gswap2 v else v.

(** How the walk over the blockette chain of [detect] ends. *)
Inductive blkt_walk : Type :=
| BlktFound (reclen : Z)   (* a whole 1000 blockette: [break] with the length *)
| BlktInvalid              (* the safety check failed: [return -1] *)
| BlktEnd.                 (* the loop condition became false *)

(** [(unsigned int)1 << n] converted to [int32_t]; [n] is the [uint8_t] of
    the 1000 blockette.  C leaves the shift undefined from [n = 32] on; the
    processors in use take the count of a 32-bit shift modulo 32, and so does
    the model: 32, 33 and 255 give 1, 2 and -2^31. *)
Definition shl1_int32 (n : Z) : Z := wrap32s (Z.shiftl 1 (n mod 32)).

Fixpoint blkt_loop (fuel : nat) (record : Z -> Z) (recbuflen : Z) (swapflag : bool)
  (blkt_offset : Z) : option blkt_walk :=
  match fuel with
  | O => None
  | S fuel' =>
    if negb (blkt_offset =? 0) && (blkt_offset >? 47) && (blkt_offset <=? recbuflen) then
      let blkt_type := HO2u (rd16 (big_endian_host F) record blkt_offset) swapflag in
      let next_blkt := HO2u (rd16 (big_endian_host F) record (blkt_offset + 2)) swapflag in
      if (blkt_type =? 1000) && (blkt_offset + 8 <=? recbuflen) then
        Some (BlktFound
                (shl1_int32 (pMS2B1000_RECLEN (fun i => record (blkt_offset + i)))))
      else if negb (next_blkt =? 0) && ((next_blkt <? 4) || (next_blkt - 4 <=? blkt_offset))
      then Some BlktInvalid
      else blkt_loop fuel' record recbuflen swapflag next_blkt
    else Some BlktEnd
  end.

(** The scan for the next fixed header at 64-byte offsets; [k] is
    [nextfsdh - record].  [Some None]: the loop ended without a hit. *)
Fixpoint scan_loop (fuel : nat) (record : Z -> Z) (recbuflen : Z) (k : Z)
  : option (option Z) :=
  match fuel with
  | O => None
  | S fuel' =>
    if k + 48 <? recbuflen then
      if MS2_ISVALIDHEADER F (fun i => record (k + i)) then Some (Some k)
      else scan_loop fuel' record recbuflen (k + 64)
    else Some None
  end.

(** Enough fuel for both loops: see [blkt_loop_total] and [scan_loop_total]. *)
Definition blkt_fuel : nat := Z.to_nat 65538.

Definition scan_fuel (recbuflen : Z) : nat := S (Z.to_nat (recbuflen / 64)).

(** The tail of the miniSEED 2 branch: when [reclen] is still -1 the buffer is
    scanned for the next header; then [foundlen] decides the result. *)
Definition scan_next (record : Z -> Z) (recbuflen : Z) (foundlen : bool) (reclen : Z) : Z :=
  if reclen =? -1 then
    match scan_loop (scan_fuel recbuflen) record recbuflen 64 with
    | Some (Some k) => wrap32s k
    | _ => if foundlen then reclen else -1
    end
  else if foundlen then reclen else -1.

(** detect (slutils.c:1353).  [record] is never NULL here and
    [formatversion] is returned next to the result.  [recbuflen] is the
    [uint64_t] the caller's [int] was converted to.  The message that sl_log
    prints before the return on an invalid blockette offset goes to the log of
    the process and is not recorded. *)
Definition detect (record : Z -> Z) (recbuflen : Z) : Z * Z :=
  if recbuflen <? SLRECSIZEMIN then (-1, 0)
  else if MS3_ISVALIDHEADER F record then
    (wrap32s (MS3FSDH_LENGTH + pMS3FSDH_SIDLENGTH F record
              + pMS3FSDH_EXTRALENGTH F record + pMS3FSDH_DATALENGTH F record), 3)
  else if MS2_ISVALIDHEADER F record then
    let swapflag :=
      negb (MS_ISVALIDYEARDAY F (pMS2FSDH_YEAR record) (pMS2FSDH_DAY record)) in
    let blkt_offset := HO2u (pMS2FSDH_BLOCKETTEOFFSET record) swapflag in
    match blkt_loop blkt_fuel record recbuflen swapflag blkt_offset with
    | Some (BlktFound reclen) => (scan_next record recbuflen true reclen, 2)
    | Some BlktInvalid => (-1, 2)
    | Some BlktEnd | None => (scan_next record recbuflen false (-1), 2)
    end
  else (-1, 0).

End Detect.

(** ** Data model (libslink.h) *)

Inductive sl_state_t : Type := SL_DOWN | SL_UP | SL_DATA.
Inductive query_mode_t : Type := NoQuery | InfoQuery | KeepAliveQuery.

Definition sl_state_eqb (a b : sl_state_t) : bool :=
  match a, b with
  | SL_DOWN, SL_DOWN | SL_UP, SL_UP | SL_DATA, SL_DATA => true
  | _, _ => false
  end.

Definition query_mode_eqb (a b : query_mode_t) : bool :=
  match a, b with
  | NoQuery, NoQuery | InfoQuery, InfoQuery | KeepAliveQuery, KeepAliveQuery => true
  | _, _ => false
  end.

(** SLpacket: [slhead] and [msrecord] point into [databuf] ([None] is NULL). *)
Record SLpacket : Type := {
  slhead : option Z;
  msrecord : option Z;
  reclen : Z
}.

(** SLstream; the [next] pointers are the order of the list of entries. *)
Record SLstream : Type := {
  net : string;
  sta : string;
  selectors : option string;
  seqnum : Z;
  timestamp : string
}.

(** SLstat.  A [double] is kept as its 64-bit pattern. *)
Record SLstat : Type := {
  databuf : list Z;
  recptr : Z;
  sendptr : Z;
  slpack : SLpacket;
  expect_info : Z;
  netto_trig : Z;
  netdly_trig : Z;
  keepalive_trig : Z;
  netto_time : Z;
  netdly_time : Z;
  keepalive_time : Z;
  sl_state : sl_state_t;
  query_mode : query_mode_t
}.

(** SLCD.  [protocol_ver] and [log] are read by none of the functions below
    and are left out. *)
Record SLCD : Type := {
  streams : list SLstream;
  sladdr : option string;
  begin_time : option string;
  end_time : option string;
  resume : Z;
  multistation : Z;
  dialup : Z;
  batchmode : Z;
  lastpkttime : Z;
  terminate : Z;
  keepalive : Z;
  iotimeout : Z;
  netto : Z;
  netdly : Z;
  info : option string;
  link : Z;
  stat : SLstat
}.

Definition set_stat (c : SLCD) (s : SLstat) : SLCD :=
  {| streams := streams c; sladdr := sladdr c; begin_time := begin_time c;
     end_time := end_time c; resume := resume c; multistation := multistation c;
     dialup := dialup c; batchmode := batchmode c; lastpkttime := lastpkttime c;
     terminate := terminate c; keepalive := keepalive c; iotimeout := iotimeout c;
     netto := netto c; netdly := netdly c; info := info c; link := link c; stat := s |}.

Definition set_link (c : SLCD) (l : Z) : SLCD :=
  {| streams := streams c; sladdr := sladdr c; begin_time := begin_time c;
     end_time := end_time c; resume := resume c; multistation := multistation c;
     dialup := dialup c; batchmode := batchmode c; lastpkttime := lastpkttime c;
     terminate := terminate c; keepalive := keepalive c; iotimeout := iotimeout c;
     netto := netto c; netdly := netdly c; info := info c; link := l; stat := stat c |}.

Definition set_info (c : SLCD) (i : option string) : SLCD :=
  {| streams := streams c; sladdr := sladdr c; begin_time := begin_time c;
     end_time := end_time c; resume := resume c; multistation := multistation c;
     dialup := dialup c; batchmode := batchmode c; lastpkttime := lastpkttime c;
     terminate := terminate c; keepalive := keepalive c; iotimeout := iotimeout c;
     netto := netto c; netdly := netdly c; info := i; link := link c; stat := stat c |}.

Definition set_streams (c : SLCD) (l : list SLstream) : SLCD :=
  {| streams := l; sladdr := sladdr c; begin_time := begin_time c;
     end_time := end_time c; resume := resume c; multistation := multistation c;
     dialup := dialup c; batchmode := batchmode c; lastpkttime := lastpkttime c;
     terminate := terminate c; keepalive := keepalive c; iotimeout := iotimeout c;
     netto := netto c; netdly := netdly c; info := info c; link := link c; stat := stat c |}.

Definition set_terminate (c : SLCD) (t : Z) : SLCD :=
  {| streams := streams c; sladdr := sladdr c; begin_time := begin_time c;
     end_time := end_time c; resume := resume c; multistation := multistation c;
     dialup := dialup c; batchmode := batchmode c; lastpkttime := lastpkttime c;
     terminate := t; keepalive := keepalive c; iotimeout := iotimeout c;
     netto := netto c; netdly := netdly c; info := info c; link := link c; stat := stat c |}.

(** Assignments to the fields of [slconn->stat]. *)
Definition upd_stat (f : SLstat -> SLstat) (c : SLCD) : SLCD := set_stat c (f (stat c)).

Definition st_databuf (v : list Z) (s : SLstat) : SLstat :=
  {| databuf := v; recptr := recptr s; sendptr := sendptr s; slpack := slpack s;
     expect_info := expect_info s; netto_trig := netto_trig s; netdly_trig := netdly_trig s;
     keepalive_trig := keepalive_trig s; netto_time := netto_time s;
     netdly_time := netdly_time s; keepalive_time := keepalive_time s;
     sl_state := sl_state s; query_mode := query_mode s |}.

Definition st_recptr (v : Z) (s : SLstat) : SLstat :=
  {| databuf := databuf s; recptr := v; sendptr := sendptr s; slpack := slpack s;
     expect_info := expect_info s; netto_trig := netto_trig s; netdly_trig := netdly_trig s;
     keepalive_trig := keepalive_trig s; netto_time := netto_time s;
     netdly_time := netdly_time s; keepalive_time := keepalive_time s;
     sl_state := sl_state s; query_mode := query_mode s |}.

Definition st_sendptr (v : Z) (s : SLstat) : SLstat :=
  {| databuf := databuf s; recptr := recptr s; sendptr := v; slpack := slpack s;
     expect_info := expect_info s; netto_trig := netto_trig s; netdly_trig := netdly_trig s;
     keepalive_trig := keepalive_trig s; netto_time := netto_time s;
     netdly_time := netdly_time s; keepalive_time := keepalive_time s;
     sl_state := sl_state s; query_mode := query_mode s |}.

Definition st_slpack (v : SLpacket) (s : SLstat) : SLstat :=
  {| databuf := databuf s; recptr := recptr s; sendptr := sendptr s; slpack := v;
     expect_info := expect_info s; netto_trig := netto_trig s; netdly_trig := netdly_trig s;
     keepalive_trig := keepalive_trig s; netto_time := netto_time s;
     netdly_time := netdly_time s; keepalive_time := keepalive_time s;
     sl_state := sl_state s; query_mode := query_mode s |}.

Definition st_expect_info (v : Z) (s : SLstat) : SLstat :=
  {| databuf := databuf s; recptr := recptr s; sendptr := sendptr s; slpack := slpack s;
     expect_info := v; netto_trig := netto_trig s; netdly_trig := netdly_trig s;
     keepalive_trig := keepalive_trig s; netto_time := netto_time s;
     netdly_time := netdly_time s; keepalive_time := keepalive_time s;
     sl_state := sl_state s; query_mode := query_mode s |}.

Definition st_netto_trig (v : Z) (s : SLstat) : SLstat :=
  {| databuf := databuf s; recptr := recptr s; sendptr := sendptr s; slpack := slpack s;
     expect_info := expect_info s; netto_trig := v; netdly_trig := netdly_trig s;
     keepalive_trig := keepalive_trig s; netto_time := netto_time s;
     netdly_time := netdly_time s; keepalive_time := keepalive_time s;
     sl_state := sl_state s; query_mode := query_mode s |}.

Definition st_netdly_trig (v : Z) (s : SLstat) : SLstat :=
  {| databuf := databuf s; recptr := recptr s; sendptr := sendptr s; slpack := slpack s;
     expect_info := expect_info s; netto_trig := netto_trig s; netdly_trig := v;
     keepalive_trig := keepalive_trig s; netto_time := netto_time s;
     netdly_time := netdly_time s; keepalive_time := keepalive_time s;
     sl_state := sl_state s; query_mode := query_mode s |}.

Definition st_keepalive_trig (v : Z) (s : SLstat) : SLstat :=
  {| databuf := databuf s; recptr := recptr s; sendptr := sendptr s; slpack := slpack s;
     expect_info := expect_info s; netto_trig := netto_trig s; netdly_trig := netdly_trig s;
     keepalive_trig := v; netto_time := netto_time s;
     netdly_time := netdly_time s; keepalive_time := keepalive_time s;
     sl_state := sl_state s; query_mode := query_mode s |}.

Definition st_netto_time (v : Z) (s : SLstat) : SLstat :=
  {| databuf := databuf s; recptr := recptr s; sendptr := sendptr s; slpack := slpack s;
     expect_info := expect_info s; netto_trig := netto_trig s; netdly_trig := netdly_trig s;
     keepalive_trig := keepalive_trig s; netto_time := v;
     netdly_time := netdly_time s; keepalive_time := keepalive_time s;
     sl_state := sl_state s; query_mode := query_mode s |}.

Definition st_netdly_time (v : Z) (s : SLstat) : SLstat :=
  {| databuf := databuf s; recptr := recptr s; sendptr := sendptr s; slpack := slpack s;
     expect_info := expect_info s; netto_trig := netto_trig s; netdly_trig := netdly_trig s;
     keepalive_trig := keepalive_trig s; netto_time := netto_time s;
     netdly_time := v; keepalive_time := keepalive_time s;
     sl_state := sl_state s; query_mode := query_mode s |}.

Definition st_keepalive_time (v : Z) (s : SLstat) : SLstat :=
  {| databuf := databuf s; recptr := recptr s; sendptr := sendptr s; slpack := slpack s;
     expect_info := expect_info s; netto_trig := netto_trig s; netdly_trig := netdly_trig s;
     keepalive_trig := keepalive_trig s; netto_time := netto_time s;
     netdly_time := netdly_time s; keepalive_time := v;
     sl_state := sl_state s; query_mode := query_mode s |}.

Definition st_sl_state (v : sl_state_t) (s : SLstat) : SLstat :=
  {| databuf := databuf s; recptr := recptr s; sendptr := sendptr s; slpack := slpack s;
     expect_info := expect_info s; netto_trig := netto_trig s; netdly_trig := netdly_trig s;
     keepalive_trig := keepalive_trig s; netto_time := netto_time s;
     netdly_time := netdly_time s; keepalive_time := keepalive_time s;
     sl_state := v; query_mode := query_mode s |}.

Definition st_query_mode (v : query_mode_t) (s : SLstat) : SLstat :=
  {| databuf := databuf s; recptr := recptr s; sendptr := sendptr s; slpack := slpack s;
     expect_info := expect_info s; netto_trig := netto_trig s; netdly_trig := netdly_trig s;
     keepalive_trig := keepalive_trig s; netto_time := netto_time s;
     netdly_time := netdly_time s; keepalive_time := keepalive_time s;
     sl_state := sl_state s; query_mode := v |}.

(** ** The trace of what the library prints and asks of the network *)

Inductive event : Type :=
| Log (level verb : Z) (msg : string)   (* sl_log_r / sl_log *)
| Connect                               (* sl_connect *)
| Disconnect                            (* sl_disconnect *)
| SendInfo (level : string)             (* sl_send_info *)
| ConfigLink                            (* sl_configlink *)
| Select                                (* select() *)
| RecvData (maxbytes : Z)               (* sl_recvdata *)
| Sleep (usec : Z)                      (* slp_usleep *)
| Dtime.                                (* sl_dtime *)

(** The events that reach the server: connect, send or receive. *)
Definition is_contact (e : event) : bool :=
  match e with
  | Connect | SendInfo _ | ConfigLink | RecvData _ => true
  | _ => false
  end.

Definition contacts (tr : list event) : list event := filter is_contact tr.

(** ** sl_sequence *)

Definition isspace (c : Z) : bool :=
  (c =? 32) || ((9 <=? c) && (c <=? 13)).

Definition hex_val (c : Z) : option Z :=
  if (48 <=? c) && (c <=? 57) then Some (c - 48)
  else if (65 <=? c) && (c <=? 70) then Some (c - 55)
  else if (97 <=? c) && (c <=? 102) then Some (c - 87)
  else None.

Fixpoint skip_spaces (s : list Z) : list Z :=
  match s with
  | c :: s' => if isspace c then skip_spaces s' else s
  | [] => []
  end.

(** The hexadecimal digits at the head of [s]: how many, their value, the rest. *)
Fixpoint hex_digits (s : list Z) (acc : Z) (n : nat) : nat * Z * list Z :=
  match s with
  | c :: s' =>
      match hex_val c with
      | Some d => hex_digits s' (acc * 16 + d) (S n)
      | None => (n, acc, s)
      end
  | [] => (n, acc, s)
  end.

Definition is_hex (c : Z) : bool :=
  match hex_val c with Some _ => true | None => false end.

(** The C library's [strtoul (s, &tail, 16)] on the characters [s] of a
    string (the terminating NUL is not in [s]): white space, an optional sign,
    an optional 0x, then hexadecimal digits.  The result is the [unsigned long]
    value and the tail; without any digit the tail is the whole string. *)
Definition strtoul16 (s : list Z) : Z * list Z :=
  let s1 := skip_spaces s in
  let '(neg, s2) :=
    match s1 with
    | c :: r => if c =? 45 then (true, r) else if c =? 43 then (false, r) else (false, s1)
    | [] => (false, s1)
    end in
  let s3 :=
    match s2 with
    | z :: x :: d :: r =>
        if (z =? 48) && ((x =? 120) || (x =? 88)) && is_hex d then d :: r else s2
    | _ => s2
    end in
  let '(n, v, rest) := hex_digits s3 0 O in
  match n with
  | O => (0, s)
  | S _ => ((if neg then wrap64u (- v) else wrap64u v), rest)
  end.

(** The characters of a C string held in an array: up to the first NUL. *)
Fixpoint c_string (s : list Z) : list Z :=
  match s with
  | c :: s' => if c =? 0 then [] else c :: c_string s'
  | [] => []
  end.

(** sl_sequence (slutils.c:1220) on the SeedLink header [slhead]. *)
Definition sl_sequence (slhead : Z -> Z) : Z :=
  if negb (mem_equal slhead SIGNATURE) then -1
  else if mem_equal slhead INFOSIGNATURE then 0
  else
    let seqstr := c_string (bytes_at (fun i => slhead (2 + i)) 6) in
    let '(v, sqtail) := strtoul16 seqstr in
    let seqnum := wrap32s v in
    if negb (Z.land seqnum (Z.lnot 16777215) =? 0) || negb (hd 0 sqtail =? 0) then -1
    else seqnum.

(** ** Rendering of the time stamp *)

Definition digit_char (d : Z) : ascii := ascii_of_nat (48 + Z.to_nat d).

Fixpoint dec_digits (fuel : nat) (n : Z) (acc : string) : string :=
  match fuel with
  | O => acc
  | S fuel' =>
      let acc' := String (digit_char (n mod 10)) acc in
      if n <? 10 then acc' else dec_digits fuel' (n / 10) acc'
  end.

Fixpoint zeros (n : nat) : string :=
  match n with
  | O => EmptyString
  | S n' => String "0"%char (zeros n')
  end.

(** printf's [%0<w>d] of an [int]. *)
Definition fmt_0d (w : nat) (n : Z) : string :=
  if n <? 0 then
    let d := dec_digits 10 (- n) EmptyString in
    String "-"%char (zeros (w - 1 - String.length d) ++ d)
  else
    let d := dec_digits 10 n EmptyString in
    zeros (w - String.length d) ++ d.

Fixpoint string_firstn (n : nat) (s : string) : string :=
  match n, s with
  | S n', String a s' => String a (string_firstn n' s')
  | _, _ => EmptyString
  end.

(** [snprintf (timestamp, 30, "%04d,%02d,%02d,%02d,%02d,%02d", ...)]: at most
    29 characters are kept. *)
Definition render_timestamp (year month mday hour min sec : Z) : string :=
  string_firstn 29
    (fmt_0d 4 year ++ "," ++ fmt_0d 2 month ++ "," ++ fmt_0d 2 mday ++ ","
     ++ fmt_0d 2 hour ++ "," ++ fmt_0d 2 min ++ "," ++ fmt_0d 2 sec)%string.

(** ** update_stream *)

(** Functions of the library that slutils.c calls and whose source files
    (genutils.c, globmatch.c) are not at hand; they are parameters.
    [sl_doy2md year jday] gives the values left in [*month] and [*mday], which
    are 0 before the call; [sl_strncpclean src] gives the string left in
    [dest] for the [length] source bytes [src]; [sl_globmatch string pattern]
    is the [int] returned. *)
Record GenUtils : Type := {
  sl_doy2md : Z -> Z -> Z * Z;
  sl_strncpclean : list Z -> string;
  sl_globmatch : string -> string -> Z
}.

Section UpdateStream.

Variable F : MSeedFormat.
Variable G : GenUtils.

(** The fields of the fixed header that update_stream reads after its
    [memcpy] into a [struct sl_fsdh_s]. *)
Definition fsdh_year (msrecord : Z -> Z) : Z := rd16 (big_endian_host F) msrecord 20.
Definition fsdh_day (msrecord : Z -> Z) : Z := rd16 (big_endian_host F) msrecord 22.
Definition fsdh_hour (msrecord : Z -> Z) : Z := msrecord 24.
Definition fsdh_min (msrecord : Z -> Z) : Z := msrecord 25.
Definition fsdh_sec (msrecord : Z -> Z) : Z := msrecord 26.
Definition fsdh_station (msrecord : Z -> Z) : list Z := bytes_at (fun i => msrecord (8 + i)) 5.
Definition fsdh_network (msrecord : Z -> Z) : list Z := bytes_at (fun i => msrecord (18 + i)) 2.

(** The year and day after the byte-order test of update_stream. *)
Definition start_year (msrecord : Z -> Z) : Z :=
  let y := fsdh_year msrecord in
  if (y <? 1900) || (y >? 2050) then sl_gswap2 y else y.

Definition start_day (msrecord : Z -> Z) : Z :=
  let y := fsdh_year msrecord in
  if (y <? 1900) || (y >? 2050) then sl_gswap2 (fsdh_day msrecord) else fsdh_day msrecord.

(** The time stamp written into a matching entry. *)
Definition packet_timestamp (msrecord : Z -> Z) : string :=
  let '(month, mday) := sl_doy2md G (start_year msrecord) (start_day msrecord) in
  render_timestamp (start_year msrecord) month mday
    (fsdh_hour msrecord) (fsdh_min msrecord) (fsdh_sec msrecord).

Definition set_entry (e : SLstream) (seq : Z) (ts : string) : SLstream :=
  {| net := net e; sta := sta e; selectors := selectors e; seqnum := seq; timestamp := ts |}.

Definition is_uni (e : SLstream) : bool :=
  String.eqb (net e) UNINETWORK && String.eqb (sta e) UNISTATION.

(** The test of the multi-station loop on one entry. *)
Definition entry_matches (msrecord : Z -> Z) (e : SLstream) : bool :=
  negb (sl_globmatch G (sl_strncpclean G (fsdh_network msrecord)) (net e) =? 0)
  && negb (sl_globmatch G (sl_strncpclean G (fsdh_station msrecord)) (sta e) =? 0).

(** The multi-station loop: the updated chain and the count of updates. *)
Fixpoint update_chain (msrecord : Z -> Z) (seq : Z) (l : list SLstream)
  : list SLstream * Z :=
  match l with
  | [] => ([], 0)
  | e :: l' =>
      let '(r, updates) := update_chain msrecord seq l' in
      if entry_matches msrecord e
      then (set_entry e seq (packet_timestamp msrecord) :: r, updates + 1)
      else (e :: r, updates)
  end.

(** update_stream (slutils.c:820): the result, the stream chain afterwards
    and the messages logged. *)
Definition update_stream (l : list SLstream) (slhead msrecord : Z -> Z)
  : Z * list SLstream * list event :=
  let seq := sl_sequence slhead in
  if seq =? -1 then
    (-1, l, [Log 2 0 "%s(): could not determine sequence number\n"])
  else
    match l with
    | e :: l' =>
        if is_uni e then (0, set_entry e seq (packet_timestamp msrecord) :: l', [])
        else
          let '(r, updates) := update_chain msrecord seq l in
          if updates =? 0
          then (-1, r, [Log 2 0 "unexpected data received: %.2s %.6s\n"])
          else (0, r, [])
    | [] => (-1, l, [Log 2 0 "unexpected data received: %.2s %.6s\n"])
    end.

End UpdateStream.

(** ** The network and the clock

    The network functions of the library (network.c) and the platform calls
    they rest on are not among the sources at hand.  What they answer is given
    by an oracle over a state of the outside world; the wrappers below record
    each call in the trace. *)

Record Network : Type := {
  World : Type;
  sl_checkslcd : SLCD -> Z;
  (* the value returned and the value left in [slconn->link] *)
  w_connect : SLCD -> World -> Z * Z * World;
  w_close : SLCD -> World -> World;
  w_send_info : SLCD -> string -> Z -> World -> Z * World;
  w_configlink : SLCD -> World -> Z * World;
  (* the value returned by select() and FD_ISSET afterwards *)
  w_select : SLCD -> World -> Z * bool * World;
  (* the value returned and the bytes put into the buffer *)
  w_recvdata : SLCD -> Z -> World -> Z * list Z * World;
  w_dtime : World -> Z * World;
  w_usleep : Z -> World -> World;
  (* [(now - start) > seconds], computed on doubles *)
  elapsed_gt : Z -> Z -> Z -> bool
}.

Record world (N : Network) : Type := {
  ext : World N;
  trace : list event
}.
Arguments ext {N} _.
Arguments trace {N} _.

(** What a collect call hands back: the value returned and [*slpack]. *)
Definition result : Type := (Z * option SLpacket)%type.

(** How the loop over the buffer is left. *)
Inductive loop_exit : Type :=
| LoopPacket      (* [return SLPACKET] *)
| LoopTerminate   (* [return SLTERMINATE] *)
| LoopDone.       (* the condition failed, or [break] *)

Definition ERROR_LINE : list Z := [69; 82; 82; 79; 82; 13; 10].
Definition END_LINE : list Z := [69; 78; 68].

Section Collect.

Variable F : MSeedFormat.
Variable G : GenUtils.
Variable N : Network.

Definition emit (l : list event) (w : world N) : world N :=
  {| ext := ext w; trace := trace w ++ l |}.

Definition sl_log_r (level verb : Z) (msg : string) (w : world N) : world N :=
  emit [Log level verb msg] w.

(** Modelled from the spec: sl_disconnect is declared in libslink.h and defined
    in a file that is missing; it closes the socket, the closed handle is -1,
    and its callers store the value returned in [link]. *)
Definition sl_disconnect (c : SLCD) (w : world N) : Z * SLCD * world N :=
  (-1, set_link c (-1), {| ext := w_close N c (ext w); trace := trace w ++ [Disconnect] |}).

Definition sl_connect (c : SLCD) (w : world N) : Z * SLCD * world N :=
  let '(r, l, e) := w_connect N c (ext w) in
  (r, set_link c l, {| ext := e; trace := trace w ++ [Connect] |}).

Definition sl_send_info (c : SLCD) (level : string) (verbose : Z) (w : world N)
  : Z * world N :=
  let '(r, e) := w_send_info N c level verbose (ext w) in
  (r, {| ext := e; trace := trace w ++ [SendInfo level] |}).

Definition sl_configlink (c : SLCD) (w : world N) : Z * world N :=
  let '(r, e) := w_configlink N c (ext w) in
  (r, {| ext := e; trace := trace w ++ [ConfigLink] |}).

Definition select_link (c : SLCD) (w : world N) : Z * bool * world N :=
  let '(r, isset, e) := w_select N c (ext w) in
  (r, isset, {| ext := e; trace := trace w ++ [Select] |}).

Definition sl_recvdata (c : SLCD) (maxbytes : Z) (w : world N) : Z * list Z * world N :=
  let '(r, data, e) := w_recvdata N c maxbytes (ext w) in
  (r, firstn (Z.to_nat maxbytes) data, {| ext := e; trace := trace w ++ [RecvData maxbytes] |}).

Definition sl_dtime (w : world N) : Z * world N :=
  let '(t, e) := w_dtime N (ext w) in
  (t, {| ext := e; trace := trace w ++ [Dtime] |}).

Definition slp_usleep (usec : Z) (w : world N) : world N :=
  {| ext := w_usleep N usec (ext w); trace := trace w ++ [Sleep usec] |}.

(** sl_terminate (slutils.c:1326). *)
Definition sl_terminate (c : SLCD) (w : world N) : SLCD * world N :=
  (set_terminate c 1, sl_log_r 1 1 "Terminating connection\n" w).

(** sl_request_info (slutils.c:1195): the value returned and the descriptor. *)
Definition sl_request_info (c : SLCD) (infostr : string) (w : world N)
  : Z * SLCD * world N :=
  match info c with
  | Some _ =>
      (-1, c, sl_log_r 2 0 "Cannot make '%.15s' INFO request, one is already pending\n" w)
  | None => (0, set_info c (Some infostr), w)
  end.

(** [slconn->link = sl_disconnect (slconn)]. *)
Definition disconnect_link (c : SLCD) (w : world N) : SLCD * world N :=
  let '(r, c1, w1) := sl_disconnect c w in (set_link c1 r, w1).

Definition in_state (c : SLCD) (s : sl_state_t) : bool := sl_state_eqb (sl_state (stat c)) s.

(** *** The opening of both collect functions (slutils.c:66-85, 474-493) *)

Definition info_was_set (c : SLCD) : SLCD :=
  match info c with
  | Some _ => upd_stat (st_query_mode InfoQuery) c
  | None => c
  end.

(** The boolean is set when the function returns SLTERMINATE here. *)
Definition check_slcd (c : SLCD) (w : world N) : bool * SLCD * world N :=
  if link c =? -1 then
    if negb (sl_checkslcd N c =? 0) then
      (true, c, sl_log_r 2 0 "problems with the connection description\n" w)
    else
      (false, upd_stat (st_keepalive_trig (-1)) (upd_stat (st_netto_trig (-1)) c), w)
  else (false, c, w).

(** *** The branch taken when the terminate flag is not set
        (slutils.c:92-196, 498-605) *)

Definition link_down (c : SLCD) : SLCD :=
  if link c =? -1 then upd_stat (st_sl_state SL_DOWN) c else c.

Definition netto_check (c : SLCD) (w : world N) : SLCD * world N :=
  if in_state c SL_DATA && negb (netto c =? 0) && (netto_trig (stat c) >? 0) then
    let w1 := sl_log_r 1 0 "network timeout (%ds), reconnecting in %ds\n" w in
    let '(c1, w2) := disconnect_link c w1 in
    (upd_stat (st_netdly_trig (-1))
       (upd_stat (st_netto_trig (-1)) (upd_stat (st_sl_state SL_DOWN) c1)), w2)
  else (c, w).

Definition keepalive_check (c : SLCD) (w : world N) : SLCD * world N :=
  if in_state c SL_DATA && (expect_info (stat c) =? 0)
     && negb (keepalive c =? 0) && (keepalive_trig (stat c) >? 0) then
    let w1 := sl_log_r 1 2 "sending keepalive request\n" w in
    let '(r, w2) := sl_send_info c "ID" 3 w1 in
    if negb (r =? -1) then
      (upd_stat (st_keepalive_trig (-1))
         (upd_stat (st_expect_info 1) (upd_stat (st_query_mode KeepAliveQuery) c)), w2)
    else (c, w2)
  else (c, w).

Definition info_check (c : SLCD) (w : world N) : SLCD * world N :=
  match info c with
  | Some level =>
      if in_state c SL_DATA && (expect_info (stat c) =? 0) then
        let '(r, w1) := sl_send_info c level 1 w in
        let c1 :=
          if negb (r =? -1)
          then upd_stat (st_expect_info 1) (upd_stat (st_query_mode InfoQuery) c)
          else upd_stat (st_query_mode NoQuery) c in
        (set_info c1 None, w1)
      else (c, w)
  | None => (c, w)
  end.

Definition throttle (c : SLCD) (w : world N) : SLCD * world N :=
  if in_state c SL_DOWN && (netdly_trig (stat c) >? 0)
  then (c, slp_usleep 500000 w) else (c, w).

Definition connect_step (c : SLCD) (w : world N) : SLCD * world N :=
  if in_state c SL_DOWN && (netdly_trig (stat c) =? 0) then
    let '(r, c1, w1) := sl_connect c w in
    let c2 := if negb (r =? -1) then upd_stat (st_sl_state SL_UP) c1 else c1 in
    (upd_stat (st_keepalive_trig (-1))
       (upd_stat (st_netdly_trig (-1)) (upd_stat (st_netto_trig (-1)) c2)), w1)
  else (c, w).

Definition is_nil {A : Type} (l : list A) : bool :=
  match l with [] => true | _ => false end.

Definition negotiate (c : SLCD) (w : world N) : SLCD * world N :=
  if in_state c SL_UP then
    let '(slconfret, c1, w1) :=
      match info c with
      | Some level =>
          if is_nil (streams c) then
            let '(r, w1) := sl_send_info c level 1 w in
            let c1 :=
              if negb (r =? -1)
              then upd_stat (st_expect_info 1) (upd_stat (st_query_mode InfoQuery) c)
              else upd_stat (st_expect_info 0) (upd_stat (st_query_mode NoQuery) c) in
            (0, set_info c1 None, w1)
          else
            let '(r, w1) := sl_configlink c w in
            (r, upd_stat (st_expect_info 0) c, w1)
      | None =>
          let '(r, w1) := sl_configlink c w in
          (r, upd_stat (st_expect_info 0) c, w1)
      end in
    if negb (slconfret =? -1) then
      (upd_stat (st_sl_state SL_DATA)
         (upd_stat (st_sendptr 0) (upd_stat (st_recptr 0) c1)), w1)
    else
      let w2 := sl_log_r 2 0 "negotiation with remote SeedLink failed\n" w1 in
      let '(c2, w3) := disconnect_link c1 w2 in
      (upd_stat (st_netdly_trig (-1)) c2, w3)
  else (c, w).

Definition main_sequence (c : SLCD) (w : world N) : SLCD * world N :=
  let c0 := link_down c in
  let '(c1, w1) := netto_check c0 w in
  let '(c2, w2) := keepalive_check c1 w1 in
  let '(c3, w3) := info_check c2 w2 in
  let '(c4, w4) := throttle c3 w3 in
  let '(c5, w5) := connect_step c4 w4 in
  negotiate c5 w5.

(** *** The branch taken when terminating (slutils.c:198-206, 607-615); the
        state assigned is SL_DOWN in sl_collect and SL_DATA in
        sl_collect_nb_size. *)
Definition terminating (final : sl_state_t) (c : SLCD) (w : world N) : SLCD * world N :=
  let '(c1, w1) := if negb (link c =? -1) then disconnect_link c w else (c, w) in
  (upd_stat (st_sl_state final) c1, w1).

(** *** The loop over the buffer (slutils.c:208-289, 617-698) *)

(** An INFO packet: the value of [retpacket] and the state afterwards. *)
Definition info_packet (c : SLCD) (w : world N) (head : Z -> Z) : bool * SLCD * world N :=
  let terminator := negb (head (SLHEADSIZE - 1) =? 42) in
  let '(retpacket, c1, w1) :=
    if expect_info (stat c) =? 0 then
      (true, c, sl_log_r 2 0 "unexpected INFO packet received, skipping\n" w)
    else
      let c1 := if terminator then upd_stat (st_expect_info 0) c else c in
      if query_mode_eqb (query_mode (stat c1)) KeepAliveQuery then
        (false, c1,
         if negb terminator
         then sl_log_r 2 0 "non-terminated keep-alive packet received!?!\n" w
         else sl_log_r 1 2 "keepalive packet received\n" w)
      else (true, c1, w) in
  let c2 :=
    if negb (query_mode_eqb (query_mode (stat c1)) NoQuery)
    then upd_stat (st_query_mode NoQuery) c1 else c1 in
  (retpacket, c2, w1).

(** Any other packet: update_stream decides [retpacket]. *)
Definition data_packet (c : SLCD) (w : world N) (head msrec : Z -> Z)
  : bool * SLCD * world N :=
  let '(r, l, logs) := update_stream F G (streams c) head msrec in
  (negb (r =? -1), set_streams c l, emit logs w).

Definition classify (c : SLCD) (w : world N) (head msrec : Z -> Z) : bool * SLCD * world N :=
  if mem_equal head INFOSIGNATURE then info_packet c w head else data_packet c w head msrec.

(** [sendptr += SLHEADSIZE + slpack.reclen]. *)
Definition advance_sendptr (c : SLCD) : SLCD :=
  upd_stat (fun s => st_sendptr (int_add (sendptr s) (int_add SLHEADSIZE (reclen (slpack s)))) s) c.

(** The condition of the [while]. *)
Definition loop_guard (s : SLstat) : bool :=
  int_sub (recptr s) (sendptr s) >=? SLHEADSIZE + SLRECSIZEMIN.

(** How one pass through the body of the loop ends. *)
Inductive body_exit : Type :=
| BodyPacket      (* [return SLPACKET] *)
| BodyTerminate   (* [return SLTERMINATE] *)
| BodyBreak       (* [break] *)
| BodyNext.       (* the end of the body: back to the condition *)

(** The length found for the packet at [sendptr]. *)
Definition packet_len (s : SLstat) : Z :=
  fst (detect F (view (databuf s) (int_add (sendptr s) SLHEADSIZE))
         (wrap64u (int_sub (recptr s) (sendptr s)))).

Definition loop_body (c : SLCD) (w : world N) : body_exit * SLCD * world N :=
  let s := stat c in
  let bufferlen := int_sub (recptr s) (sendptr s) in
  let head := sendptr s in
  let msrec := int_add (sendptr s) SLHEADSIZE in
  let len := packet_len s in
  let c1 :=
    upd_stat (st_slpack {| slhead := Some head; msrecord := Some msrec; reclen := len |}) c in
  if len <? 0 then
    (BodyTerminate, c1,
     sl_log_r 2 0 "%s(): non-miniSEED packet received!?! Terminating.\n" w)
  else if (len =? 0) || ((len >? 0) && (int_add len SLHEADSIZE >? bufferlen)) then
    (BodyBreak, c1, w)
  else
    let '(retpacket, c2, w2) :=
      classify c1 w (view (databuf s) head) (view (databuf s) msrec) in
    let c3 := advance_sendptr c2 in
    if retpacket then (BodyPacket, c3, w2) else (BodyNext, c3, w2).

Fixpoint process_loop (fuel : nat) (c : SLCD) (w : world N)
  : option (loop_exit * SLCD * world N) :=
  match fuel with
  | O => None
  | S fuel' =>
    if loop_guard (stat c) then
      match loop_body c w with
      | (BodyPacket, c', w') => Some (LoopPacket, c', w')
      | (BodyTerminate, c', w') => Some (LoopTerminate, c', w')
      | (BodyBreak, c', w') => Some (LoopDone, c', w')
      | (BodyNext, c', w') => process_loop fuel' c' w'
      end
    else Some (LoopDone, c, w)
  end.

(** Enough fuel for every state: see [process_loop_total]. *)
Definition loop_fuel (c : SLCD) : nat :=
  S (Z.to_nat (int_sub (recptr (stat c)) (sendptr (stat c)))).

Definition process_buffer (c : SLCD) (w : world N) : loop_exit * SLCD * world N :=
  match process_loop (loop_fuel c) c w with
  | Some r => r
  | None => (LoopDone, c, w)
  end.

(** *** After the loop (slutils.c:298-324, 707-733) *)

(** [memmove (databuf, &databuf[sendptr], recptr - sendptr)] and the cursors. *)
Definition memmove_front (buf : list Z) (from : Z) (n : Z) : list Z :=
  firstn (Z.to_nat n) (skipn (Z.to_nat from) buf) ++ skipn (Z.to_nat n) buf.

Definition shift_buffer (c : SLCD) : SLCD :=
  let s := stat c in
  if negb (sendptr s =? 0) then
    upd_stat (st_sendptr 0)
      (upd_stat (st_recptr (int_sub (recptr s) (sendptr s)))
         (upd_stat (st_databuf (memmove_front (databuf s) (sendptr s)
                                  (int_sub (recptr s) (sendptr s)))) c))
  else c.

Definition unread_is (c : SLCD) (line : list Z) : bool :=
  let s := stat c in
  (int_sub (recptr s) (sendptr s) =? Z.of_nat (List.length line))
  && mem_equal (view (databuf s) (sendptr s)) line.

(** The boolean is set when the function returns SLTERMINATE here. *)
Definition stream_stopped (c : SLCD) (w : world N) : bool * SLCD * world N :=
  if unread_is c ERROR_LINE then
    let w1 := sl_log_r 2 0 "SeedLink server reported an error with the last command\n" w in
    let '(c1, w2) := disconnect_link c w1 in (true, c1, w2)
  else if unread_is c END_LINE then
    let w1 := sl_log_r 1 1 "End of buffer or selected time window\n" w in
    let '(c1, w2) := disconnect_link c w1 in (true, c1, w2)
  else (false, c, w).

(** *** Reading from the socket *)

(** The bytes are put at [&databuf[recptr]]. *)
Definition write_at (buf : list Z) (pos : Z) (data : list Z) : list Z :=
  firstn (Z.to_nat pos) buf ++ data ++ skipn (Z.to_nat pos + List.length data) buf.

(** [recptr += bytesread] and the reset of the two timers. *)
Definition data_is_here (c : SLCD) (bytesread : Z) : SLCD :=
  upd_stat (st_keepalive_trig (-1))
    (upd_stat (st_netto_trig (-1))
       (upd_stat (fun s => st_recptr (int_add (recptr s) bytesread) s) c)).

Definition recv_into (c : SLCD) (w : world N) : Z * SLCD * world N :=
  let s := stat c in
  let '(bytesread, data, w1) := sl_recvdata c (int_sub BUFSIZE (recptr s)) w in
  (bytesread, upd_stat (st_databuf (write_at (databuf s) (recptr s) data)) c, w1).

(** sl_collect_nb_size (slutils.c:736-757). *)
Definition read_nb (c : SLCD) (w : world N) : SLCD * world N :=
  if in_state c SL_DATA then
    let '(bytesread, c1, w1) := recv_into c w in
    if (bytesread <? 0) && (terminate c1 =? 0) then
      let '(c2, w2) := disconnect_link c1 w1 in
      (upd_stat (st_netdly_trig (-1)) c2, w2)
    else if bytesread >? 0 then (data_is_here c1 bytesread, w1)
    else (c1, w1)
  else (c, w).

(** sl_collect (slutils.c:327-375). *)
Definition read_blocking (c : SLCD) (w : world N) : SLCD * world N :=
  if in_state c SL_DATA then
    let '(select_ret, isset, w1) := select_link c w in
    let '(bytesread, c2, w2) :=
      if select_ret >? 0 then
        if negb isset then
          (0, c, sl_log_r 2 0 "select() reported data but socket not in set!\n" w1)
        else recv_into c w1
      else if (select_ret <? 0) && (terminate c =? 0) then
        let w2 := sl_log_r 2 0 "select() error: %s\n" w1 in
        let '(c1, w3) := disconnect_link c w2 in
        (0, upd_stat (st_netdly_trig (-1)) c1, w3)
      else (0, c, w1) in
    if bytesread <? 0 then
      let '(c3, w3) := disconnect_link c2 w2 in
      (upd_stat (st_netdly_trig (-1)) c3, w3)
    else if bytesread >? 0 then (data_is_here c2 bytesread, w2)
    else (c2, w2)
  else (c, w).

(** *** The timers (slutils.c:377-423, 759-805) *)

Definition netto_timer (now : Z) (c : SLCD) : SLCD :=
  if negb (netto c =? 0) then
    if netto_trig (stat c) =? -1 then
      upd_stat (st_netto_trig 0) (upd_stat (st_netto_time now) c)
    else if (netto_trig (stat c) =? 0) && elapsed_gt N now (netto_time (stat c)) (netto c)
    then upd_stat (st_netto_trig 1) c
    else c
  else c.

Definition keepalive_timer (now : Z) (c : SLCD) : SLCD :=
  if negb (keepalive c =? 0) then
    if keepalive_trig (stat c) =? -1 then
      upd_stat (st_keepalive_trig 0) (upd_stat (st_keepalive_time now) c)
    else if (keepalive_trig (stat c) =? 0)
            && elapsed_gt N now (keepalive_time (stat c)) (keepalive c)
    then upd_stat (st_keepalive_trig 1) c
    else c
  else c.

Definition netdly_timer (now : Z) (c : SLCD) : SLCD :=
  if negb (netdly c =? 0) then
    if netdly_trig (stat c) =? -1 then
      upd_stat (st_netdly_trig 1) (upd_stat (st_netdly_time now) c)
    else if (netdly_trig (stat c) =? 1) && elapsed_gt N now (netdly_time (stat c)) (netdly c)
    then upd_stat (st_netdly_trig 0) c
    else c
  else c.

Definition update_timing (c : SLCD) (w : world N) : SLCD * world N :=
  let '(now, w1) := sl_dtime w in
  (netdly_timer now (keepalive_timer now (netto_timer now c)), w1).

(** *** sl_collect_nb_size (slutils.c:464) and sl_collect_nb (slutils.c:433) *)

Definition sl_collect_nb_size (c : SLCD) (maxrecsize : Z) (w : world N)
  : result * SLCD * world N :=
  let c0 := info_was_set c in
  let '(stop, c1, w1) := check_slcd c0 w in
  if stop then ((SLTERMINATE, None), c1, w1)
  else
    let '(c2, w2) :=
      if terminate c1 =? 0 then main_sequence c1 w1 else terminating SL_DATA c1 w1 in
    match process_buffer c2 w2 with
    | (LoopPacket, c3, w3) => ((SLPACKET, Some (slpack (stat c3))), c3, w3)
    | (LoopTerminate, c3, w3) => ((SLTERMINATE, None), c3, w3)
    | (LoopDone, c3, w3) =>
        if negb (terminate c3 =? 0) then ((SLTERMINATE, None), c3, w3)
        else
          let c4 := shift_buffer c3 in
          let '(stop', c5, w5) := stream_stopped c4 w3 in
          if stop' then ((SLTERMINATE, None), c5, w5)
          else
            let '(c6, w6) := read_nb c5 w5 in
            let '(c7, w7) := update_timing c6 w6 in
            ((SLNOPACKET, None), c7, w7)
    end.

Definition sl_collect_nb (c : SLCD) (w : world N) : result * SLCD * world N :=
  sl_collect_nb_size c SLRECSIZEMAX w.

(** *** sl_collect (slutils.c:52)

    The primary loop runs until a packet or a termination; [fuel] bounds the
    number of its passes and [None] says that the bound was reached. *)

Fixpoint primary_loop (fuel : nat) (c : SLCD) (w : world N)
  : option (result * SLCD * world N) :=
  match fuel with
  | O => None
  | S fuel' =>
    let '(c2, w2) :=
      if terminate c =? 0 then main_sequence c w else terminating SL_DOWN c w in
    match process_buffer c2 w2 with
    | (LoopPacket, c3, w3) => Some ((SLPACKET, Some (slpack (stat c3))), c3, w3)
    | (LoopTerminate, c3, w3) => Some ((SLTERMINATE, None), c3, w3)
    | (LoopDone, c3, w3) =>
        if negb (terminate c3 =? 0) then Some ((SLTERMINATE, None), c3, w3)
        else
          let c4 := shift_buffer c3 in
          let '(stop', c5, w5) := stream_stopped c4 w3 in
          if stop' then Some ((SLTERMINATE, None), c5, w5)
          else
            let '(c6, w6) := read_blocking c5 w5 in
            let '(c7, w7) := update_timing c6 w6 in
            primary_loop fuel' c7 w7
    end
  end.

Definition sl_collect (fuel : nat) (c : SLCD) (w : world N)
  : option (result * SLCD * world N) :=
  let c0 := info_was_set c in
  let '(stop, c1, w1) := check_slcd c0 w in
  if stop then Some ((SLTERMINATE, None), c1, w1)
  else primary_loop fuel c1 w1.

End Collect.


(** ** The descriptor and its stream table: sl_newslcd, sl_addstream and
       sl_setuniparams *)

Definition set_multistation (c : SLCD) (m : Z) : SLCD :=
  {| streams := streams c; sladdr := sladdr c; begin_time := begin_time c;
     end_time := end_time c; resume := resume c; multistation := m;
     dialup := dialup c; batchmode := batchmode c; lastpkttime := lastpkttime c;
     terminate := terminate c; keepalive := keepalive c; iotimeout := iotimeout c;
     netto := netto c; netdly := netdly c; info := info c; link := link c; stat := stat c |}.

(** sl_newslcd (slutils.c:933).  Each of the two calls of malloc may fail;
    the message then goes to the log of the process.  malloc does not
    initialise what it gives: the receive buffer and [slpack.reclen], which
    the function does not assign, hold [databuf0] and [reclen0]. *)
Definition sl_newslcd (slcd_ok stat_ok : bool) (databuf0 : list Z) (reclen0 : Z)
  : option SLCD * list event :=
  if negb slcd_ok then (None, [Log 2 0 "%s(): error allocating memory\n"])
  else if negb stat_ok then (None, [Log 2 0 "%s(): error allocating memory\n"])
  else
    (Some
       {| streams := []; sladdr := None; begin_time := None; end_time := None;
          resume := 1; multistation := 0; dialup := 0; batchmode := 0;
          lastpkttime := 1; terminate := 0;
          keepalive := 0; iotimeout := 60; netto := 600; netdly := 30;
          info := None; link := -1;
          stat :=
            {| databuf := databuf0; recptr := 0; sendptr := 0;
               slpack := {| slhead := None; msrecord := None; reclen := reclen0 |};
               expect_info := 0;
               netto_trig := -1; netdly_trig := 0; keepalive_trig := -1;
               netto_time := 0; netdly_time := 0; keepalive_time := 0;
               sl_state := SL_DOWN; query_mode := NoQuery |} |}, []).

(** [strncpy (newstream->timestamp, timestamp, 20)] into the array of 30
    characters, read back as a string.  A source of fewer than 20 characters
    is copied with its terminator.  A longer one leaves its first 20
    characters and no terminator: a reader goes on into what the array held
    from index 20 on, [rest]. *)
Definition strncpy_timestamp (timestamp rest : string) : string :=
  if (String.length timestamp <? 20)%nat then timestamp
  else (string_firstn 20 timestamp ++ rest)%string.

(** A null [timestamp] argument stores the empty string. *)
Definition new_timestamp (timestamp : option string) (rest : string) : string :=
  match timestamp with
  | None => EmptyString
  | Some t => strncpy_timestamp t rest
  end.

(** The head of the chain is the uni-station entry. *)
Definition head_is_uni (l : list SLstream) : bool :=
  match l with
  | e :: _ => is_uni e
  | [] => false
  end.

(** sl_addstream (slutils.c:1057): the value returned, the descriptor and the
    message logged.  [malloc_ok] says whether malloc gave the new entry;
    strdup is taken to succeed.  A null [selectors] or [timestamp] is [None]. *)
Definition sl_addstream (malloc_ok : bool) (rest : string) (c : SLCD)
  (net sta : string) (selectors : option string) (seqnum : Z) (timestamp : option string)
  : Z * SLCD * list event :=
  if head_is_uni (streams c) then
    (-1, c, [Log 2 0 "%s(): uni-station mode already configured!\n"])
  else if negb malloc_ok then
    (-1, c, [Log 2 0 "%s(): error allocating memory\n"])
  else
    let newstream :=
      {| net := net; sta := sta; selectors := selectors; seqnum := seqnum;
         timestamp := new_timestamp timestamp rest |} in
    (0, set_multistation (set_streams c (streams c ++ [newstream])) 1, []).

(** sl_setuniparams (slutils.c:1139).  malloc is called only when the chain
    is empty.  The entry written has no successor: [newstream->next = NULL]. *)
Definition sl_setuniparams (malloc_ok : bool) (rest : string) (c : SLCD)
  (selectors : option string) (seqnum : Z) (timestamp : option string)
  : Z * SLCD * list event :=
  let newstream :=
    {| net := UNINETWORK; sta := UNISTATION; selectors := selectors; seqnum := seqnum;
       timestamp := new_timestamp timestamp rest |} in
  match streams c with
  | [] =>
      if negb malloc_ok then (-1, c, [Log 2 0 "%s(): error allocating memory\n"])
      else (0, set_multistation (set_streams c [newstream]) 0, [])
  | e :: _ =>
      if negb (is_uni e) then
        (-1, c, [Log 2 0 "%s(): multi-station mode already configured!\n"])
      else (0, set_multistation (set_streams c [newstream]) 0, [])
  end.

(** ** sl_packettype *)

Definition MAX_HEADER_SIZE : Z := 128.

Definition SLDATA : Z := 0.
Definition SLDET : Z := 1.
Definition SLCAL : Z := 2.
Definition SLTIM : Z := 3.
Definition SLMSG : Z := 4.
Definition SLBLK : Z := 5.
Definition SLNUM : Z := 6.
Definition SLINF : Z := 7.
Definition SLINFT : Z := 8.
Definition SLKEEP : Z := 9.

(** [ntohs] of the 16 bits at [off]: the first byte is the high one on every
    host. *)
Definition ntohs_at (p : Z -> Z) (off : Z) : Z := rd16 true p off.

(** The conversion of 16 bits to [int16_t]. *)
Definition int16 (v : Z) : Z := if v <? 32768 then v else v - 65536.

(** How the walk over the blockettes of sl_packettype ends. *)
Inductive type_walk : Type :=
| WalkReturn (packettype : Z)   (* a [return] inside the loop *)
| WalkEnd (b2000 : bool).       (* [p] is back at the fixed header *)

(** The [do ... while] of sl_packettype; [off] is [p - fsdh].  The type and
    the offset of the next blockette are read at [p] before each pass.  The
    walk follows the offsets wherever they lead and need not end: [None] says
    that [fuel] passes were not enough. *)
Fixpoint packettype_loop (fuel : nat) (record : Z -> Z) (off : Z) (b2000 : bool)
  : option type_walk :=
  match fuel with
  | O => None
  | S fuel' =>
    let blkt_type := ntohs_at record off in
    let next_blkt := ntohs_at record (off + 2) in
    if off >? MAX_HEADER_SIZE then Some (WalkReturn SLNUM)
    else if (200 <=? blkt_type) && (blkt_type <=? 299) then Some (WalkReturn SLDET)
    else if (300 <=? blkt_type) && (blkt_type <=? 399) then Some (WalkReturn SLCAL)
    else if (500 <=? blkt_type) && (blkt_type <=? 599) then Some (WalkReturn SLTIM)
    else
      let b2000' := if blkt_type =? 2000 then true else b2000 in
      if negb (next_blkt =? 0) then packettype_loop fuel' record next_blkt b2000'
      else Some (WalkEnd b2000')
  end.

(** sl_packettype (slutils.c:1251) on the header and the record of a packet. *)
Definition sl_packettype (fuel : nat) (slhead record : Z -> Z) : option Z :=
  if mem_equal slhead INFOSIGNATURE then
    Some (if negb (slhead (SLHEADSIZE - 1) =? 42) then SLINFT else SLINF)
  else
    let num_samples := ntohs_at record 30 in
    let samprate_fact := int16 (ntohs_at record 32) in
    let begin_blockette := int16 (ntohs_at record 46) in
    match packettype_loop fuel record begin_blockette false with
    | None => None
    | Some (WalkReturn t) => Some t
    | Some (WalkEnd b2000) =>
        Some (if samprate_fact =? 0 then
                if negb (num_samples =? 0) then SLMSG
                else if b2000 then SLBLK else SLDATA
              else SLDATA)
    end.

(** ** The connection list of slinkxml.c

    prtinfo_connections (slinkxml.c:172) prints one row for each connection
    element of an INFO CONNECTIONS document.  The document is read through
    ezxml, which is not among the sources at hand; what is modelled here is
    what the function computes from the values of the attributes: the queue
    length and the address column.  The attributes are taken to be present
    (for a missing one ezxml_attr gives NULL, which strtoul and sprintf may
    not be given). *)

Definition ULONG_MAX : Z := 2 ^ 64 - 1.

(** The C library's [strtoul (s, NULL, 16)] on a string of any length: as
    [strtoul16], and a value that does not fit an [unsigned long] gives
    ULONG_MAX. *)
Definition strtoul_hex (s : list Z) : Z :=
  let s1 := skip_spaces s in
  let '(neg, s2) :=
    match s1 with
    | c :: r => if c =? 45 then (true, r) else if c =? 43 then (false, r) else (false, s1)
    | [] => (false, s1)
    end in
  let s3 :=
    match s2 with
    | z :: x :: d :: r =>
        if (z =? 48) && ((x =? 120) || (x =? 88)) && is_hex d then d :: r else s2
    | _ => s2
    end in
  let '(n, v, _) := hex_digits s3 0 O in
  match n with
  | O => 0
  | S _ => if v >? ULONG_MAX then ULONG_MAX else if neg then wrap64u (- v) else v
  end.

(** [qlen]: [(strtoul (end_seq, NULL, 16) - strtoul (current_seq, NULL, 16))
    & 0xffffff] on [unsigned long] (slinkxml.c:213). *)
Definition connection_qlen (end_seq current_seq : string) : Z :=
  Z.land
    (wrap64u (strtoul_hex (bytes_of_string end_seq)
              - strtoul_hex (bytes_of_string current_seq)))
    16777215.

(** [sprintf (address, "%.15s:%.5s", host, port)] into [char address[25]]
    (slinkxml.c:236). *)
Definition connection_address (host port : string) : string :=
  (string_firstn 15 host ++ ":" ++ string_firstn 5 port)%string.

Fixpoint spaces (n : nat) : string :=
  match n with
  | O => EmptyString
  | S n' => String " "%char (spaces n')
  end.

(** printf's [%-<w>s]. *)
Definition pad_right (w : nat) (s : string) : string :=
  (s ++ spaces (w - String.length s))%string.
(** ** Notions used in the statements *)

Section Statements.

Variable F : MSeedFormat.
Variable G : GenUtils.
Variable N : Network.

(** The cursors of the receive buffer are in order and within the buffer. *)
Definition cursors_ok (s : SLstat) : Prop :=
  0 <= sendptr s <= recptr s /\ recptr s <= BUFSIZE.

(** sl_recvdata returns no more than the number of bytes it was asked for. *)
Definition recv_bounded : Prop :=
  forall c n e r data e', w_recvdata N c n e = (r, data, e') -> r <= n.

(** The header and the record of the packet at the read cursor. *)
Definition head_view (s : SLstat) : Z -> Z := view (databuf s) (sendptr s).
Definition record_view (s : SLstat) : Z -> Z :=
  view (databuf s) (int_add (sendptr s) SLHEADSIZE).

(** The packet at the read cursor is whole: the loop is entered, a positive
    length was found and the buffer holds that many bytes after the header. *)
Definition packet_ready (s : SLstat) : Prop :=
  loop_guard s = true /\ 0 < packet_len F s
  /\ int_add (packet_len F s) SLHEADSIZE <= int_sub (recptr s) (sendptr s).

(** The loop over the buffer stops at once, without a packet. *)
Definition loop_stops (s : SLstat) : bool :=
  negb (loop_guard s) || (packet_len F s <? 0) || (packet_len F s =? 0)
  || ((packet_len F s >? 0)
      && (int_add (packet_len F s) SLHEADSIZE >? int_sub (recptr s) (sendptr s))).

(** The header as the specification words it: the six bytes after "SL" are
    hexadecimal digits. *)
Definition six_hex_digits (head : Z -> Z) : bool :=
  forallb (fun i => is_hex (head (2 + i))) [0; 1; 2; 3; 4; 5].

(** The value of six hexadecimal digits. *)
Definition hex6_value (head : Z -> Z) : Z :=
  fold_left (fun acc i => acc * 16 + match hex_val (head (2 + i)) with Some d => d | None => 0 end)
    [0; 1; 2; 3; 4; 5] 0.

(** What holds of the packet [p] that a collect call hands to its caller,
    [c] being the descriptor at the return. *)
Definition delivered_ok (c : SLCD) (p : SLpacket) : Prop :=
  exists h,
    p = slpack (stat c)
    /\ slhead p = Some h /\ msrecord p = Some (int_add h SLHEADSIZE)
    /\ reclen p = fst (detect F (view (databuf (stat c)) (int_add h SLHEADSIZE))
                         (wrap64u (int_sub (recptr (stat c)) h)))
    /\ 0 < reclen p
    /\ (mem_equal (view (databuf (stat c)) h) INFOSIGNATURE = false ->
        mem_equal (view (databuf (stat c)) h) SIGNATURE = true
        /\ 0 <= sl_sequence (view (databuf (stat c)) h) <= 16777215).

(** The stream table is the single uni-station entry, or its head is not one. *)
Definition uni_exclusive (l : list SLstream) : Prop :=
  match l with
  | e :: _ :: _ => is_uni e = false
  | _ => True
  end.

(** A call of one of the collect functions. *)
Inductive call : Type :=
| Blocking (fuel : nat)          (* sl_collect *)
| NonBlocking (maxrecsize : Z).  (* sl_collect_nb_size *)

Definition do_call (k : call) (c : SLCD) (w : world N) : option (result * SLCD * world N) :=
  match k with
  | Blocking fuel => sl_collect F G N fuel c w
  | NonBlocking m => Some (sl_collect_nb_size F G N c m w)
  end.

(** Calls made one after the other on the same descriptor. *)
Fixpoint do_calls (ks : list call) (c : SLCD) (w : world N)
  : option (list result * SLCD * world N) :=
  match ks with
  | [] => Some ([], c, w)
  | k :: ks' =>
      match do_call k c w with
      | Some (r, c1, w1) =>
          match do_calls ks' c1 w1 with
          | Some (rs, c2, w2) => Some (r :: rs, c2, w2)
          | None => None
          end
      | None => None
      end
  end.

Definition has_fuel (k : call) : Prop :=
  match k with Blocking fuel => (0 < fuel)%nat | NonBlocking _ => True end.

(** The length found for the record at the read cursor is not so large that
    adding the SeedLink header to it overflows an [int]. *)
Definition frame_fits (s : SLstat) : bool := packet_len F s <=? INT_MAX - SLHEADSIZE.

(** [frame_fits] at every pass of the loop over the buffer that starts in
    the state [c]. *)
Fixpoint loop_fits (fuel : nat) (c : SLCD) (w : world N) : bool :=
  match fuel with
  | O => true
  | S fuel' =>
    if loop_guard (stat c) then
      frame_fits (stat c)
      && match loop_body F G N c w with
         | (BodyNext, c', w') => loop_fits fuel' c' w'
         | _ => true
         end
    else true
  end.

Definition buffer_fits (c : SLCD) (w : world N) : bool := loop_fits (loop_fuel c) c w.

(** [frame_fits] for every record that a call of sl_collect_nb_size looks
    at. *)
Definition nb_fits (c : SLCD) (w : world N) : bool :=
  let '(stop, c1, w1) := check_slcd N (info_was_set c) w in
  if stop then true
  else
    let '(c2, w2) :=
      if terminate c1 =? 0 then main_sequence N c1 w1 else terminating N SL_DATA c1 w1 in
    buffer_fits c2 w2.

(** [frame_fits] for every record that the primary loop of sl_collect looks
    at in [fuel] passes. *)
Fixpoint passes_fit (fuel : nat) (c : SLCD) (w : world N) : bool :=
  match fuel with
  | O => true
  | S fuel' =>
    let '(c2, w2) :=
      if terminate c =? 0 then main_sequence N c w else terminating N SL_DOWN c w in
    buffer_fits c2 w2
    && match process_buffer F G N c2 w2 with
       | (LoopDone, c3, w3) =>
           if negb (terminate c3 =? 0) then true
           else
             let '(stop', c5, w5) := stream_stopped N (shift_buffer c3) w3 in
             if stop' then true
             else
               let '(c6, w6) := read_blocking N c5 w5 in
               let '(c7, w7) := update_timing N c6 w6 in
               passes_fit fuel' c7 w7
       | _ => true
       end
  end.

(** No record that the call looks at has a length above INT_MAX - SLHEADSIZE. *)
Definition call_fits (k : call) (c : SLCD) (w : world N) : bool :=
  match k with
  | Blocking fuel =>
      let '(stop, c1, w1) := check_slcd N (info_was_set c) w in
      if stop then true else passes_fit fuel c1 w1
  | NonBlocking _ => nb_fits c w
  end.

(** The same of calls made one after the other. *)
Fixpoint calls_fit (ks : list call) (c : SLCD) (w : world N) : bool :=
  match ks with
  | [] => true
  | k :: ks' =>
      call_fits k c w
      && match do_call k c w with
         | Some (_, c1, w1) => calls_fit ks' c1 w1
         | None => true
         end
  end.

(** The session is in state Data with the link up, and the main sequence has
    nothing to do: no INFO request waits to be sent and no timer has fired. *)
Definition quiet_in_data (c : SLCD) : Prop :=
  terminate c = 0 /\ link c <> -1 /\ sl_state (stat c) = SL_DATA
  /\ (info c = None \/ expect_info (stat c) <> 0)
  /\ (netto c = 0 \/ netto_trig (stat c) <= 0)
  /\ (keepalive c = 0 \/ expect_info (stat c) <> 0 \/ keepalive_trig (stat c) <= 0).

(** The session is quiet in state Data and the bytes at the read cursor, a
    packet's worth of them, are no miniSEED record. *)
Definition garbage_held (c : SLCD) : Prop :=
  quiet_in_data c /\ loop_guard (stat c) = true /\ packet_len F (stat c) < 0.

(** The link is closed, the session is not terminating, the trigger of the
    reconnect delay is not at 0, and the unread bytes, at the start of the
    buffer, are the ERROR line or the END line of the server. *)
Definition line_held (c : SLCD) : Prop :=
  link c = -1 /\ terminate c = 0 /\ netdly_trig (stat c) <> 0
  /\ sendptr (stat c) = 0
  /\ (unread_is c ERROR_LINE = true \/ unread_is c END_LINE = true).

(** What was added to the trace from [w] to [w'] has sl_connect for its first
    contact with the server, if it has any. *)
Definition connects_first (w w' : world N) : Prop :=
  exists tl, trace w' = trace w ++ tl
    /\ match contacts tl with [] => True | e :: _ => e = Connect end.

(** The link is closed and either the terminate flag is set with nothing left
    to deliver, or the connection description is refused. *)
Definition terminated (c : SLCD) : Prop :=
  link c = -1
  /\ ((terminate c <> 0 /\ loop_stops (stat c) = true)
      \/ sl_checkslcd N (info_was_set c) <> 0).

(** In state Down the socket is closed. *)
Definition down_closed (c : SLCD) : Prop :=
  sl_state (stat c) = SL_DOWN -> link c = -1.

(** A failed sl_connect leaves the handle closed. *)
Definition closes_on_failure : Prop :=
  forall c e l e', w_connect N c e = (-1, l, e') -> l = -1.

(** What the loop leaves alone. *)
Definition loop_frame (c c' : SLCD) : Prop :=
  link c' = link c /\ terminate c' = terminate c /\ info c' = info c
  /\ databuf (stat c') = databuf (stat c) /\ recptr (stat c') = recptr (stat c)
  /\ sl_state (stat c') = sl_state (stat c)
  /\ netdly_trig (stat c') = netdly_trig (stat c).

End Statements.







(** ** Notions used in the further statements *)

(** What the configuration functions and the packets received do to the
    stream table of a descriptor. *)
Inductive table_op : Type :=
| AddStream (malloc_ok : bool) (rest net sta : string) (selectors : option string)
    (seqnum : Z) (timestamp : option string)            (* sl_addstream *)
| SetUniParams (malloc_ok : bool) (rest : string) (selectors : option string)
    (seqnum : Z) (timestamp : option string)            (* sl_setuniparams *)
| Packet (slhead msrecord : Z -> Z).                    (* update_stream *)

Definition table_step (F : MSeedFormat) (G : GenUtils) (c : SLCD) (op : table_op) : SLCD :=
  match op with
  | AddStream m rest n s sel seq ts => snd (fst (sl_addstream m rest c n s sel seq ts))
  | SetUniParams m rest sel seq ts => snd (fst (sl_setuniparams m rest c sel seq ts))
  | Packet h r => set_streams c (snd (fst (update_stream F G (streams c) h r)))
  end.

Definition table_steps (F : MSeedFormat) (G : GenUtils) (ops : list table_op) (c : SLCD)
  : SLCD := fold_left (table_step F G) ops c.

(** The receive buffer is whole: the cursors are in order and the array has
    its BUFSIZE bytes. *)
Definition buffer_ok (s : SLstat) : Prop :=
  cursors_ok s /\ Z.of_nat (List.length (databuf s)) = BUFSIZE.

(** The packet that the buffer loop has just handed out lies within the
    filled part of the buffer, and the read cursor is at its end. *)
Definition packet_in_buffer (s : SLstat) : Prop :=
  exists h,
    slhead (slpack s) = Some h /\ msrecord (slpack s) = Some (h + SLHEADSIZE)
    /\ 0 <= h /\ 0 < reclen (slpack s)
    /\ h + SLHEADSIZE + reclen (slpack s) = sendptr s
    /\ sendptr s <= recptr s <= BUFSIZE.

(** The link is down and nothing in the descriptor will bring it up: the
    session is not terminating, the reconnect delay is 0 and its trigger is
    not at 0. *)
Definition stranded (c : SLCD) : Prop :=
  link c = -1 /\ terminate c = 0 /\ netdly c = 0 /\ netdly_trig (stat c) <> 0.


(** The trace of [w'] is the trace of [w] and what was added to it. *)
Definition extends (N : Network) (w w' : world N) : Prop :=
  exists tl, trace w' = trace w ++ tl.

(** Nothing in the buffer will end the primary loop: it holds less than a
    packet, from its start on, and neither the ERROR nor the END line. *)
Definition nothing_pending (c : SLCD) : Prop :=
  loop_guard (stat c) = false /\ sendptr (stat c) = 0
  /\ unread_is c ERROR_LINE = false /\ unread_is c END_LINE = false.

(** The upper-case hexadecimal digit of a value below 16. *)
Definition hex_char (d : Z) : Z := if d <? 10 then 48 + d else 55 + d.

(** The six hexadecimal digits of a sequence number, most significant first. *)
Definition hex6 (n : Z) : list Z :=
  map (fun k => hex_char ((n / 16 ^ k) mod 16)) [5; 4; 3; 2; 1; 0].

(** The blockette chain of a miniSEED 2 record leads from the offset [off] to
    a whole 1000 blockette at [target], through blockettes that each point
    forward. *)
Inductive leads_to_b1000 (F : MSeedFormat) (record : Z -> Z) (recbuflen : Z)
  (swapflag : bool) : Z -> Z -> Prop :=
| b1000_here (off : Z) :
    47 < off <= recbuflen ->
    HO2u (rd16 (big_endian_host F) record off) swapflag = 1000 ->
    off + 8 <= recbuflen ->
    leads_to_b1000 F record recbuflen swapflag off off
| b1000_next (off target : Z) :
    47 < off <= recbuflen ->
    HO2u (rd16 (big_endian_host F) record off) swapflag <> 1000
    \/ recbuflen < off + 8 ->
    off + 4 < HO2u (rd16 (big_endian_host F) record (off + 2)) swapflag ->
    leads_to_b1000 F record recbuflen swapflag
      (HO2u (rd16 (big_endian_host F) record (off + 2)) swapflag) target ->
    leads_to_b1000 F record recbuflen swapflag off target.

(** A valid miniSEED 2 header stands at the offset [off] of the record. *)
Definition ms2_header_at (F : MSeedFormat) (record : Z -> Z) (off : Z) : bool :=
  MS2_ISVALIDHEADER F (fun i => record (off + i)).

(** The offsets that the walk of sl_packettype visits: the offset of the
    first blockette, and the offset that each blockette visited gives for the
    next one, as long as it is not 0. *)
Inductive on_chain (record : Z -> Z) : Z -> Prop :=
| chain_first : on_chain record (int16 (ntohs_at record 46))
| chain_next (off : Z) :
    on_chain record off -> ntohs_at record (off + 2) <> 0 ->
    on_chain record (ntohs_at record (off + 2)).

(** Every blockette of the chain that lies within the header points forward
    or ends the chain. *)
Definition forward_chain (record : Z -> Z) : Prop :=
  forall off, on_chain record off -> 0 <= off <= MAX_HEADER_SIZE ->
    ntohs_at record (off + 2) = 0 \/ off < ntohs_at record (off + 2).

(** The type of a blockette is one of those that sl_packettype reports. *)
Definition marker_type (t : Z) : bool :=
  ((200 <=? t) && (t <=? 299)) || ((300 <=? t) && (t <=? 399))
  || ((500 <=? t) && (t <=? 599)).

(** The bytes received and not yet handed out: those between the cursors. *)
Definition unread (s : SLstat) : list Z :=
  firstn (Z.to_nat (recptr s - sendptr s)) (skipn (Z.to_nat (sendptr s)) (databuf s)).
(** ** Instances for the worked examples

    The theorems below hold for every [MSeedFormat], [GenUtils] and
    [Network].  The examples run the code on concrete buffers and need one of
    each; these follow what the specification says of the missing parts. *)

Module Example.

Definition is_digit (c : Z) : bool := (48 <=? c) && (c <=? 57).

(** Modelled from the spec: MS2_ISVALIDHEADER of the missing mseedformat.h;
    the first six bytes are ASCII digits, byte 6 is a data-quality indicator
    (D, R, Q or M) and byte 7 is a space. *)
Definition ms2_isvalidheader (r : Z -> Z) : bool :=
  forallb (fun i => is_digit (r i)) [0; 1; 2; 3; 4; 5]
  && ((r 6 =? 68) || (r 6 =? 82) || (r 6 =? 81) || (r 6 =? 77))
  && (r 7 =? 32).

(** Modelled from the spec: MS3_ISVALIDHEADER of the missing mseedformat.h;
    first byte 'M', second byte 'S', third byte 3. *)
Definition ms3_isvalidheader (r : Z -> Z) : bool :=
  (r 0 =? 77) && (r 1 =? 83) && (r 2 =? 3).

(** Modelled from the spec: MS_ISVALIDYEARDAY of the missing mseedformat.h;
    year in [1900, 2050] and day in [1, 366]. *)
Definition ms_isvalidyearday (y d : Z) : bool :=
  (1900 <=? y) && (y <=? 2050) && (1 <=? d) && (d <=? 366).

(** Modelled from the spec: the unsigned length fields of the fixed part of the
    miniSEED 3 header (missing mseedformat.h), at their offsets in the format:
    a byte at 33, 16 bits at 34 and 32 bits at 36, read on a little-endian
    host. *)
Definition ms3_sidlength (r : Z -> Z) : Z := r 33.
Definition ms3_extralength (r : Z -> Z) : Z := r 34 + 256 * r 35.
Definition ms3_datalength (r : Z -> Z) : Z :=
  r 36 + 256 * r 37 + 65536 * r 38 + 16777216 * r 39.

Definition format : MSeedFormat :=
  {| big_endian_host := false;
     MS3_ISVALIDHEADER := ms3_isvalidheader;
     MS2_ISVALIDHEADER := ms2_isvalidheader;
     MS_ISVALIDYEARDAY := ms_isvalidyearday;
     pMS3FSDH_SIDLENGTH := ms3_sidlength;
     pMS3FSDH_EXTRALENGTH := ms3_extralength;
     pMS3FSDH_DATALENGTH := ms3_datalength |}.

Definition is_leap (y : Z) : bool :=
  ((y mod 4 =? 0) && negb (y mod 100 =? 0)) || (y mod 400 =? 0).

Fixpoint month_of (days : list Z) (month jday : Z) : Z * Z :=
  match days with
  | [] => (0, 0)
  | d :: rest => if jday <=? d then (month, jday) else month_of rest (month + 1) (jday - d)
  end.

(** Modelled from the spec: sl_doy2md of the missing genutils.c; day of year to
    month and day of month.  Outside a year the outputs stay 0. *)
Definition doy2md (year jday : Z) : Z * Z :=
  if (jday <? 1) || (jday >? (if is_leap year then 366 else 365)) then (0, 0)
  else month_of [31; if is_leap year then 29 else 28; 31; 30; 31; 30; 31; 31; 30; 31; 30; 31]
         1 jday.

Definition string_of_bytes (l : list Z) : string :=
  string_of_list_ascii (map (fun c => ascii_of_nat (Z.to_nat c)) l).

Fixpoint drop_trailing_spaces (l : list Z) : list Z :=
  match l with
  | [] => []
  | c :: l' =>
      match drop_trailing_spaces l' with
      | [] => if c =? 32 then [] else [c]
      | r => c :: r
      end
  end.

(** Modelled from the spec: sl_strncpclean of the missing genutils.c; the code
    trimmed of trailing spaces. *)
Definition strncpclean (src : list Z) : string :=
  string_of_bytes (drop_trailing_spaces (c_string src)).

(** One character against the body of a character class; the answer and the
    pattern after the closing bracket. *)
Fixpoint class_scan (c : ascii) (body : list ascii) (hit : bool)
  : option (bool * list ascii) :=
  match body with
  | [] => None
  | "]"%char :: rest => Some (hit, rest)
  | lo :: rest =>
      match rest with
      | "-"%char :: hi :: rest' =>
          if Ascii.eqb hi "]"%char
          then class_scan c rest (hit || Ascii.eqb c lo)
          else class_scan c rest'
                 (hit || ((nat_of_ascii lo <=? nat_of_ascii c)%nat
                          && (nat_of_ascii c <=? nat_of_ascii hi)%nat))
      | _ => class_scan c rest (hit || Ascii.eqb c lo)
      end
  end.

Fixpoint glob (fuel : nat) (s p : list ascii) : bool :=
  match fuel with
  | O => false
  | S fuel' =>
    match p with
    | [] => is_nil s
    | "*"%char :: p' =>
        glob fuel' s p' || match s with [] => false | _ :: s' => glob fuel' s' p end
    | "?"%char :: p' => match s with [] => false | _ :: s' => glob fuel' s' p' end
    | "["%char :: p' =>
        match s with
        | [] => false
        | c :: s' =>
            let '(negated, body) :=
              match p' with "!"%char :: b => (true, b) | _ => (false, p') end in
            match class_scan c body false with
            | Some (hit, rest) => xorb negated hit && glob fuel' s' rest
            | None => false
            end
        end
    | "\"%char :: c :: p' =>
        match s with x :: s' => Ascii.eqb x c && glob fuel' s' p' | [] => false end
    | c :: p' =>
        match s with x :: s' => Ascii.eqb x c && glob fuel' s' p' | [] => false end
    end
  end.

(** Modelled from the spec: sl_globmatch of the missing globmatch.c; shell-style
    matching with *, ?, classes [abc], [a-z], [!abc] and backslash escape. *)
Definition globmatch (s p : string) : Z :=
  let ls := list_ascii_of_string s in
  let lp := list_ascii_of_string p in
  if glob (S (List.length ls + List.length lp)) ls lp then 1 else 0.

Definition genutils : GenUtils :=
  {| sl_doy2md := doy2md; sl_strncpclean := strncpclean; sl_globmatch := globmatch |}.

(** A scripted server: the world is the queue of what the next calls of
    sl_recvdata return.  Connecting gives socket 5, commands succeed, select()
    reports the socket readable, and the clock stands still.
    Modelled from the spec: sl_checkslcd of the missing network code fails when
    the descriptor lacks a server address. *)
Definition scripted : Network :=
  {| World := list (Z * list Z);
     sl_checkslcd := fun c => match sladdr c with Some _ => 0 | None => -1 end;
     w_connect := fun _ q => (5, 5, q);
     w_close := fun _ q => q;
     w_send_info := fun _ _ _ q => (5, q);
     w_configlink := fun _ q => (0, q);
     w_select := fun _ q => (1, true, q);
     w_recvdata := fun _ _ q =>
       match q with
       | (r, data) :: q' => (r, data, q')
       | [] => (0, [], [])
       end;
     w_dtime := fun q => (0, q);
     w_usleep := fun _ q => q;
     elapsed_gt := fun now start secs => now - start >? secs |}.

Definition start (q : list (Z * list Z)) : world scripted := Build_world scripted q [].

(** A server that cannot be reached: sl_connect fails and leaves the handle
    closed. *)
Definition unreachable : Network :=
  {| World := unit;
     sl_checkslcd := fun c => match sladdr c with Some _ => 0 | None => -1 end;
     w_connect := fun _ u => (-1, -1, u);
     w_close := fun _ u => u;
     w_send_info := fun _ _ _ u => (-1, u);
     w_configlink := fun _ u => (-1, u);
     w_select := fun _ u => (0, false, u);
     w_recvdata := fun _ _ u => (-1, [], u);
     w_dtime := fun u => (0, u);
     w_usleep := fun _ u => u;
     elapsed_gt := fun now start secs => now - start >? secs |}.

Definition nowhere : world unreachable := Build_world unreachable tt [].

(** sl_newslcd (slutils.c:933) with a server address, and a buffer that holds
    [buf] with the cursors given. *)
Definition new_stat : SLstat :=
  {| databuf := repeat 0 (Z.to_nat BUFSIZE); recptr := 0; sendptr := 0;
     slpack := {| slhead := None; msrecord := None; reclen := 0 |};
     expect_info := 0; netto_trig := -1; netdly_trig := 0; keepalive_trig := -1;
     netto_time := 0; netdly_time := 0; keepalive_time := 0;
     sl_state := SL_DOWN; query_mode := NoQuery |}.

Definition new_slcd : SLCD :=
  {| streams := []; sladdr := Some "localhost:18000"%string; begin_time := None;
     end_time := None; resume := 1; multistation := 0; dialup := 0; batchmode := 0;
     lastpkttime := 1; terminate := 0; keepalive := 0; iotimeout := 60; netto := 600;
     netdly := 30; info := None; link := -1; stat := new_stat |}.

(** A connected session in state Data whose buffer starts with [bytes]. *)
Definition in_data (l : list SLstream) (bytes : list Z) : SLCD :=
  set_streams
    (set_link
       (upd_stat (st_sl_state SL_DATA)
          (upd_stat (st_recptr (Z.of_nat (List.length bytes)))
             (upd_stat (st_databuf (write_at (databuf new_stat) 0 bytes)) new_slcd))) 5) l.

Definition stream (n s : string) : SLstream :=
  {| net := n; sta := s; selectors := None; seqnum := -1; timestamp := EmptyString |}.

(** A miniSEED 2 fixed header (48 bytes) of station [s] (5 characters) and
    network [n] (2 characters), big-endian, 2024 day 61 at 12:34:56, with the
    first blockette at [blkt]. *)
Definition fsdh (s n : string) (blkt : Z) : list Z :=
  bytes_of_string "000001D " ++ bytes_of_string s ++ bytes_of_string "  BHZ"
  ++ bytes_of_string n ++ [7; 232; 0; 61; 12; 34; 56; 0; 0; 0]
  ++ repeat 0 16 ++ [0; blkt].

(** A 1000 blockette: no next blockette, record length 2^[e]. *)
Definition blkt1000 (e : Z) : list Z := [3; 232; 0; 0; 10; 1; e; 0].

(** A miniSEED 2 record of 2^[e] bytes (at least 64). *)
Definition ms2record (s n : string) (e : Z) : list Z :=
  fsdh s n 48 ++ blkt1000 e ++ repeat 0 (Z.to_nat (2 ^ e) - 56).


(** *** Inputs of the examples *)

Definition rec512 : list Z := ms2record "WLF  " "GE" 9.

(** A data packet: sequence number 0x00ABCD and a 512-byte record of GE WLF. *)
Definition data_bytes : list Z := bytes_of_string "SL00ABCD" ++ rec512.

(** An INFO packet, the last of its response or not. *)
Definition info_bytes (last : bool) : list Z :=
  bytes_of_string (if last then "SLINFO  " else "SLINFO *") ++ rec512.

(** A packet whose record has a valid miniSEED 2 header, no blockette and no
    header after it: 72 bytes of a stream of records without 1000 blockette. *)
Definition undetermined_bytes : list Z :=
  bytes_of_string "SL000001" ++ fsdh "WLF  " "GE" 0 ++ repeat 0 16.

(** A packet whose record is a miniSEED 3 header that declares a data length of
    0x7FFFFFD7: the record length is 40 + 0x7FFFFFD7 = 2^31 - 1. *)
Definition ms3_header : list Z :=
  [77; 83; 3] ++ repeat 0 33 ++ [215; 255; 255; 127] ++ repeat 0 8.
Definition overflow_bytes : list Z := bytes_of_string "SL000001" ++ ms3_header.



(** A data packet whose header is "SL" followed by 0x001F. *)
Definition lenient_bytes : list Z := bytes_of_string "SL0x001F" ++ rec512.

(** 56 bytes that are no miniSEED record. *)
Definition garbage_bytes : list Z := repeat 0 56.

Definition with_keepalive (c : SLCD) (secs trig : Z) : SLCD :=
  upd_stat (st_keepalive_trig trig)
    {| streams := streams c; sladdr := sladdr c; begin_time := begin_time c;
       end_time := end_time c; resume := resume c; multistation := multistation c;
       dialup := dialup c; batchmode := batchmode c; lastpkttime := lastpkttime c;
       terminate := terminate c; keepalive := secs; iotimeout := iotimeout c;
       netto := netto c; netdly := netdly c; info := info c; link := link c;
       stat := stat c |}.

(** A keepalive request is outstanding. *)
Definition awaiting_keepalive (c : SLCD) : SLCD :=
  upd_stat (st_expect_info 1) (upd_stat (st_query_mode KeepAliveQuery) c).

Definition no_match_conn : SLCD := in_data [stream "IU" "ANMO"] data_bytes.
Definition match_conn : SLCD := in_data [stream "GE" "WLF"] data_bytes.
Definition table : list SLstream :=
  [stream "GE" "W*"; stream "IU" "ANMO"; stream "G?" "[U-Z]LF"].
Definition undetermined_conn : SLCD := in_data [stream "GE" "WLF"] undetermined_bytes.
Definition flagged_conn : SLCD := set_terminate new_slcd 1.
Definition read_fails_conn : SLCD := in_data [stream "GE" "WLF"] [].
Definition error_conn : SLCD := in_data [stream "GE" "WLF"] ERROR_LINE.
Definition end_conn : SLCD := in_data [stream "GE" "WLF"] END_LINE.
Definition unexpected_info_conn : SLCD := in_data [stream "GE" "WLF"] (info_bytes true).
Definition keepalive_due_conn : SLCD := with_keepalive (in_data [stream "GE" "WLF"] []) 30 1.
Definition keepalive_reply_conn : SLCD :=
  awaiting_keepalive (in_data [stream "GE" "WLF"] (info_bytes true)).
Definition overflow_conn : SLCD := in_data [stream "XX" "UNI"] overflow_bytes.
Definition uni_conn : SLCD := in_data [stream "XX" "UNI"] [].
Definition lenient_conn : SLCD := in_data [stream "GE" "WLF"] lenient_bytes.

Definition nb (c : SLCD) (q : list (Z * list Z)) : result * SLCD * world scripted :=
  sl_collect_nb_size format genutils scripted c SLRECSIZEMAX (start q).

Definition calls (ks : list call) (c : SLCD) (q : list (Z * list Z))
  : option (list result * SLCD * world scripted) :=
  do_calls format genutils scripted ks c (start q).

Definition twice : list call := [NonBlocking SLRECSIZEMAX; NonBlocking SLRECSIZEMAX].

Definition thrice : list call :=
  [NonBlocking SLRECSIZEMAX; NonBlocking SLRECSIZEMAX; NonBlocking SLRECSIZEMAX].

(** The two records of a keepalive response that comes in two records. *)
Definition two_record_reply : list (Z * list Z) :=
  [(1040, info_bytes false ++ info_bytes true)].

(** The reply to a keepalive in one record. *)
Definition one_record_reply : list (Z * list Z) := [(520, info_bytes true)].

(** The keepalive is sent by a first call, which also reads its reply; the
    caller then asks for INFO STREAMS and calls again. *)
Definition keepalive_then_request : result * SLCD * world scripted :=
  let '(_, c1, w1) := nb keepalive_due_conn one_record_reply in
  let '(_, c2, w2) := sl_request_info scripted c1 "STREAMS" w1 in
  sl_collect_nb_size format genutils scripted c2 SLRECSIZEMAX w2.

End Example.


(** ** Instances and inputs for the further examples *)

Module Session.

Import Example.

(** A server whose sl_recvdata hands over the next chunk of its queue, cut to
    the room it was given, and returns the number of bytes handed over; a
    negative room is an error. *)
Definition metered : Network :=
  {| World := list (list Z);
     sl_checkslcd := fun c => match sladdr c with Some _ => 0 | None => -1 end;
     w_connect := fun _ q => (5, 5, q);
     w_close := fun _ q => q;
     w_send_info := fun _ _ _ q => (5, q);
     w_configlink := fun _ q => (0, q);
     w_select := fun _ q => (1, true, q);
     w_recvdata := fun _ n q =>
       if n <? 0 then (Z.min (-1) n, [], q)
       else
         match q with
         | data :: q' =>
             (Z.of_nat (List.length (firstn (Z.to_nat n) data)), firstn (Z.to_nat n) data, q')
         | [] => (0, [], [])
         end;
     w_dtime := fun q => (0, q);
     w_usleep := fun _ q => q;
     elapsed_gt := fun now start secs => now - start >? secs |}.

Definition served (q : list (list Z)) : world metered := Build_world metered q [].

(** The descriptor with another reconnect delay and delay trigger. *)
Definition with_netdly (c : SLCD) (secs trig : Z) : SLCD :=
  upd_stat (st_netdly_trig trig)
    {| streams := streams c; sladdr := sladdr c; begin_time := begin_time c;
       end_time := end_time c; resume := resume c; multistation := multistation c;
       dialup := dialup c; batchmode := batchmode c; lastpkttime := lastpkttime c;
       terminate := terminate c; keepalive := keepalive c; iotimeout := iotimeout c;
       netto := netto c; netdly := secs; info := info c; link := link c;
       stat := stat c |}.

(** The link was lost and the reconnect delay is 0. *)
Definition stranded_conn : SLCD := with_netdly new_slcd 0 (-1).

(** The link was lost and the reconnect delay of 30 seconds runs. *)
Definition delayed_conn : SLCD := with_netdly new_slcd 30 1.


(** A session in state Data with a request for INFO STREAMS pending. *)
Definition asking_conn : SLCD := set_info (in_data [stream "GE" "WLF"] []) (Some "STREAMS"%string).

(** A session in state Data that has handed out a first packet and holds the
    first 100 bytes of a second one. *)
Definition partial_conn : SLCD :=
  upd_stat (st_sendptr 520)
    (in_data [stream "GE" "WLF"] (data_bytes ++ firstn 100 data_bytes)).

(** Two records of 64 bytes without blockettes. *)
Definition bare_record : list Z := fsdh "WLF  " "GE" 0 ++ repeat 0 16.
Definition two_bare_records : list Z := bare_record ++ bare_record.

(** A record whose first blockette, at offset 48, names offset 48 as the
    next one. *)
Definition self_reference : list Z :=
  fsdh "WLF  " "GE" 48 ++ [3; 232; 0; 48; 10; 1; 9; 0] ++ repeat 0 456.

(** The calls of the configuration functions of a client of two stations. *)
Definition two_stations : list table_op :=
  [AddStream true EmptyString "GE" "WLF" None (-1) None;
   AddStream true EmptyString "IU" "ANMO" (Some "BHZ"%string) 10 (Some "2023,12,31,23,59,59"%string);
   SetUniParams true EmptyString None (-1) None;
   Packet (view data_bytes 0) (view data_bytes 8)].

End Session.
(** * Proofs *)

Ltac break_match :=
  match goal with
  | |- context [match ?x with _ => _ end] => destruct x eqn:?
  | H : context [match ?x with _ => _ end] |- _ => destruct x eqn:?
  end.

Ltac inv_pairs :=
  repeat match goal with
  | H : (_, _) = (_, _) |- _ => inversion H; subst; clear H
  end.

Ltac absurd_exit :=
  match goal with
  | H : _ = _ \/ _ = _ |- _ => destruct H; discriminate
  end.

(** Reduce the projections of the records through the assignments. *)
Ltac fields :=
  cbn [upd_stat set_stat set_link set_info set_streams set_terminate
       st_databuf st_recptr st_sendptr st_slpack st_expect_info st_netto_trig
       st_netdly_trig st_keepalive_trig st_netto_time st_netdly_time st_keepalive_time
       st_sl_state st_query_mode
       streams sladdr terminate keepalive netto netdly info link stat
       databuf recptr sendptr slpack expect_info netto_trig netdly_trig keepalive_trig
       sl_state query_mode fst snd] in *.

(** ** Arithmetic of [int] *)

Lemma wrap32s_range x : - 2 ^ 31 <= wrap32s x < 2 ^ 31.
Proof. unfold wrap32s. pose proof (Z.mod_pos_bound (x + 2 ^ 31) (2 ^ 32)). lia. Qed.

Lemma wrap32s_unique x y k :
  - 2 ^ 31 <= y < 2 ^ 31 -> y = x + 2 ^ 32 * k -> wrap32s x = y.
Proof.
  intros Hy ->. unfold wrap32s.
  replace (x + 2 ^ 31) with ((x + 2 ^ 32 * k + 2 ^ 31) + (- k) * 2 ^ 32) by lia.
  rewrite Z.mod_add by lia. rewrite Z.mod_small; lia.
Qed.

Lemma wrap32s_id x : - 2 ^ 31 <= x < 2 ^ 31 -> wrap32s x = x.
Proof. intros. apply (wrap32s_unique x x 0); lia. Qed.

Lemma wrap32s_multiple x : exists k, wrap32s x = x + 2 ^ 32 * k.
Proof.
  exists (- ((x + 2 ^ 31) / 2 ^ 32)). unfold wrap32s.
  pose proof (Z.div_mod (x + 2 ^ 31) (2 ^ 32)). lia.
Qed.

Lemma advance_distance r s len :
  56 <= wrap32s (r - s) -> 0 < len < 2 ^ 31 ->
  wrap32s (len + 8) <= wrap32s (r - s) ->
  wrap32s (r - wrap32s (s + wrap32s (8 + len))) < wrap32s (r - s).
Proof.
  intros Hd Hl Ha.
  destruct (wrap32s_multiple (r - s)) as [k1 E1].
  destruct (wrap32s_multiple (8 + len)) as [k2 E2].
  destruct (wrap32s_multiple (s + wrap32s (8 + len))) as [k3 E3].
  pose proof (wrap32s_range (r - s)).
  destruct (Z_lt_le_dec (len + 8) (2 ^ 31)).
  - rewrite (wrap32s_id (len + 8)) in Ha by lia.
    rewrite (wrap32s_unique (r - wrap32s (s + wrap32s (8 + len))) (wrap32s (r - s) - (8 + len)) (k1 + k2 + k3)); lia.
  - rewrite (wrap32s_unique (r - wrap32s (s + wrap32s (8 + len))) (wrap32s (r - s) - (8 + len)) (k1 + k2 + k3)); lia.
Qed.

Lemma contacts_app a b : contacts (a ++ b) = contacts a ++ contacts b.
Proof. apply filter_app. Qed.

Ltac frame :=
  simpl; repeat split; auto;
  unfold sl_log_r, emit; simpl; rewrite ?contacts_app; simpl; rewrite ?app_nil_r; auto.

Ltac crush_block :=
  intros; repeat break_match; inv_pairs; unfold down_closed in *; simpl in *;
  try (intros; auto; congruence); try lia.

Ltac crush_cursors :=
  intros; repeat break_match; inv_pairs; unfold cursors_ok, BUFSIZE in *; fields;
  try (unfold int_sub, int_add; rewrite ?wrap32s_id by lia); try lia.

(** ** The framer and the sequence number *)

Section Framer.

Variable F : MSeedFormat.
Variable G : GenUtils.
Variable N : Network.

Lemma shl1_int32_range n : - 2 ^ 31 <= shl1_int32 n < 2 ^ 31.
Proof. apply wrap32s_range. Qed.

Lemma blkt_loop_found fuel : forall record recbuflen swapflag off r,
  blkt_loop F fuel record recbuflen swapflag off = Some (BlktFound r) ->
  - 2 ^ 31 <= r < 2 ^ 31.
Proof.
  induction fuel as [|fuel IH]; intros record recbuflen swapflag off r H; [discriminate|].
  simpl in H.
  repeat break_match; try discriminate.
  - inversion H; subst. apply shl1_int32_range.
  - eapply IH; eauto.
Qed.

Lemma scan_next_range record recbuflen foundlen reclen :
  - 2 ^ 31 <= reclen < 2 ^ 31 ->
  - 2 ^ 31 <= scan_next F record recbuflen foundlen reclen < 2 ^ 31.
Proof.
  intros H. unfold scan_next.
  repeat break_match; try apply wrap32s_range; lia.
Qed.

Lemma detect_range record recbuflen :
  - 2 ^ 31 <= fst (detect F record recbuflen) < 2 ^ 31.
Proof.
  unfold detect.
  repeat break_match; simpl; try apply wrap32s_range; try lia;
    apply scan_next_range; try lia.
  eapply blkt_loop_found; eauto.
Qed.

Lemma land_high_bits x : Z.land x (Z.lnot 16777215) = 0 -> 0 <= x <= 16777215.
Proof.
  intros H. rewrite <- Z.ldiff_land in H.
  change 16777215 with (Z.ones 24) in H.
  rewrite Z.ldiff_ones_r in H by lia.
  rewrite Z.shiftl_mul_pow2, Z.shiftr_div_pow2 in H by lia.
  pose proof (Z.div_mod x (2 ^ 24)). pose proof (Z.mod_pos_bound x (2 ^ 24)).
  change (Z.ones 24) with 16777215. lia.
Qed.

(** What sl_sequence returns when it does not return -1. *)
Lemma sl_sequence_valid head :
  sl_sequence head <> -1 ->
  mem_equal head SIGNATURE = true /\ 0 <= sl_sequence head <= 16777215.
Proof.
  unfold sl_sequence. intros H.
  destruct (mem_equal head SIGNATURE); simpl in *; [|congruence].
  split; [reflexivity|].
  destruct (mem_equal head INFOSIGNATURE); [lia|].
  destruct (strtoul16 _) as [v sqtail].
  destruct (negb (Z.land (wrap32s v) (Z.lnot 16777215) =? 0) || negb (hd 0 sqtail =? 0)) eqn:E;
    [congruence|].
  apply land_high_bits. lia.
Qed.

Lemma update_stream_result l head msrec r l' logs :
  update_stream F G l head msrec = (r, l', logs) ->
  (r = 0 /\ logs = [] /\ sl_sequence head <> -1) \/ (r = -1 /\ exists msg, logs = [Log 2 0 msg]).
Proof.
  unfold update_stream. intros H.
  destruct (sl_sequence head =? -1) eqn:E.
  { inv_pairs. right. eauto. }
  repeat break_match; inv_pairs; try (right; eauto; fail); left; repeat split; auto; lia.
Qed.

End Framer.

(** ** One pass through the body of the loop *)

Section LoopBody.

Variable F : MSeedFormat.
Variable G : GenUtils.
Variable N : Network.

Lemma update_stream_logs l head msrec r l' logs :
  update_stream F G l head msrec = (r, l', logs) -> contacts logs = [].
Proof.
  unfold update_stream. intros H.
  repeat break_match; inv_pairs; reflexivity.
Qed.

Lemma info_packet_frame c w head r c' w' :
  info_packet N c w head = (r, c', w') ->
  loop_frame c c' /\ sendptr (stat c') = sendptr (stat c) /\ slpack (stat c') = slpack (stat c)
  /\ ext w' = ext w /\ contacts (trace w') = contacts (trace w).
Proof.
  unfold info_packet, loop_frame. intros H.
  repeat break_match; inv_pairs; frame.
Qed.

Lemma data_packet_frame c w head msrec r c' w' :
  data_packet F G N c w head msrec = (r, c', w') ->
  loop_frame c c' /\ sendptr (stat c') = sendptr (stat c) /\ slpack (stat c') = slpack (stat c)
  /\ ext w' = ext w /\ contacts (trace w') = contacts (trace w).
Proof.
  unfold data_packet, loop_frame. intros H.
  repeat break_match; inv_pairs. apply update_stream_logs in Heqp. frame.
  rewrite Heqp, app_nil_r. reflexivity.
Qed.

Lemma classify_frame c w head msrec r c' w' :
  classify F G N c w head msrec = (r, c', w') ->
  loop_frame c c' /\ sendptr (stat c') = sendptr (stat c) /\ slpack (stat c') = slpack (stat c)
  /\ ext w' = ext w /\ contacts (trace w') = contacts (trace w).
Proof.
  unfold classify. destruct (mem_equal head INFOSIGNATURE).
  - apply info_packet_frame.
  - apply data_packet_frame.
Qed.

(** One pass through the body: what it leaves alone, and where the cursor goes. *)
Lemma loop_body_frame c w ex c' w' :
  loop_body F G N c w = (ex, c', w') ->
  loop_frame c c' /\ ext w' = ext w /\ contacts (trace w') = contacts (trace w)
  /\ slpack (stat c') =
     {| slhead := Some (sendptr (stat c));
        msrecord := Some (int_add (sendptr (stat c)) SLHEADSIZE);
        reclen := packet_len F (stat c) |}
  /\ (ex = BodyTerminate -> sendptr (stat c') = sendptr (stat c) /\ packet_len F (stat c) < 0)
  /\ (ex = BodyBreak -> sendptr (stat c') = sendptr (stat c)
        /\ (packet_len F (stat c) = 0
            \/ int_add (packet_len F (stat c)) SLHEADSIZE
               > int_sub (recptr (stat c)) (sendptr (stat c))))
  /\ (ex = BodyPacket \/ ex = BodyNext ->
        0 < packet_len F (stat c)
        /\ int_add (packet_len F (stat c)) SLHEADSIZE
           <= int_sub (recptr (stat c)) (sendptr (stat c))
        /\ sendptr (stat c') =
           int_add (sendptr (stat c)) (int_add SLHEADSIZE (packet_len F (stat c)))).
Proof.
  unfold loop_body. intros H.
  destruct (packet_len F (stat c) <? 0) eqn:E1.
  { inv_pairs. unfold loop_frame. frame; try discriminate; try lia; absurd_exit. }
  destruct ((packet_len F (stat c) =? 0)
            || ((packet_len F (stat c) >? 0)
                && (int_add (packet_len F (stat c)) SLHEADSIZE
                    >? int_sub (recptr (stat c)) (sendptr (stat c))))) eqn:E2.
  { inv_pairs. unfold loop_frame. frame; try discriminate; try lia; try absurd_exit. }
  destruct (classify F G N _ w _ _) as [[r c2] w2] eqn:E3.
  apply classify_frame in E3. unfold loop_frame in *. simpl in E3.
  destruct E3 as ((A1 & A2 & A3 & A4 & A5 & A6 & A7) & B & C & D & E).
  apply orb_false_iff in E2. destruct E2 as [E2 E4]. apply andb_false_iff in E4.
  assert (0 < packet_len F (stat c)) by lia.
  assert (int_add (packet_len F (stat c)) SLHEADSIZE
          <= int_sub (recptr (stat c)) (sendptr (stat c))) by (destruct E4; lia).
  destruct r; inv_pairs; unfold advance_sendptr; simpl; rewrite ?B, ?C; simpl;
    repeat split; auto; try discriminate; intros; try discriminate.
Qed.

End LoopBody.

(** ** The loop over the buffer *)

Section Loop.

Variable F : MSeedFormat.
Variable G : GenUtils.
Variable N : Network.

Lemma loop_frame_refl c : loop_frame c c.
Proof. unfold loop_frame. repeat split. Qed.

Lemma loop_frame_trans a b c : loop_frame a b -> loop_frame b c -> loop_frame a c.
Proof. unfold loop_frame. intuition congruence. Qed.

Lemma packet_len_range s : - 2 ^ 31 <= packet_len F s < 2 ^ 31.
Proof. apply detect_range. Qed.

Lemma process_loop_total n : forall c w,
  int_sub (recptr (stat c)) (sendptr (stat c)) <= Z.of_nat n ->
  process_loop F G N (S n) c w <> None.
Proof.
  induction n as [|n IH]; intros c w Hn.
  - simpl. destruct (loop_guard (stat c)) eqn:E; [|discriminate].
    unfold loop_guard, SLHEADSIZE, SLRECSIZEMIN in E. lia.
  - change (process_loop F G N (S (S n)) c w)
      with (if loop_guard (stat c) then
              match loop_body F G N c w with
              | (BodyPacket, c', w') => Some (LoopPacket, c', w')
              | (BodyTerminate, c', w') => Some (LoopTerminate, c', w')
              | (BodyBreak, c', w') => Some (LoopDone, c', w')
              | (BodyNext, c', w') => process_loop F G N (S n) c' w'
              end
            else Some (LoopDone, c, w)).
    destruct (loop_guard (stat c)) eqn:E; [|discriminate].
    destruct (loop_body F G N c w) as [[ex c'] w'] eqn:B.
    destruct ex; try discriminate.
    apply IH. apply loop_body_frame in B.
    destruct B as (Fr & _ & _ & _ & _ & _ & Hnext).
    destruct Hnext as (Hpos & Hle & Hs); [now right|].
    destruct Fr as (_ & _ & _ & _ & Hr & _).
    rewrite Hr, Hs. unfold int_sub, int_add in *.
    unfold loop_guard, int_sub, SLHEADSIZE, SLRECSIZEMIN in *.
    pose proof (packet_len_range (stat c)).
    pose proof (advance_distance (recptr (stat c)) (sendptr (stat c)) (packet_len F (stat c))).
    lia.
Qed.

Lemma process_buffer_eq c w :
  process_loop F G N (loop_fuel c) c w = Some (process_buffer F G N c w).
Proof.
  unfold process_buffer.
  destruct (process_loop F G N (loop_fuel c) c w) eqn:E; [reflexivity|].
  exfalso. revert E. apply process_loop_total. lia.
Qed.

Lemma process_loop_frame fuel : forall c w ex c' w',
  process_loop F G N fuel c w = Some (ex, c', w') ->
  loop_frame c c' /\ ext w' = ext w /\ contacts (trace w') = contacts (trace w).
Proof.
  induction fuel as [|fuel IH]; intros c w ex c' w' H; [discriminate|].
  simpl in H. destruct (loop_guard (stat c)).
  - destruct (loop_body F G N c w) as [[e c1] w1] eqn:B.
    apply loop_body_frame in B. destruct B as (Fr & E1 & E2 & _).
    destruct e; inv_pairs; try (inversion H; subst; auto).
    apply IH in H. destruct H as (Fr' & E1' & E2').
    split; [eapply loop_frame_trans; eauto|]. split; congruence.
  - inversion H; subst. split; [apply loop_frame_refl|auto].
Qed.

Lemma process_loop_stops fuel : forall c w ex c' w',
  process_loop F G N fuel c w = Some (ex, c', w') -> ex <> LoopPacket ->
  loop_stops F (stat c') = true /\ (ex = LoopTerminate -> packet_len F (stat c') < 0).
Proof.
  induction fuel as [|fuel IH]; intros c w ex c' w' H Hex; [discriminate|].
  simpl in H. destruct (loop_guard (stat c)) eqn:E.
  - destruct (loop_body F G N c w) as [[e c1] w1] eqn:B.
    apply loop_body_frame in B.
    destruct B as (Fr & _ & _ & _ & Ht & Hb & _).
    destruct Fr as (_ & _ & _ & Hd & Hr & _).
    assert (Hpl : sendptr (stat c1) = sendptr (stat c) ->
                  packet_len F (stat c1) = packet_len F (stat c)).
    { intros Hs. unfold packet_len. rewrite Hd, Hr, Hs. reflexivity. }
    destruct e.
    + inversion H; subst. congruence.
    + inversion H; subst. destruct Ht as [Hs Hl]; auto.
      unfold loop_stops. rewrite (Hpl Hs). split; [|auto]. lia.
    + inversion H; subst. destruct Hb as [Hs Hl]; auto.
      unfold loop_stops. rewrite (Hpl Hs), Hs, Hr. split; [|discriminate].
      pose proof (packet_len_range (stat c)). lia.
    + eapply IH; eauto.
  - inversion H; subst. unfold loop_stops. rewrite E. split; [reflexivity|discriminate].
Qed.


Lemma loop_stops_ext s s' :
  databuf s' = databuf s -> recptr s' = recptr s -> sendptr s' = sendptr s ->
  loop_stops F s' = loop_stops F s.
Proof.
  intros A B C. unfold loop_stops, loop_guard, packet_len. rewrite A, B, C. reflexivity.
Qed.

(** From a state where the loop stops, it stops again, whatever the fuel. *)
Lemma process_loop_stable n c w :
  loop_stops F (stat c) = true ->
  exists ex c' w',
    process_loop F G N (S n) c w = Some (ex, c', w')
    /\ ex <> LoopPacket
    /\ loop_frame c c' /\ sendptr (stat c') = sendptr (stat c)
    /\ streams c' = streams c
    /\ ext w' = ext w /\ contacts (trace w') = contacts (trace w).
Proof.
  intros H. simpl. unfold loop_stops in H.
  destruct (loop_guard (stat c)) eqn:E.
  - unfold loop_body.
    destruct (packet_len F (stat c) <? 0) eqn:E1.
    { do 3 eexists. split; [reflexivity|]. unfold loop_frame. frame. discriminate. }
    destruct ((packet_len F (stat c) =? 0)
              || ((packet_len F (stat c) >? 0)
                  && (int_add (packet_len F (stat c)) SLHEADSIZE
                      >? int_sub (recptr (stat c)) (sendptr (stat c))))) eqn:E2.
    { do 3 eexists. split; [reflexivity|]. unfold loop_frame. frame. discriminate. }
    exfalso. simpl in H. lia.
  - do 3 eexists. split; [reflexivity|]. unfold loop_frame. frame. discriminate.
Qed.

End Loop.

(** ** The stream table and the packets of the loop *)

Section StreamTable.

Variable F : MSeedFormat.
Variable G : GenUtils.
Variable N : Network.


(** A whole INFO packet while no INFO response is expected is returned. *)
Lemma unexpected_info_returned c w :
  packet_ready F (stat c) ->
  mem_equal (head_view (stat c)) INFOSIGNATURE = true ->
  expect_info (stat c) = 0 ->
  exists c' w',
    loop_body F G N c w = (BodyPacket, c', w')
    /\ trace w' = trace w ++ [Log 2 0 "unexpected INFO packet received, skipping\n"]
    /\ forall n, process_loop F G N (S n) c w = Some (LoopPacket, c', w').
Proof.
  intros (Hg & Hp & Hc) Hi He.
  unfold loop_body, head_view in *.
  destruct (packet_len F (stat c) <? 0) eqn:E1; [lia|].
  destruct ((packet_len F (stat c) =? 0)
            || ((packet_len F (stat c) >? 0)
                && (int_add (packet_len F (stat c)) SLHEADSIZE
                    >? int_sub (recptr (stat c)) (sendptr (stat c))))) eqn:E2; [lia|].
  unfold classify. rewrite Hi. unfold info_packet. simpl. rewrite He. simpl.
  do 2 eexists. split; [reflexivity|]. split; [reflexivity|].
  intros n. simpl. rewrite Hg. unfold loop_body. rewrite E1, E2.
  unfold classify. rewrite Hi. unfold info_packet. simpl. rewrite He. simpl. reflexivity.
Qed.

End StreamTable.

(** ** The buffer as a whole *)

Section Buffer.

Variable F : MSeedFormat.
Variable G : GenUtils.
Variable N : Network.

Lemma info_was_set_idem c : info_was_set (info_was_set c) = info_was_set c.
Proof. unfold info_was_set. destruct (info c) eqn:E; simpl; [rewrite E|rewrite E]; reflexivity. Qed.

Lemma info_was_set_frame c :
  loop_frame c (info_was_set c) /\ sendptr (stat (info_was_set c)) = sendptr (stat c)
  /\ streams (info_was_set c) = streams c.
Proof. unfold info_was_set, loop_frame. destruct (info c) eqn:E; frame. Qed.

Lemma process_buffer_stable c w :
  loop_stops F (stat c) = true ->
  exists ex c' w',
    process_buffer F G N c w = (ex, c', w')
    /\ ex <> LoopPacket
    /\ loop_frame c c' /\ sendptr (stat c') = sendptr (stat c)
    /\ ext w' = ext w /\ contacts (trace w') = contacts (trace w).
Proof.
  intros H. unfold process_buffer, loop_fuel.
  destruct (process_loop_stable F G N (Z.to_nat (int_sub (recptr (stat c)) (sendptr (stat c)))) c w H)
    as (ex & c' & w' & E & A & B & C & D & E1 & E2).
  rewrite E. eauto 10.
Qed.

Lemma process_buffer_frame c w ex c' w' :
  process_buffer F G N c w = (ex, c', w') ->
  loop_frame c c' /\ ext w' = ext w /\ contacts (trace w') = contacts (trace w).
Proof.
  intros H. pose proof (process_buffer_eq F G N c w) as E. rewrite H in E.
  eapply process_loop_frame; eauto.
Qed.

Lemma process_buffer_stops c w ex c' w' :
  process_buffer F G N c w = (ex, c', w') -> ex <> LoopPacket ->
  loop_stops F (stat c') = true.
Proof.
  intros H Hex. pose proof (process_buffer_eq F G N c w) as E. rewrite H in E.
  eapply process_loop_stops in E; eauto. tauto.
Qed.

(** The tail shared by both collect functions when the terminate flag is set
    and the link is closed: the loop stops, the trap door returns. *)
Lemma terminated_step final c w :
  link c = -1 -> terminate c <> 0 -> loop_stops F (stat c) = true ->
  exists ex c' w',
    process_buffer F G N (fst (terminating N final c w)) (snd (terminating N final c w))
      = (ex, c', w')
    /\ ex <> LoopPacket /\ link c' = -1 /\ terminate c' = terminate c
    /\ loop_stops F (stat c') = true
    /\ ext w' = ext w /\ contacts (trace w') = contacts (trace w).
Proof.
  intros Hl Ht Hs. unfold terminating. rewrite Hl. simpl.
  destruct (process_buffer_stable (upd_stat (st_sl_state final) c) w)
    as (ex & c' & w' & E & A & B & C & D & E1).
  { rewrite <- Hs. apply loop_stops_ext; reflexivity. }
  exists ex, c', w'. split; [exact E|]. split; [exact A|].
  destruct B as (B1 & B2 & B3 & B4 & B5 & B6 & B7). simpl in *.
  repeat split; try congruence.
  rewrite <- Hs. apply loop_stops_ext; auto.
Qed.

End Buffer.

(** ** What is delivered *)

Section Delivery.

Variable F : MSeedFormat.
Variable G : GenUtils.
Variable N : Network.

Lemma loop_body_data_packet c w c' w' :
  loop_body F G N c w = (BodyPacket, c', w') ->
  mem_equal (head_view (stat c)) INFOSIGNATURE = false ->
  sl_sequence (head_view (stat c)) <> -1.
Proof.
  unfold loop_body, head_view. intros H Hi.
  destruct (packet_len F (stat c) <? 0); [inv_pairs|].
  destruct ((packet_len F (stat c) =? 0) || _); [inv_pairs|].
  unfold classify in H. simpl in H. rewrite Hi in H. unfold data_packet in H. simpl in H.
  destruct (update_stream F G (streams c) _ _) as [[r l] logs] eqn:U.
  destruct (update_stream_result F G _ _ _ _ _ _ U) as [(X & _ & S)|(X & _)]; subst r.
  - exact S.
  - simpl in H. inv_pairs.
Qed.

Lemma loop_body_delivers c w c' w' :
  loop_body F G N c w = (BodyPacket, c', w') ->
  delivered_ok F c' (slpack (stat c')).
Proof.
  intros H. pose proof (loop_body_data_packet _ _ _ _ H) as Hd.
  apply loop_body_frame in H.
  destruct H as ((_ & _ & _ & Hb & Hr & _) & _ & _ & Hp & _ & _ & Hn).
  destruct Hn as (Hpos & _ & _); [now left|].
  exists (sendptr (stat c)). rewrite Hp, Hb, Hr. simpl.
  repeat split; auto.
  - apply sl_sequence_valid. apply Hd. exact H.
  - apply sl_sequence_valid. apply Hd. exact H.
  - apply sl_sequence_valid. apply Hd. exact H.
Qed.

Lemma process_loop_delivers fuel : forall c w c' w',
  process_loop F G N fuel c w = Some (LoopPacket, c', w') ->
  delivered_ok F c' (slpack (stat c')).
Proof.
  induction fuel as [|fuel IH]; intros c w c' w' H; [discriminate|].
  simpl in H. destruct (loop_guard (stat c)); [|discriminate].
  destruct (loop_body F G N c w) as [[e c1] w1] eqn:B.
  destruct e; try discriminate.
  - inversion H; subst. eapply loop_body_delivers; eauto.
  - eapply IH; eauto.
Qed.

Lemma process_buffer_delivers c w c' w' :
  process_buffer F G N c w = (LoopPacket, c', w') ->
  delivered_ok F c' (slpack (stat c')).
Proof.
  intros H. pose proof (process_buffer_eq F G N c w) as E. rewrite H in E.
  eapply process_loop_delivers; eauto.
Qed.

Lemma nb_delivers c m w r p c' w' :
  sl_collect_nb_size F G N c m w = ((r, Some p), c', w') ->
  r = SLPACKET /\ delivered_ok F c' p.
Proof.
  unfold sl_collect_nb_size.
  destruct (check_slcd N (info_was_set c) w) as [[stop c1] w1].
  destruct stop; [intros X; inv_pairs|].
  destruct (if terminate c1 =? 0 then _ else _) as [c2 w2].
  destruct (process_buffer F G N c2 w2) as [[ex c3] w3] eqn:E3.
  destruct ex.
  - intros X; inv_pairs. split; [reflexivity|]. eapply process_buffer_delivers; eauto.
  - intros X; inv_pairs.
  - destruct (negb (terminate c3 =? 0)); [intros X; inv_pairs|].
    destruct (stream_stopped N (shift_buffer c3) w3) as [[stop' c5] w5].
    destruct stop'; [intros X; inv_pairs|].
    destruct (read_nb N c5 w5) as [c6 w6].
    destruct (update_timing N c6 w6) as [c7 w7].
    intros X; inv_pairs.
Qed.

Lemma nb_packet_some c m w r o c' w' :
  sl_collect_nb_size F G N c m w = ((r, o), c', w') ->
  r = SLPACKET -> o = Some (slpack (stat c')).
Proof.
  unfold sl_collect_nb_size.
  destruct (check_slcd N (info_was_set c) w) as [[stop c1] w1].
  destruct stop; [intros X; inv_pairs; discriminate|].
  destruct (if terminate c1 =? 0 then _ else _) as [c2 w2].
  destruct (process_buffer F G N c2 w2) as [[ex c3] w3] eqn:E3.
  destruct ex.
  - intros X; inv_pairs. reflexivity.
  - intros X; inv_pairs. discriminate.
  - destruct (negb (terminate c3 =? 0)); [intros X; inv_pairs; discriminate|].
    destruct (stream_stopped N (shift_buffer c3) w3) as [[stop' c5] w5].
    destruct stop'; [intros X; inv_pairs; discriminate|].
    destruct (read_nb N c5 w5) as [c6 w6].
    destruct (update_timing N c6 w6) as [c7 w7].
    intros X; inv_pairs. discriminate.
Qed.

Lemma primary_loop_delivers fuel : forall c w r o c' w',
  primary_loop F G N fuel c w = Some ((r, o), c', w') ->
  (r = SLPACKET -> o = Some (slpack (stat c')))
  /\ (forall p, o = Some p -> r = SLPACKET /\ delivered_ok F c' p).
Proof.
  induction fuel as [|fuel IH]; intros c w r o c' w'; [discriminate|]. simpl.
  destruct (if terminate c =? 0 then _ else _) as [c2 w2].
  destruct (process_buffer F G N c2 w2) as [[ex c3] w3] eqn:E3.
  destruct ex.
  - intros X; inversion X; subst. split; [reflexivity|]. intros p P. inversion P; subst.
    split; [reflexivity|]. eapply process_buffer_delivers; eauto.
  - intros X; inversion X; subst. split; [discriminate|]. intros p P. discriminate.
  - destruct (negb (terminate c3 =? 0)).
    { intros X; inversion X; subst. split; [discriminate|]. intros p P. discriminate. }
    destruct (stream_stopped N (shift_buffer c3) w3) as [[stop' c5] w5].
    destruct stop'.
    { intros X; inversion X; subst. split; [discriminate|]. intros p P. discriminate. }
    destruct (read_blocking N c5 w5) as [c6 w6].
    destruct (update_timing N c6 w6) as [c7 w7].
    apply IH.
Qed.

Lemma blocking_delivers fuel c w r o c' w' :
  sl_collect F G N fuel c w = Some ((r, o), c', w') ->
  (r = SLPACKET -> o = Some (slpack (stat c')))
  /\ (forall p, o = Some p -> r = SLPACKET /\ delivered_ok F c' p).
Proof.
  unfold sl_collect.
  destruct (check_slcd N (info_was_set c) w) as [[stop c1] w1].
  destruct stop.
  - intros X; inversion X; subst. split; [discriminate|]. intros p P. discriminate.
  - apply primary_loop_delivers.
Qed.

(** The keepalive request, as [keepalive_check] makes it. *)
Lemma keepalive_request c w :
  in_state c SL_DATA = true -> keepalive c > 0 -> expect_info (stat c) = 0 ->
  keepalive_trig (stat c) > 0 ->
  fst (w_send_info N c "ID" 3 (ext w)) <> -1 ->
  exists c' w',
    keepalive_check N c w = (c', w')
    /\ trace w' = trace w ++ [Log 1 2 "sending keepalive request\n"; SendInfo "ID"]
    /\ query_mode (stat c') = KeepAliveQuery
    /\ expect_info (stat c') = 1
    /\ keepalive_trig (stat c') = -1.
Proof.
  intros Hs Hk He Ht Hr. unfold keepalive_check, sl_send_info, sl_log_r, emit.
  rewrite Hs. simpl.
  destruct (w_send_info N c "ID" 3 (ext w)) as [r e] eqn:E. simpl in Hr.
  replace (expect_info (stat c) =? 0) with true by lia.
  replace (keepalive c =? 0) with false by lia.
  replace (keepalive_trig (stat c) >? 0) with true by lia. simpl.
  replace (r =? -1) with false by lia. simpl.
  do 2 eexists. split; [reflexivity|]. simpl. rewrite <- app_assoc. auto.
Qed.

Lemma info_packet_expected c w head r c' w' :
  info_packet N c w head = (r, c', w') ->
  expect_info (stat c) <> 0 ->
  r = negb (query_mode_eqb (query_mode (stat c)) KeepAliveQuery)
  /\ query_mode (stat c') = NoQuery.
Proof.
  unfold info_packet. intros H He.
  replace (expect_info (stat c) =? 0) with false in H by lia.
  destruct (negb (head (SLHEADSIZE - 1) =? 42));
    destruct (query_mode (stat c)) eqn:Q; simpl in H; rewrite ?Q in H; simpl in H;
    inv_pairs; simpl; rewrite ?Q; auto.
Qed.

(** A whole INFO packet while an INFO response is expected. *)
Lemma expected_info_packet c w ex c' w' :
  loop_body F G N c w = (ex, c', w') ->
  packet_ready F (stat c) ->
  mem_equal (head_view (stat c)) INFOSIGNATURE = true ->
  expect_info (stat c) <> 0 ->
  (query_mode (stat c) = KeepAliveQuery -> ex = BodyNext)
  /\ (query_mode (stat c) <> KeepAliveQuery -> ex = BodyPacket)
  /\ query_mode (stat c') = NoQuery
  /\ contacts (trace w') = contacts (trace w).
Proof.
  intros H (Hg & Hp & Hc) Hi He. pose proof H as H0.
  apply loop_body_frame in H0. destruct H0 as (_ & _ & Hcon & _).
  unfold loop_body, head_view in *.
  destruct (packet_len F (stat c) <? 0) eqn:E1; [lia|].
  destruct ((packet_len F (stat c) =? 0)
            || ((packet_len F (stat c) >? 0)
                && (int_add (packet_len F (stat c)) SLHEADSIZE
                    >? int_sub (recptr (stat c)) (sendptr (stat c))))) eqn:E2; [lia|].
  unfold classify in H. rewrite Hi in H.
  destruct (info_packet N _ w _) as [[r c2] w2] eqn:I.
  apply info_packet_expected in I; [|exact He]. simpl in I. destruct I as [Ir Iq].
  destruct (query_mode (stat c)) eqn:Q; simpl in Ir; subst r; inv_pairs;
    unfold advance_sendptr; simpl; repeat split; auto; congruence.
Qed.

End Delivery.

(** ** Termination *)

Section Session.

Variable F : MSeedFormat.
Variable G : GenUtils.
Variable N : Network.

Lemma check_slcd_cases c w :
  (link c = -1 /\ sl_checkslcd N c <> 0
   /\ check_slcd N c w = (true, c, sl_log_r N 2 0 "problems with the connection description\n" w))
  \/ (exists c1, check_slcd N c w = (false, c1, w)
        /\ (link c <> -1 \/ sl_checkslcd N c = 0)
        /\ loop_frame c c1 /\ sendptr (stat c1) = sendptr (stat c)).
Proof.
  unfold check_slcd.
  destruct (link c =? -1) eqn:E.
  - destruct (sl_checkslcd N c =? 0) eqn:E2; simpl.
    + right. eexists. split; [reflexivity|]. unfold loop_frame. frame. right; lia.
    + left. repeat split; lia.
  - right. eexists. split; [reflexivity|]. unfold loop_frame. frame. left; lia.
Qed.

Lemma terminating_closed final c w c' w' :
  terminating N final c w = (c', w') ->
  link c' = -1 /\ terminate c' = terminate c /\ sl_state (stat c') = final.
Proof.
  unfold terminating, disconnect_link, sl_disconnect. intros H.
  destruct (link c =? -1) eqn:E; simpl in H; inv_pairs; simpl; repeat split; auto. lia.
Qed.

Lemma terminated_nb c m w :
  terminated F N c ->
  exists c' w',
    sl_collect_nb_size F G N c m w = ((SLTERMINATE, None), c', w')
    /\ terminated F N c' /\ ext w' = ext w /\ contacts (trace w') = contacts (trace w).
Proof.
  intros [Hl Hd]. unfold sl_collect_nb_size.
  destruct (info_was_set_frame c) as ((I1 & I2 & I3 & I4 & I5 & I6 & I7) & I8 & _).
  destruct (check_slcd_cases (info_was_set c) w) as [(A & B & E)|(c1 & E & A & Fr & Sp)];
    rewrite E.
  - do 2 eexists. split; [reflexivity|]. split; [|frame].
    split; [exact A|]. right. rewrite info_was_set_idem. exact B.
  - destruct A as [A|A]; [congruence|].
    destruct Hd as [[Ht Hs]|Hd]; [|congruence].
    destruct Fr as (F1 & F2 & F3 & F4 & F5 & F6 & F7).
    assert (Ht1 : terminate c1 <> 0) by congruence.
    assert (Hl1 : link c1 = -1) by congruence.
    assert (Hs1 : loop_stops F (stat c1) = true).
    { rewrite <- Hs. apply loop_stops_ext; congruence. }
    destruct (terminate c1 =? 0) eqn:Et; [lia|].
    destruct (terminated_step F G N SL_DATA c1 w Hl1 Ht1 Hs1)
      as (ex & c' & w' & P & Pex & Pl & Pt & Ps & Pe & Pc).
    destruct (terminating N SL_DATA c1 w) as [c2 w2]. simpl in P. rewrite P.
    assert (Ht' : (terminate c' =? 0) = false) by lia.
    exists c', w'.
    destruct ex; [congruence| |rewrite Ht'; simpl];
      (split; [reflexivity|]; split; [|auto]; split; [exact Pl|]; left; split; congruence).
Qed.

Lemma terminated_blocking c n w :
  terminated F N c ->
  exists c' w',
    sl_collect F G N (S n) c w = Some ((SLTERMINATE, None), c', w')
    /\ terminated F N c' /\ ext w' = ext w /\ contacts (trace w') = contacts (trace w).
Proof.
  intros [Hl Hd]. unfold sl_collect.
  destruct (info_was_set_frame c) as ((I1 & I2 & I3 & I4 & I5 & I6 & I7) & I8 & _).
  destruct (check_slcd_cases (info_was_set c) w) as [(A & B & E)|(c1 & E & A & Fr & Sp)];
    rewrite E.
  - do 2 eexists. split; [reflexivity|]. split; [|frame].
    split; [exact A|]. right. rewrite info_was_set_idem. exact B.
  - destruct A as [A|A]; [congruence|].
    destruct Hd as [[Ht Hs]|Hd]; [|congruence].
    destruct Fr as (F1 & F2 & F3 & F4 & F5 & F6 & F7).
    assert (Ht1 : terminate c1 <> 0) by congruence.
    assert (Hl1 : link c1 = -1) by congruence.
    assert (Hs1 : loop_stops F (stat c1) = true).
    { rewrite <- Hs. apply loop_stops_ext; congruence. }
    simpl.
    destruct (terminate c1 =? 0) eqn:Et; [lia|].
    destruct (terminated_step F G N SL_DOWN c1 w Hl1 Ht1 Hs1)
      as (ex & c' & w' & P & Pex & Pl & Pt & Ps & Pe & Pc).
    destruct (terminating N SL_DOWN c1 w) as [c2 w2]. simpl in P. rewrite P.
    assert (Ht' : (terminate c' =? 0) = false) by lia.
    exists c', w'.
    destruct ex; [congruence| |rewrite Ht'; simpl];
      (split; [reflexivity|]; split; [|auto]; split; [exact Pl|]; left; split; congruence).
Qed.

(** A call made with the terminate flag set that returns SLTERMINATE leaves
    the descriptor terminated. *)
Lemma flag_terminates_nb c m w r c' w' :
  terminate c <> 0 ->
  sl_collect_nb_size F G N c m w = (r, c', w') -> fst r = SLTERMINATE ->
  terminated F N c'.
Proof.
  intros Ht. unfold sl_collect_nb_size.
  destruct (info_was_set_frame c) as ((I1 & I2 & I3 & I4 & I5 & I6 & I7) & I8 & _).
  destruct (check_slcd_cases (info_was_set c) w) as [(A & B & E)|(c1 & E & A & Fr & Sp)];
    rewrite E.
  - intros H _. inv_pairs. split; [exact A|]. right. rewrite info_was_set_idem. exact B.
  - destruct Fr as (F1 & F2 & F3 & F4 & F5 & F6 & F7).
    assert (Ht1 : (terminate c1 =? 0) = false) by (rewrite F2, I2; lia).
    rewrite Ht1.
    destruct (terminating N SL_DATA c1 w) as [c2 w2] eqn:T.
    apply terminating_closed in T. destruct T as (T1 & T2 & _).
    destruct (process_buffer F G N c2 w2) as [[ex c3] w3] eqn:P.
    pose proof (process_buffer_frame F G N _ _ _ _ _ P) as ((P1 & P2 & _) & _).
    assert (Ht3 : (terminate c3 =? 0) = false) by (rewrite P2, T2; lia).
    destruct ex.
    + intros H X. inv_pairs. simpl in X. discriminate.
    + intros H _. inv_pairs. split; [congruence|]. left. split; [lia|].
      eapply process_buffer_stops; eauto. discriminate.
    + rewrite Ht3. simpl. intros H _. inv_pairs. split; [congruence|]. left. split; [lia|].
      eapply process_buffer_stops; eauto. discriminate.
Qed.

Lemma flag_terminates_blocking c fuel w r c' w' :
  terminate c <> 0 ->
  sl_collect F G N fuel c w = Some (r, c', w') -> fst r = SLTERMINATE ->
  terminated F N c'.
Proof.
  intros Ht. unfold sl_collect.
  destruct (info_was_set_frame c) as ((I1 & I2 & I3 & I4 & I5 & I6 & I7) & I8 & _).
  destruct (check_slcd_cases (info_was_set c) w) as [(A & B & E)|(c1 & E & A & Fr & Sp)];
    rewrite E.
  - intros H _. inversion H; subst. split; [exact A|]. right. rewrite info_was_set_idem. exact B.
  - destruct Fr as (F1 & F2 & F3 & F4 & F5 & F6 & F7).
    assert (Ht1 : (terminate c1 =? 0) = false) by (rewrite F2, I2; lia).
    destruct fuel as [|fuel]; [discriminate|]. simpl.
    rewrite Ht1.
    destruct (terminating N SL_DOWN c1 w) as [c2 w2] eqn:T.
    apply terminating_closed in T. destruct T as (T1 & T2 & _).
    destruct (process_buffer F G N c2 w2) as [[ex c3] w3] eqn:P.
    pose proof (process_buffer_frame F G N _ _ _ _ _ P) as ((P1 & P2 & _) & _).
    assert (Ht3 : (terminate c3 =? 0) = false) by (rewrite P2, T2; lia).
    destruct ex.
    + intros H X. inversion H; subst. simpl in X. discriminate.
    + intros H _. inversion H; subst. split; [congruence|]. left. split; [lia|].
      eapply process_buffer_stops; eauto. discriminate.
    + rewrite Ht3. simpl. intros H _. inversion H; subst. split; [congruence|]. left.
      split; [lia|]. eapply process_buffer_stops; eauto. discriminate.
Qed.

Lemma terminated_calls ks : forall c w,
  terminated F N c -> Forall has_fuel ks ->
  exists c' w',
    do_calls F G N ks c w = Some (map (fun _ => (SLTERMINATE, None)) ks, c', w')
    /\ terminated F N c' /\ ext w' = ext w /\ contacts (trace w') = contacts (trace w).
Proof.
  induction ks as [|k ks IH]; intros c w Ht Hf.
  - simpl. eauto 10.
  - inversion Hf as [|? ? Hk Hks]; subst. simpl.
    assert (exists c1 w1, do_call F G N k c w = Some ((SLTERMINATE, None), c1, w1)
              /\ terminated F N c1 /\ ext w1 = ext w
              /\ contacts (trace w1) = contacts (trace w)) as (c1 & w1 & E & T1 & X1 & X2).
    { destruct k as [fuel|m]; simpl in *.
      - destruct fuel as [|n]; [lia|]. apply terminated_blocking; auto.
      - destruct (terminated_nb c m w Ht) as (c1 & w1 & E & R). rewrite E. eauto. }
    rewrite E. destruct (IH c1 w1 T1 Hks) as (c2 & w2 & E2 & T2 & Y1 & Y2).
    rewrite E2. exists c2, w2. repeat split; try apply T2; congruence.
Qed.

End Session.

(** ** In state Down the socket is closed *)

Section DownClosed.

Variable F : MSeedFormat.
Variable G : GenUtils.
Variable N : Network.
Hypothesis Hconn : closes_on_failure N.

Lemma state_eqb_eq a b : sl_state_eqb a b = true <-> a = b.
Proof. destruct a, b; simpl; split; intros; congruence. Qed.

Lemma dc_info_was_set c : down_closed c -> down_closed (info_was_set c).
Proof. unfold info_was_set. crush_block. Qed.

Lemma dc_check_slcd c w b c' w' :
  down_closed c -> check_slcd N c w = (b, c', w') -> down_closed c'.
Proof. unfold check_slcd. crush_block. Qed.

Lemma dc_netto_check c w c' w' :
  down_closed c -> netto_check N c w = (c', w') -> down_closed c'.
Proof. unfold netto_check, disconnect_link, sl_disconnect. crush_block. Qed.

Lemma dc_keepalive_check c w c' w' :
  down_closed c -> keepalive_check N c w = (c', w') -> down_closed c'.
Proof. unfold keepalive_check. crush_block. Qed.

Lemma dc_info_check c w c' w' :
  down_closed c -> info_check N c w = (c', w') -> down_closed c'.
Proof. unfold info_check. crush_block. Qed.

Lemma dc_throttle c w c' w' :
  down_closed c -> throttle N c w = (c', w') -> down_closed c'.
Proof. unfold throttle. crush_block. Qed.

Lemma dc_connect_step c w c' w' :
  down_closed c -> connect_step N c w = (c', w') -> down_closed c'.
Proof.
  unfold connect_step, sl_connect. intros H E.
  repeat break_match; inv_pairs; unfold down_closed in *; simpl in *; auto; try discriminate.
  intros _. assert (z = -1) by lia. subst. eapply Hconn; eauto.
Qed.

Lemma dc_negotiate c w c' w' :
  down_closed c -> negotiate N c w = (c', w') -> down_closed c'.
Proof.
  unfold negotiate, disconnect_link, sl_disconnect. intros H E.
  destruct (in_state c SL_UP) eqn:S; [|inv_pairs; auto].
  unfold in_state in S. apply state_eqb_eq in S.
  repeat break_match; inv_pairs; unfold down_closed in *; simpl in *; auto; try discriminate.
Qed.

Lemma dc_main_sequence c w c' w' :
  down_closed c -> main_sequence N c w = (c', w') -> down_closed c'.
Proof.
  unfold main_sequence. intros H E.
  assert (H0 : down_closed (link_down c)).
  { unfold link_down, down_closed in *. destruct (link c =? -1) eqn:X; simpl; auto. lia. }
  destruct (netto_check N (link_down c) w) as [c1 w1] eqn:E1.
  destruct (keepalive_check N c1 w1) as [c2 w2] eqn:E2.
  destruct (info_check N c2 w2) as [c3 w3] eqn:E3.
  destruct (throttle N c3 w3) as [c4 w4] eqn:E4.
  destruct (connect_step N c4 w4) as [c5 w5] eqn:E5.
  eapply dc_negotiate; [|eauto].
  eapply dc_connect_step; [|eauto].
  eapply dc_throttle; [|eauto].
  eapply dc_info_check; [|eauto].
  eapply dc_keepalive_check; [|eauto].
  eapply dc_netto_check; eauto.
Qed.

Lemma dc_terminating final c w c' w' :
  terminating N final c w = (c', w') -> down_closed c'.
Proof. intros H. apply (terminating_closed N) in H. unfold down_closed. tauto. Qed.

Lemma dc_frame c c' : loop_frame c c' -> down_closed c -> down_closed c'.
Proof.
  unfold loop_frame, down_closed. intros (A & _ & _ & _ & _ & S & _) H X.
  rewrite A. apply H. congruence.
Qed.

Lemma dc_shift_buffer c : down_closed c -> down_closed (shift_buffer c).
Proof. unfold shift_buffer. crush_block. Qed.

Lemma dc_stream_stopped c w b c' w' :
  down_closed c -> stream_stopped N c w = (b, c', w') -> down_closed c'.
Proof. unfold stream_stopped, disconnect_link, sl_disconnect. crush_block. Qed.

Lemma dc_read_nb c w c' w' :
  down_closed c -> read_nb N c w = (c', w') -> down_closed c'.
Proof.
  unfold read_nb, recv_into, data_is_here, disconnect_link, sl_disconnect, sl_recvdata.
  crush_block.
Qed.

Lemma dc_read_blocking c w c' w' :
  down_closed c -> read_blocking N c w = (c', w') -> down_closed c'.
Proof.
  unfold read_blocking, recv_into, data_is_here, disconnect_link, sl_disconnect, sl_recvdata,
    select_link.
  crush_block.
Qed.

Lemma dc_update_timing c w c' w' :
  down_closed c -> update_timing N c w = (c', w') -> down_closed c'.
Proof.
  unfold update_timing, netdly_timer, keepalive_timer, netto_timer, sl_dtime.
  crush_block.
Qed.

End DownClosed.

(** ** In state Down the socket is closed: whole calls *)

Section DownClosedCalls.

Variable F : MSeedFormat.
Variable G : GenUtils.
Variable N : Network.
Hypothesis Hconn : closes_on_failure N.

Lemma dc_nb c m w r c' w' :
  down_closed c -> sl_collect_nb_size F G N c m w = (r, c', w') -> down_closed c'.
Proof.
  intros H. unfold sl_collect_nb_size.
  destruct (check_slcd N (info_was_set c) w) as [[stop c1] w1] eqn:E1.
  assert (H1 : down_closed c1).
  { eapply dc_check_slcd; [|eauto]. apply dc_info_was_set; auto. }
  destruct stop; [intros X; inv_pairs; auto|].
  destruct (if terminate c1 =? 0 then main_sequence N c1 w1 else terminating N SL_DATA c1 w1)
    as [c2 w2] eqn:E2.
  assert (H2 : down_closed c2).
  { destruct (terminate c1 =? 0); [eapply dc_main_sequence|eapply dc_terminating]; eauto. }
  destruct (process_buffer F G N c2 w2) as [[ex c3] w3] eqn:E3.
  assert (H3 : down_closed c3).
  { apply (process_buffer_frame F G N) in E3. eapply dc_frame; [apply E3|auto]. }
  destruct ex; try (intros X; inv_pairs; auto; fail).
  destruct (negb (terminate c3 =? 0)); [intros X; inv_pairs; auto|].
  destruct (stream_stopped N (shift_buffer c3) w3) as [[stop' c5] w5] eqn:E5.
  assert (H5 : down_closed c5).
  { eapply dc_stream_stopped; [|eauto]. apply dc_shift_buffer; auto. }
  destruct stop'; [intros X; inv_pairs; auto|].
  destruct (read_nb N c5 w5) as [c6 w6] eqn:E6.
  destruct (update_timing N c6 w6) as [c7 w7] eqn:E7.
  intros X; inv_pairs.
  eapply dc_update_timing; [|eauto]. eapply dc_read_nb; eauto.
Qed.

Lemma dc_primary_loop fuel : forall c w r c' w',
  down_closed c -> primary_loop F G N fuel c w = Some (r, c', w') -> down_closed c'.
Proof.
  induction fuel as [|fuel IH]; intros c w r c' w' H; [discriminate|]. simpl.
  destruct (if terminate c =? 0 then main_sequence N c w else terminating N SL_DOWN c w)
    as [c2 w2] eqn:E2.
  assert (H2 : down_closed c2).
  { destruct (terminate c =? 0); [eapply dc_main_sequence|eapply dc_terminating]; eauto. }
  destruct (process_buffer F G N c2 w2) as [[ex c3] w3] eqn:E3.
  assert (H3 : down_closed c3).
  { apply (process_buffer_frame F G N) in E3. eapply dc_frame; [apply E3|auto]. }
  destruct ex; try (intros X; inversion X; subst; auto; fail).
  destruct (negb (terminate c3 =? 0)); [intros X; inversion X; subst; auto|].
  destruct (stream_stopped N (shift_buffer c3) w3) as [[stop' c5] w5] eqn:E5.
  assert (H5 : down_closed c5).
  { eapply dc_stream_stopped; [|eauto]. apply dc_shift_buffer; auto. }
  destruct stop'; [intros X; inversion X; subst; auto|].
  destruct (read_blocking N c5 w5) as [c6 w6] eqn:E6.
  destruct (update_timing N c6 w6) as [c7 w7] eqn:E7.
  apply IH. eapply dc_update_timing; [|eauto]. eapply dc_read_blocking; eauto.
Qed.

Lemma dc_blocking fuel c w r c' w' :
  down_closed c -> sl_collect F G N fuel c w = Some (r, c', w') -> down_closed c'.
Proof.
  intros H. unfold sl_collect.
  destruct (check_slcd N (info_was_set c) w) as [[stop c1] w1] eqn:E1.
  assert (H1 : down_closed c1).
  { eapply dc_check_slcd; [|eauto]. apply dc_info_was_set; auto. }
  destruct stop; [intros X; inversion X; subst; auto|].
  apply dc_primary_loop; auto.
Qed.

End DownClosedCalls.

(** ** The keepalive request *)

Section Keepalive.

Variable F : MSeedFormat.
Variable G : GenUtils.
Variable N : Network.

Lemma keepalive_tick c w :
  link c <> -1 -> in_state c SL_DATA = true ->
  (netto c = 0 \/ netto_trig (stat c) <= 0) ->
  keepalive c > 0 -> expect_info (stat c) = 0 -> keepalive_trig (stat c) > 0 ->
  fst (w_send_info N c "ID" 3 (ext w)) <> -1 ->
  exists c' w',
    main_sequence N c w = (c', w')
    /\ trace w' = trace w ++ [Log 1 2 "sending keepalive request\n"; SendInfo "ID"]
    /\ query_mode (stat c') = KeepAliveQuery
    /\ expect_info (stat c') = 1
    /\ keepalive_trig (stat c') = -1
    /\ sl_state (stat c') = SL_DATA.
Proof.
  intros Hl Hs Hn Hk He Ht Hr.
  destruct (keepalive_request N c w Hs Hk He Ht Hr) as (c1 & w1 & E & T & Q & X & K).
  assert (Hst : sl_state (stat c) = SL_DATA) by (apply state_eqb_eq; exact Hs).
  assert (S1 : sl_state (stat c1) = SL_DATA /\ info c1 = info c).
  { revert E. unfold keepalive_check. repeat break_match; intros; inv_pairs; simpl; auto. }
  destruct S1 as [S1 I1].
  assert (L0 : link_down c = c).
  { unfold link_down. replace (link c =? -1) with false by lia. reflexivity. }
  assert (N0 : netto_check N c w = (c, w)).
  { unfold netto_check. rewrite Hs.
    destruct (netto c =? 0) eqn:A; destruct (netto_trig (stat c) >? 0) eqn:B;
      simpl; try reflexivity; lia. }
  assert (S1b : forall st, st <> SL_DATA -> in_state c1 st = false).
  { intros st. unfold in_state. rewrite S1. destruct st; simpl; congruence. }
  assert (I0 : info_check N c1 w1 = (c1, w1)).
  { unfold info_check, in_state. rewrite S1. simpl.
    replace (expect_info (stat c1) =? 0) with false by lia. destruct (info c1); reflexivity. }
  assert (T0 : throttle N c1 w1 = (c1, w1)).
  { unfold throttle. rewrite S1b by discriminate. reflexivity. }
  assert (C0 : connect_step N c1 w1 = (c1, w1)).
  { unfold connect_step. rewrite S1b by discriminate. reflexivity. }
  assert (G0 : negotiate N c1 w1 = (c1, w1)).
  { unfold negotiate. rewrite S1b by discriminate. reflexivity. }
  unfold main_sequence. rewrite L0, N0, E, I0, T0, C0, G0.
  exists c1, w1. repeat split; auto.
Qed.

End Keepalive.

(** ** The cursors of the buffer *)

Section Cursors.

Variable F : MSeedFormat.
Variable G : GenUtils.
Variable N : Network.
Hypothesis Hrecv : recv_bounded N.

Lemma co_info_was_set c : cursors_ok (stat c) -> cursors_ok (stat (info_was_set c)).
Proof. unfold info_was_set. crush_cursors. Qed.

Lemma co_check_slcd c w b c' w' :
  cursors_ok (stat c) -> check_slcd N c w = (b, c', w') -> cursors_ok (stat c').
Proof. unfold check_slcd. crush_cursors. Qed.

Lemma co_main_sequence c w c' w' :
  cursors_ok (stat c) -> main_sequence N c w = (c', w') -> cursors_ok (stat c').
Proof.
  unfold main_sequence. intros H E.
  assert (H0 : cursors_ok (stat (link_down c))) by (unfold link_down; crush_cursors).
  destruct (netto_check N (link_down c) w) as [c1 w1] eqn:E1.
  assert (H1 : cursors_ok (stat c1)).
  { revert E1. unfold netto_check, disconnect_link, sl_disconnect. crush_cursors. }
  destruct (keepalive_check N c1 w1) as [c2 w2] eqn:E2.
  assert (H2 : cursors_ok (stat c2)).
  { revert E2. unfold keepalive_check. crush_cursors. }
  destruct (info_check N c2 w2) as [c3 w3] eqn:E3.
  assert (H3 : cursors_ok (stat c3)).
  { revert E3. unfold info_check. crush_cursors. }
  destruct (throttle N c3 w3) as [c4 w4] eqn:E4.
  assert (H4 : cursors_ok (stat c4)).
  { revert E4. unfold throttle. crush_cursors. }
  destruct (connect_step N c4 w4) as [c5 w5] eqn:E5.
  assert (H5 : cursors_ok (stat c5)).
  { revert E5. unfold connect_step, sl_connect. crush_cursors. }
  revert E. unfold negotiate, disconnect_link, sl_disconnect. crush_cursors.
Qed.

Lemma co_terminating final c w c' w' :
  cursors_ok (stat c) -> terminating N final c w = (c', w') -> cursors_ok (stat c').
Proof. unfold terminating, disconnect_link, sl_disconnect. crush_cursors. Qed.

Lemma co_loop_body c w ex c' w' :
  frame_fits F (stat c) = true ->
  cursors_ok (stat c) -> loop_body F G N c w = (ex, c', w') -> cursors_ok (stat c').
Proof.
  intros Hl H E. apply loop_body_frame in E.
  destruct E as ((_ & _ & _ & _ & Hr & _) & _ & _ & _ & Ht & Hb & Hn).
  unfold frame_fits in Hl. apply Z.leb_le in Hl.
  unfold cursors_ok, BUFSIZE, INT_MAX, SLHEADSIZE in *. rewrite Hr.
  destruct ex.
  - destruct Hn as (P & Q & R); [now left|]. rewrite R.
    unfold int_add, int_sub in *.
    rewrite (wrap32s_id (packet_len F (stat c) + 8)) in Q by lia.
    rewrite (wrap32s_id (recptr (stat c) - sendptr (stat c))) in Q by lia.
    rewrite (wrap32s_id (8 + packet_len F (stat c))) by lia.
    rewrite wrap32s_id by lia. lia.
  - destruct Ht as [S _]; auto. rewrite S. lia.
  - destruct Hb as [S _]; auto. rewrite S. lia.
  - destruct Hn as (P & Q & R); [now right|]. rewrite R.
    unfold int_add, int_sub in *.
    rewrite (wrap32s_id (packet_len F (stat c) + 8)) in Q by lia.
    rewrite (wrap32s_id (recptr (stat c) - sendptr (stat c))) in Q by lia.
    rewrite (wrap32s_id (8 + packet_len F (stat c))) by lia.
    rewrite wrap32s_id by lia. lia.
Qed.

Lemma co_process_loop fuel : forall c w ex c' w',
  loop_fits F G N fuel c w = true ->
  cursors_ok (stat c) -> process_loop F G N fuel c w = Some (ex, c', w') ->
  cursors_ok (stat c').
Proof.
  induction fuel as [|fuel IH]; intros c w ex c' w' Hf H E; [discriminate|].
  simpl in E, Hf. destruct (loop_guard (stat c)); [|inversion E; subst; auto].
  apply andb_true_iff in Hf. destruct Hf as [Hf1 Hf2].
  destruct (loop_body F G N c w) as [[e c1] w1] eqn:B.
  pose proof (co_loop_body _ _ _ _ _ Hf1 H B).
  destruct e; try (inversion E; subst; auto; fail).
  eapply IH; eauto.
Qed.

Lemma co_process_buffer c w ex c' w' :
  buffer_fits F G N c w = true ->
  cursors_ok (stat c) -> process_buffer F G N c w = (ex, c', w') -> cursors_ok (stat c').
Proof.
  intros Hf H E. pose proof (process_buffer_eq F G N c w) as X. rewrite E in X.
  eapply co_process_loop; eauto.
Qed.

Lemma co_shift_buffer c : cursors_ok (stat c) -> cursors_ok (stat (shift_buffer c)).
Proof. unfold shift_buffer. crush_cursors. Qed.

Lemma co_stream_stopped c w b c' w' :
  cursors_ok (stat c) -> stream_stopped N c w = (b, c', w') -> cursors_ok (stat c').
Proof. unfold stream_stopped, disconnect_link, sl_disconnect. crush_cursors. Qed.

Lemma co_recv_into c w r c' w' :
  cursors_ok (stat c) -> recv_into N c w = (r, c', w') ->
  recptr (stat c') = recptr (stat c) /\ sendptr (stat c') = sendptr (stat c)
  /\ r <= BUFSIZE - recptr (stat c) /\ link c' = link c /\ terminate c' = terminate c.
Proof.
  unfold recv_into, sl_recvdata. intros H E.
  destruct (w_recvdata N c _ (ext w)) as [[r0 data] e] eqn:R.
  apply Hrecv in R. inv_pairs. fields. repeat split; auto.
  unfold cursors_ok, BUFSIZE, int_sub in *. rewrite wrap32s_id in R by lia. lia.
Qed.

Lemma co_read_nb c w c' w' :
  cursors_ok (stat c) -> read_nb N c w = (c', w') -> cursors_ok (stat c').
Proof.
  unfold read_nb. intros H E.
  destruct (in_state c SL_DATA); [|inv_pairs; auto].
  destruct (recv_into N c w) as [[r c1] w1] eqn:R.
  apply co_recv_into in R; auto. destruct R as (R1 & R2 & R3 & _).
  revert E. unfold disconnect_link, sl_disconnect, data_is_here.
  crush_cursors.
Qed.

Lemma co_read_blocking c w c' w' :
  cursors_ok (stat c) -> read_blocking N c w = (c', w') -> cursors_ok (stat c').
Proof.
  unfold read_blocking. intros H E.
  destruct (in_state c SL_DATA); [|inv_pairs; auto].
  destruct (select_link N c w) as [[sr isset] w1].
  destruct (recv_into N c w1) as [[r c1] w2] eqn:R.
  apply co_recv_into in R; auto. destruct R as (R1 & R2 & R3 & _).
  revert E. unfold disconnect_link, sl_disconnect, data_is_here.
  crush_cursors.
Qed.

Lemma co_update_timing c w c' w' :
  cursors_ok (stat c) -> update_timing N c w = (c', w') -> cursors_ok (stat c').
Proof.
  unfold update_timing, netdly_timer, keepalive_timer, netto_timer, sl_dtime.
  crush_cursors.
Qed.

Lemma co_nb c m w r c' w' :
  nb_fits F G N c w = true ->
  cursors_ok (stat c) -> sl_collect_nb_size F G N c m w = (r, c', w') ->
  cursors_ok (stat c').
Proof.
  intros Hf H. unfold sl_collect_nb_size. unfold nb_fits in Hf.
  destruct (check_slcd N (info_was_set c) w) as [[stop c1] w1] eqn:E1.
  assert (H1 : cursors_ok (stat c1)).
  { eapply co_check_slcd; [|eauto]. apply co_info_was_set; auto. }
  destruct stop; [intros X; inv_pairs; auto|].
  destruct (if terminate c1 =? 0 then main_sequence N c1 w1 else terminating N SL_DATA c1 w1)
    as [c2 w2] eqn:E2.
  assert (H2 : cursors_ok (stat c2)).
  { destruct (terminate c1 =? 0); [eapply co_main_sequence|eapply co_terminating]; eauto. }
  destruct (process_buffer F G N c2 w2) as [[ex c3] w3] eqn:E3.
  assert (H3 : cursors_ok (stat c3)) by (eapply co_process_buffer; eauto).
  destruct ex; try (intros X; inv_pairs; auto; fail).
  destruct (negb (terminate c3 =? 0)); [intros X; inv_pairs; auto|].
  destruct (stream_stopped N (shift_buffer c3) w3) as [[stop' c5] w5] eqn:E5.
  assert (H5 : cursors_ok (stat c5)).
  { eapply co_stream_stopped; [|eauto]. apply co_shift_buffer; auto. }
  destruct stop'; [intros X; inv_pairs; auto|].
  destruct (read_nb N c5 w5) as [c6 w6] eqn:E6.
  destruct (update_timing N c6 w6) as [c7 w7] eqn:E7.
  intros X; inv_pairs.
  eapply co_update_timing; [|eauto]. eapply co_read_nb; eauto.
Qed.

Lemma co_primary_loop fuel : forall c w r c' w',
  passes_fit F G N fuel c w = true ->
  cursors_ok (stat c) -> primary_loop F G N fuel c w = Some (r, c', w') ->
  cursors_ok (stat c').
Proof.
  induction fuel as [|fuel IH]; intros c w r c' w' Hf H; [discriminate|].
  simpl. simpl in Hf.
  destruct (if terminate c =? 0 then main_sequence N c w else terminating N SL_DOWN c w)
    as [c2 w2] eqn:E2.
  apply andb_true_iff in Hf. destruct Hf as [Hf1 Hf2].
  assert (H2 : cursors_ok (stat c2)).
  { destruct (terminate c =? 0); [eapply co_main_sequence|eapply co_terminating]; eauto. }
  destruct (process_buffer F G N c2 w2) as [[ex c3] w3] eqn:E3.
  assert (H3 : cursors_ok (stat c3)) by (eapply co_process_buffer; eauto).
  destruct ex; try (intros X; inversion X; subst; auto; fail).
  destruct (negb (terminate c3 =? 0)); [intros X; inversion X; subst; auto|].
  destruct (stream_stopped N (shift_buffer c3) w3) as [[stop' c5] w5] eqn:E5.
  assert (H5 : cursors_ok (stat c5)).
  { eapply co_stream_stopped; [|eauto]. apply co_shift_buffer; auto. }
  destruct stop'; [intros X; inversion X; subst; auto|].
  destruct (read_blocking N c5 w5) as [c6 w6] eqn:E6.
  destruct (update_timing N c6 w6) as [c7 w7] eqn:E7.
  apply IH; [exact Hf2|]. eapply co_update_timing; [|eauto]. eapply co_read_blocking; eauto.
Qed.

(** A collect call keeps the cursors in order and within the buffer when no
    record it looks at has a length above INT_MAX - SLHEADSIZE. *)
Lemma cursors_preserved k c w r c' w' :
  call_fits F G N k c w = true ->
  cursors_ok (stat c) -> do_call F G N k c w = Some (r, c', w') -> cursors_ok (stat c').
Proof.
  intros Hf H. destruct k as [fuel|m]; simpl; simpl in Hf.
  - unfold sl_collect.
    destruct (check_slcd N (info_was_set c) w) as [[stop c1] w1] eqn:E1.
    assert (H1 : cursors_ok (stat c1)).
    { eapply co_check_slcd; [|eauto]. apply co_info_was_set; auto. }
    destruct stop; [intros X; inversion X; subst; auto|].
    apply co_primary_loop; auto.
  - intros X. inversion X. eapply co_nb; eauto.
Qed.

End Cursors.

(** ** The loops of the framer end *)

Section FramerLoops.

Variable F : MSeedFormat.

Lemma rd16_range be p off : 0 <= rd16 be p off < 65536.
Proof.
  unfold rd16.
  pose proof (Z.mod_pos_bound (p off) 256).
  pose proof (Z.mod_pos_bound (p (off + 1)) 256).
  destruct be; lia.
Qed.

Lemma sl_gswap2_range v : 0 <= sl_gswap2 v < 65536.
Proof.
  unfold sl_gswap2.
  pose proof (Z.mod_pos_bound v 256).
  pose proof (Z.mod_pos_bound (v / 256) 256).
  lia.
Qed.

Lemma HO2u_range be p off swapflag : 0 <= HO2u (rd16 be p off) swapflag < 65536.
Proof.
  unfold HO2u. destruct swapflag; [apply sl_gswap2_range|apply rd16_range].
Qed.

(** The walk over the blockettes ends before its fuel does. *)
Lemma blkt_loop_total fuel : forall record recbuflen swapflag off,
  0 <= off < 65536 -> 65538 - off <= Z.of_nat fuel ->
  blkt_loop F fuel record recbuflen swapflag off <> None.
Proof.
  induction fuel as [|fuel IH]; intros record recbuflen swapflag off Ho Hf; [lia|].
  simpl.
  destruct (negb (off =? 0) && (off >? 47) && (off <=? recbuflen)) eqn:C; [|discriminate].
  destruct ((HO2u (rd16 (big_endian_host F) record off) swapflag =? 1000)
            && (off + 8 <=? recbuflen)); [discriminate|].
  pose proof (HO2u_range (big_endian_host F) record (off + 2) swapflag) as R.
  set (next := HO2u (rd16 (big_endian_host F) record (off + 2)) swapflag) in *.
  destruct (negb (next =? 0) && ((next <? 4) || (next - 4 <=? off))) eqn:S; [discriminate|].
  destruct (Z.eq_dec next 0) as [E|E].
  - rewrite E. destruct fuel; [lia|]. simpl. discriminate.
  - apply IH; lia.
Qed.

(** The scan for the next header ends before its fuel does. *)
Lemma scan_loop_total n : forall record recbuflen k,
  recbuflen - k <= 64 * Z.of_nat n ->
  scan_loop F (S n) record recbuflen k <> None.
Proof.
  induction n as [|n IH]; intros record recbuflen k H.
  - simpl. destruct (k + 48 <? recbuflen) eqn:C; [lia|discriminate].
  - change (scan_loop F (S (S n)) record recbuflen k)
      with (if k + 48 <? recbuflen then
              if MS2_ISVALIDHEADER F (fun i => record (k + i)) then Some (Some k)
              else scan_loop F (S n) record recbuflen (k + 64)
            else Some None).
    destruct (k + 48 <? recbuflen); [|discriminate].
    destruct (MS2_ISVALIDHEADER F _); [discriminate|].
    apply IH. lia.
Qed.

(** The fuel that detect gives to its two loops is never used up. *)
Lemma detect_fuel_suffices record recbuflen swapflag :
  blkt_loop F blkt_fuel record recbuflen swapflag
    (HO2u (pMS2FSDH_BLOCKETTEOFFSET F record) swapflag) <> None
  /\ (0 <= recbuflen -> scan_loop F (scan_fuel recbuflen) record recbuflen 64 <> None).
Proof.
  split.
  - apply blkt_loop_total; [apply HO2u_range|].
    pose proof (HO2u_range (big_endian_host F) record 46 swapflag).
    unfold pMS2FSDH_BLOCKETTEOFFSET, blkt_fuel. rewrite Z2Nat.id; lia.
  - intros H. unfold scan_fuel. apply scan_loop_total.
    rewrite Z2Nat.id by (apply Z.div_pos; lia).
    pose proof (Z.div_mod recbuflen 64). pose proof (Z.mod_pos_bound recbuflen 64). lia.
Qed.

Lemma scan_loop_no_header fuel : forall record recbuflen k,
  (forall j, MS2_ISVALIDHEADER F (fun i => record (j + i)) = false) ->
  scan_loop F fuel record recbuflen k = None
  \/ scan_loop F fuel record recbuflen k = Some None.
Proof.
  induction fuel as [|fuel IH]; intros record recbuflen k H; simpl; auto.
  destruct (k + 48 <? recbuflen); auto. rewrite H. apply IH. exact H.
Qed.

(** A record that starts with a valid miniSEED 2 header, has no blockette and
    is followed by no header: detect returns -1, whatever the length of the
    buffer. *)
Lemma detect_ms2_without_length record recbuflen :
  SLRECSIZEMIN <= recbuflen ->
  MS3_ISVALIDHEADER F record = false ->
  MS2_ISVALIDHEADER F record = true ->
  pMS2FSDH_BLOCKETTEOFFSET F record = 0 ->
  (forall j, MS2_ISVALIDHEADER F (fun i => record (j + i)) = false) ->
  detect F record recbuflen = (-1, 2).
Proof.
  intros Hn H3 H2 Hb Hs. unfold detect.
  replace (recbuflen <? SLRECSIZEMIN) with false by lia.
  rewrite H3, H2, Hb.
  assert (E : forall sw, HO2u 0 sw = 0) by (intros [|]; reflexivity).
  rewrite E. unfold blkt_fuel. 
  change (Z.to_nat 65538) with (S (Z.to_nat 65537)). 
  cbn [blkt_loop]. simpl (negb (0 =? 0)). cbn [andb].
  unfold scan_next. simpl (-1 =? -1).
  destruct (scan_loop_no_header (scan_fuel recbuflen) record recbuflen 64 Hs) as [X|X];
    rewrite X; reflexivity.
Qed.

End FramerLoops.

(** ** Headers of six hexadecimal digits *)

Lemma hex_val_spec c :
  is_hex c = true ->
  exists d, hex_val c = Some d /\ 0 <= d < 16
    /\ isspace c = false /\ (c =? 0) = false /\ (c =? 45) = false /\ (c =? 43) = false
    /\ (c =? 120) = false /\ (c =? 88) = false /\ (c =? 73) = false.
Proof.
  unfold is_hex, hex_val, isspace.
  destruct ((48 <=? c) && (c <=? 57)) eqn:A.
  { intros _. exists (c - 48). repeat split; try lia. }
  destruct ((65 <=? c) && (c <=? 70)) eqn:B.
  { intros _. exists (c - 55). repeat split; try lia. }
  destruct ((97 <=? c) && (c <=? 102)) eqn:C.
  { intros _. exists (c - 87). repeat split; try lia. }
  discriminate.
Qed.

Lemma land_low_bits x : 0 <= x < 16777216 -> Z.land x (Z.lnot 16777215) = 0.
Proof.
  intros H. rewrite <- Z.ldiff_land.
  change 16777215 with (Z.ones 24).
  rewrite Z.ldiff_ones_r by lia.
  rewrite Z.shiftr_div_pow2 by lia.
  rewrite Z.div_small by (change (2 ^ 24) with 16777216; lia). reflexivity.
Qed.

(** A header that is "SL" followed by six hexadecimal digits, as the
    specification describes it: sl_sequence returns the value of the digits. *)
Lemma sl_sequence_six_hex_digits head :
  mem_equal head SIGNATURE = true ->
  six_hex_digits head = true ->
  sl_sequence head = hex6_value head /\ 0 <= hex6_value head <= 16777215.
Proof.
  intros Hs H6. unfold six_hex_digits in H6. cbn [forallb] in H6.
  repeat (apply andb_true_iff in H6; destruct H6 as [?H H6]).
  pose proof (hex_val_spec _ H) as (d0 & V0 & R0 & Sp0 & Nz0 & Mi0 & Pl0 & Lx0 & Ux0 & Ii0).
  pose proof (hex_val_spec _ H0) as (d1 & V1 & R1 & Sp1 & Nz1 & Mi1 & Pl1 & Lx1 & Ux1 & Ii1).
  pose proof (hex_val_spec _ H1) as (d2 & V2 & R2 & Sp2 & Nz2 & Mi2 & Pl2 & Lx2 & Ux2 & Ii2).
  pose proof (hex_val_spec _ H2) as (d3 & V3 & R3 & Sp3 & Nz3 & Mi3 & Pl3 & Lx3 & Ux3 & Ii3).
  pose proof (hex_val_spec _ H3) as (d4 & V4 & R4 & Sp4 & Nz4 & Mi4 & Pl4 & Lx4 & Ux4 & Ii4).
  pose proof (hex_val_spec _ H4) as (d5 & V5 & R5 & Sp5 & Nz5 & Mi5 & Pl5 & Lx5 & Ux5 & Ii5).
  assert (Hv : hex6_value head
               = ((((d0 * 16 + d1) * 16 + d2) * 16 + d3) * 16 + d4) * 16 + d5).
  { unfold hex6_value. cbn [fold_left]. rewrite V0, V1, V2, V3, V4, V5.
    clear. ring. }
  assert (Hr : 0 <= hex6_value head < 16777216).
  { rewrite Hv. clear - R0 R1 R2 R3 R4 R5. lia. }
  split; [|clear - Hr; lia].
  assert (Hi : mem_equal head INFOSIGNATURE = false).
  { change INFOSIGNATURE with [83; 76; 73; 78; 70; 79].
    unfold mem_equal, list_eqb, bytes_at. cbn.
    change (head 2) with (head (2 + 0)). rewrite Ii0.
    repeat rewrite ?andb_false_r, ?andb_false_l. reflexivity. }
  unfold sl_sequence. rewrite Hs, Hi. cbn [negb].
  unfold bytes_at. cbn [seq map Z.of_nat].
  change (Z.pos (Pos.of_succ_nat 0)) with 1.
  change (Z.pos (Pos.of_succ_nat 1)) with 2.
  change (Z.pos (Pos.of_succ_nat 2)) with 3.
  change (Z.pos (Pos.of_succ_nat 3)) with 4.
  change (Z.pos (Pos.of_succ_nat 4)) with 5.
  cbn [c_string]. rewrite Nz0, Nz1, Nz2, Nz3, Nz4, Nz5.
  unfold strtoul16. cbn [skip_spaces]. rewrite Sp0. rewrite Mi0, Pl0.
  rewrite Lx1, Ux1. cbn [orb andb].
  rewrite andb_false_r. cbn [andb].
  cbn [hex_digits]. rewrite V0, V1, V2, V3, V4, V5.
  replace (0 * 16 + d0) with d0 by (clear; lia).
  rewrite <- Hv.
  unfold wrap64u. rewrite Z.mod_small by (clear - Hr; lia).
  rewrite wrap32s_id by (clear - Hr; lia).
  rewrite land_low_bits by (clear - Hr; lia). reflexivity.
Qed.

(** ** The width of the time stamp *)

Lemma string_length_app (a b : string) :
  String.length (a ++ b) = (String.length a + String.length b)%nat.
Proof. induction a as [|x a IH]; simpl; [reflexivity|rewrite IH; reflexivity]. Qed.

Lemma string_firstn_all (n : nat) (s : string) :
  (String.length s <= n)%nat -> string_firstn n s = s.
Proof.
  revert n. induction s as [|x s IH]; intros [|n] H; simpl in *; try reflexivity; try lia.
  rewrite IH by lia. reflexivity.
Qed.

Lemma dec_digits_length fuel : forall n acc,
  0 <= n < 10 ^ Z.of_nat fuel -> (0 < fuel)%nat ->
  exists k, (0 < k <= fuel)%nat
    /\ String.length (dec_digits fuel n acc) = (k + String.length acc)%nat
    /\ 10 ^ (Z.of_nat k - 1) <= Z.max n 1 < 10 ^ Z.of_nat k.
Proof.
  induction fuel as [|fuel IH]; intros n acc Hn Hf; [lia|].
  simpl dec_digits. destruct (n <? 10) eqn:E.
  - exists 1%nat. simpl String.length. split; [lia|]. split; [reflexivity|].
    change (10 ^ (Z.of_nat 1 - 1)) with 1. change (10 ^ Z.of_nat 1) with 10. lia.
  - destruct fuel as [|fuel'].
    { change (10 ^ Z.of_nat 1) with 10 in Hn. lia. }
    assert (Hq : 0 <= n / 10 < 10 ^ Z.of_nat (S fuel')).
    { rewrite Nat2Z.inj_succ, Z.pow_succ_r in Hn by lia.
      split; [apply Z.div_pos; lia|]. apply Z.div_lt_upper_bound; lia. }
    destruct (IH (n / 10) (String (digit_char (n mod 10)) acc) Hq ltac:(lia))
      as (k & Hk & Hl & Hb).
    exists (S k). split; [lia|]. split.
    + rewrite Hl. simpl String.length. lia.
    + rewrite Nat2Z.inj_succ. replace (Z.succ (Z.of_nat k) - 1) with (Z.succ (Z.of_nat k - 1)) by lia.
      rewrite !Z.pow_succ_r by lia.
      assert (1 <= n / 10) by (apply Z.div_le_lower_bound; lia).
      rewrite Z.max_l in Hb by lia. rewrite Z.max_l by lia.
      pose proof (Z.div_mod n 10). pose proof (Z.mod_pos_bound n 10). lia.
Qed.

Lemma zeros_length n : String.length (zeros n) = n.
Proof. induction n; simpl; congruence. Qed.

(** printf's [%0<w>d] gives exactly [w] characters for a value of at most [w]
    digits. *)
Lemma fmt_0d_width (w : nat) (n : Z) :
  (0 < w <= 10)%nat -> 0 <= n < 10 ^ Z.of_nat w -> String.length (fmt_0d w n) = w.
Proof.
  intros Hw Hn. unfold fmt_0d. replace (n <? 0) with false by lia.
  assert (H10 : 0 <= n < 10 ^ Z.of_nat 10).
  { split; [lia|]. eapply Z.lt_le_trans; [apply Hn|]. apply Z.pow_le_mono_r; lia. }
  destruct (dec_digits_length 10 n EmptyString H10 ltac:(lia)) as (k & Hk & Hl & Hb).
  rewrite string_length_app, zeros_length, Hl. simpl String.length.
  assert (k <= w)%nat; [|lia].
  destruct (le_lt_dec k w) as [L|L]; [exact L|exfalso].
  assert (10 ^ Z.of_nat w <= 10 ^ (Z.of_nat k - 1)) by (apply Z.pow_le_mono_r; lia).
  assert (10 ^ 1 <= 10 ^ Z.of_nat w) by (apply Z.pow_le_mono_r; lia).
  change (10 ^ 1) with 10 in *. lia.
Qed.

(** For a year of four digits and two-digit fields the time stamp has the 19
    characters of YYYY,MM,DD,hh,mm,ss. *)
Lemma render_timestamp_width year month mday hour min sec :
  0 <= year <= 9999 -> 0 <= month <= 99 -> 0 <= mday <= 99 ->
  0 <= hour <= 99 -> 0 <= min <= 99 -> 0 <= sec <= 99 ->
  String.length (render_timestamp year month mday hour min sec) = 19%nat.
Proof.
  intros. unfold render_timestamp.
  assert (L : String.length
                (fmt_0d 4 year ++ "," ++ fmt_0d 2 month ++ "," ++ fmt_0d 2 mday ++ ","
                 ++ fmt_0d 2 hour ++ "," ++ fmt_0d 2 min ++ "," ++ fmt_0d 2 sec)%string
              = 19%nat).
  { repeat rewrite string_length_app.
    rewrite (fmt_0d_width 4 year), (fmt_0d_width 2 month), (fmt_0d_width 2 mday),
      (fmt_0d_width 2 hour), (fmt_0d_width 2 min), (fmt_0d_width 2 sec);
      try lia; try (change (10 ^ Z.of_nat 2) with 100; lia);
      try (change (10 ^ Z.of_nat 4) with 10000; lia).
    reflexivity. }
  rewrite string_firstn_all; [exact L|]. rewrite L. lia.
Qed.

(** ** Record lengths without miniSEED 3 *)

Section Ms2Lengths.

Variable F : MSeedFormat.

Lemma shl1_int32_bound n : shl1_int32 n <= 2 ^ 30.
Proof.
  unfold shl1_int32.
  pose proof (Z.mod_pos_bound n 32 ltac:(lia)) as Hm.
  set (m := n mod 32) in *.
  rewrite Z.shiftl_mul_pow2 by lia. rewrite Z.mul_1_l.
  destruct (Z.eq_dec m 31) as [E|E].
  - rewrite E. vm_compute. discriminate.
  - assert (2 ^ m <= 2 ^ 30) by (apply Z.pow_le_mono_r; lia).
    assert (0 < 2 ^ m) by (apply Z.pow_pos_nonneg; lia).
    rewrite wrap32s_id; lia.
Qed.

Lemma scan_loop_multiple fuel : forall record recbuflen k r,
  scan_loop F fuel record recbuflen k = Some (Some r) ->
  exists j, r = k + 64 * j.
Proof.
  induction fuel as [|fuel IH]; intros record recbuflen k r H; [discriminate|].
  simpl in H. destruct (k + 48 <? recbuflen); [|discriminate].
  destruct (MS2_ISVALIDHEADER F _).
  - inversion H. exists 0. lia.
  - apply IH in H. destruct H as [j H]. exists (j + 1). lia.
Qed.

Lemma scan_next_bound record recbuflen foundlen reclen :
  reclen <= 2 ^ 30 ->
  scan_next F record recbuflen foundlen reclen <= INT_MAX - SLHEADSIZE.
Proof.
  intros H. unfold scan_next, INT_MAX, SLHEADSIZE.
  destruct (reclen =? -1).
  - destruct (scan_loop F (scan_fuel recbuflen) record recbuflen 64) as [[r|]|] eqn:E.
    + apply scan_loop_multiple in E. destruct E as [j E].
      destruct (wrap32s_multiple r) as [m M]. pose proof (wrap32s_range r). lia.
    + destruct foundlen; lia.
    + destruct foundlen; lia.
  - destruct foundlen; lia.
Qed.

(** The length of a record that is not taken for a miniSEED 3 record does not
    come near the top of the [int] range. *)
Lemma detect_ms2_bounded record n :
  MS3_ISVALIDHEADER F record = false ->
  fst (detect F record n) <= INT_MAX - SLHEADSIZE.
Proof.
  intros H3. unfold detect. rewrite H3.
  destruct (n <? SLRECSIZEMIN); [vm_compute; discriminate|].
  destruct (MS2_ISVALIDHEADER F record); [|vm_compute; discriminate].
  destruct (blkt_loop F blkt_fuel record n _ _) as [[r| |]|] eqn:B; cbn [fst].
  - apply scan_next_bound.
    assert (X : forall fuel record recbuflen swapflag off r,
               blkt_loop F fuel record recbuflen swapflag off = Some (BlktFound r) ->
               r <= 2 ^ 30).
    { clear. induction fuel as [|fuel IH]; intros record recbuflen swapflag off r H;
        [discriminate|]. simpl in H.
      repeat break_match; try discriminate.
      - inversion H. apply shl1_int32_bound.
      - eapply IH; eauto. }
    eapply X; eauto.
  - vm_compute. discriminate.
  - apply scan_next_bound. lia.
  - apply scan_next_bound. lia.
Qed.

(** The record at the read cursor fits whenever it is not taken for a
    miniSEED 3 record. *)
Lemma frame_fits_ms2 s :
  MS3_ISVALIDHEADER F (record_view s) = false -> frame_fits F s = true.
Proof.
  intros H3. unfold frame_fits, packet_len. apply Z.leb_le.
  apply detect_ms2_bounded. exact H3.
Qed.

End Ms2Lengths.


(** * Further proofs *)

Section StreamTableMore.

Variable F : MSeedFormat.
Variable G : GenUtils.

Lemma entry_matches_set_entry msrec e seq ts :
  entry_matches G msrec (set_entry e seq ts) = entry_matches G msrec e.
Proof. reflexivity. Qed.

Lemma is_uni_set_entry e seq ts : is_uni (set_entry e seq ts) = is_uni e.
Proof. reflexivity. Qed.

Lemma set_entry_twice e seq ts : set_entry (set_entry e seq ts) seq ts = set_entry e seq ts.
Proof. reflexivity. Qed.

Lemma update_chain_names msrec seq l : forall r u,
  update_chain F G msrec seq l = (r, u) ->
  map net r = map net l /\ map sta r = map sta l /\ map selectors r = map selectors l.
Proof.
  induction l as [|e l IH]; intros r u H; simpl in H.
  - inv_pairs. auto.
  - destruct (update_chain F G msrec seq l) as [r0 u0] eqn:C.
    destruct (IH _ _ eq_refl) as (A & B & D).
    destruct (entry_matches G msrec e); inv_pairs; simpl; rewrite A, B, D; auto.
Qed.

Lemma update_chain_count msrec seq l : forall r u,
  update_chain F G msrec seq l = (r, u) ->
  0 <= u /\ (u = 0 -> r = l /\ existsb (entry_matches G msrec) l = false)
  /\ (0 < u -> existsb (entry_matches G msrec) l = true).
Proof.
  induction l as [|e l IH]; intros r u H; simpl in H.
  - inv_pairs. repeat split; auto; lia.
  - destruct (update_chain F G msrec seq l) as [r0 u0] eqn:C.
    destruct (IH _ _ eq_refl) as (A & B & D).
    destruct (entry_matches G msrec e) eqn:M; inv_pairs; simpl; rewrite M; simpl.
    + split; [lia|]. split; [intros; lia|reflexivity].
    + split; [lia|]. split.
      * intros Hu. destruct (B Hu) as [E1 E2]. rewrite E1. auto.
      * exact D.
Qed.

Lemma update_chain_again msrec seq l : forall r u,
  update_chain F G msrec seq l = (r, u) -> update_chain F G msrec seq r = (r, u).
Proof.
  induction l as [|e l IH]; intros r u H; simpl in H.
  - inv_pairs. reflexivity.
  - destruct (update_chain F G msrec seq l) as [r0 u0] eqn:C.
    pose proof (IH _ _ eq_refl) as A.
    destruct (entry_matches G msrec e) eqn:M; inv_pairs; simpl; rewrite A.
    + rewrite entry_matches_set_entry, M. reflexivity.
    + rewrite M. reflexivity.
Qed.

End StreamTableMore.

Section TableOps.

Variable F : MSeedFormat.
Variable G : GenUtils.

Lemma uni_exclusive_same_names l l' :
  map net l' = map net l -> map sta l' = map sta l ->
  uni_exclusive l -> uni_exclusive l'.
Proof.
  intros A B H.
  destruct l' as [|e' [|e1' l1']]; simpl; auto.
  destruct l as [|e [|e1 l1]]; simpl in *; try discriminate.
  inversion A. inversion B. unfold is_uni in *. congruence.
Qed.

Lemma uni_exclusive_step c op :
  uni_exclusive (streams c) -> uni_exclusive (streams (table_step F G c op)).
Proof.
  intros H. destruct op as [m rest n s sel seq ts|m rest sel seq ts|h r]; simpl.
  - unfold sl_addstream.
    destruct (head_is_uni (streams c)) eqn:U; [exact H|].
    destruct m; [|exact H]. simpl.
    destruct (streams c) as [|e l0]; simpl; [exact I|].
    simpl in U. destruct (l0 ++ _) eqn:E; [|exact U].
    destruct l0; discriminate.
  - unfold sl_setuniparams.
    destruct (streams c) as [|e l0] eqn:E.
    + destruct m; simpl; [exact I|rewrite E; exact I].
    + destruct (is_uni e); simpl; [exact I|rewrite E; exact H].
  - destruct (update_stream F G (streams c) h r) as [[x l'] logs] eqn:E. simpl.
    unfold update_stream in E.
    destruct (sl_sequence h =? -1); [inv_pairs; exact H|].
    destruct (streams c) as [|e l0] eqn:S; [inv_pairs; exact I|].
    destruct (is_uni e) eqn:U.
    + inv_pairs. destruct l0; simpl in *; [exact I|congruence].
    + destruct (update_chain F G r (sl_sequence h) (e :: l0)) as [r0 u] eqn:C.
      pose proof (update_chain_names F G _ _ _ _ _ C) as (A & B & _).
      assert (l' = r0) by (destruct (u =? 0); inv_pairs; reflexivity). subst l'.
      eapply uni_exclusive_same_names; eauto.
Qed.

End TableOps.

Lemma memmove_front_length buf from n :
  0 <= from -> 0 <= n -> from + n <= Z.of_nat (List.length buf) ->
  List.length (memmove_front buf from n) = List.length buf.
Proof.
  intros A B D. unfold memmove_front.
  rewrite length_app, length_firstn, !length_skipn. lia.
Qed.

Lemma write_at_length buf pos data :
  0 <= pos -> pos + Z.of_nat (List.length data) <= Z.of_nat (List.length buf) ->
  List.length (write_at buf pos data) = List.length buf.
Proof.
  intros A B. unfold write_at.
  rewrite !length_app, length_firstn, length_skipn. lia.
Qed.

Ltac crush_len :=
  intros; repeat break_match; inv_pairs; fields; auto.

Section BufferLength.

Variable F : MSeedFormat.
Variable G : GenUtils.
Variable N : Network.

Local Abbreviation len c := (List.length (databuf (stat c))).

Lemma len_info_was_set c : len (info_was_set c) = len c.
Proof. unfold info_was_set. crush_len. Qed.

Lemma len_check_slcd c w b c' w' : check_slcd N c w = (b, c', w') -> len c' = len c.
Proof. unfold check_slcd. crush_len. Qed.

Lemma len_main_sequence c w c' w' : main_sequence N c w = (c', w') -> len c' = len c.
Proof.
  unfold main_sequence. intros E.
  assert (H0 : len (link_down c) = len c) by (unfold link_down; crush_len).
  destruct (netto_check N (link_down c) w) as [c1 w1] eqn:E1.
  assert (H1 : len c1 = len (link_down c)).
  { revert E1. unfold netto_check, disconnect_link, sl_disconnect. crush_len. }
  destruct (keepalive_check N c1 w1) as [c2 w2] eqn:E2.
  assert (H2 : len c2 = len c1).
  { revert E2. unfold keepalive_check. crush_len. }
  destruct (info_check N c2 w2) as [c3 w3] eqn:E3.
  assert (H3 : len c3 = len c2).
  { revert E3. unfold info_check. crush_len. }
  destruct (throttle N c3 w3) as [c4 w4] eqn:E4.
  assert (H4 : len c4 = len c3).
  { revert E4. unfold throttle. crush_len. }
  destruct (connect_step N c4 w4) as [c5 w5] eqn:E5.
  assert (H5 : len c5 = len c4).
  { revert E5. unfold connect_step, sl_connect. crush_len. }
  assert (H6 : len c' = len c5).
  { revert E. unfold negotiate, disconnect_link, sl_disconnect. crush_len. }
  congruence.
Qed.

Lemma len_terminating final c w c' w' :
  terminating N final c w = (c', w') -> len c' = len c.
Proof. unfold terminating, disconnect_link, sl_disconnect. crush_len. Qed.

Lemma len_process_buffer c w ex c' w' :
  process_buffer F G N c w = (ex, c', w') -> len c' = len c.
Proof.
  intros E. apply process_buffer_frame in E.
  destruct E as ((_ & _ & _ & D & _) & _). rewrite D. reflexivity.
Qed.

Lemma len_shift_buffer c :
  cursors_ok (stat c) -> Z.of_nat (len c) = BUFSIZE -> len (shift_buffer c) = len c.
Proof.
  unfold shift_buffer, cursors_ok, BUFSIZE. intros H L.
  destruct (negb (sendptr (stat c) =? 0)); [|reflexivity]. fields.
  apply memmove_front_length; unfold int_sub; rewrite ?wrap32s_id; lia.
Qed.

Lemma len_stream_stopped c w b c' w' :
  stream_stopped N c w = (b, c', w') -> len c' = len c.
Proof. unfold stream_stopped, disconnect_link, sl_disconnect. crush_len. Qed.

Lemma len_recv_into c w r c' w' :
  cursors_ok (stat c) -> Z.of_nat (len c) = BUFSIZE ->
  recv_into N c w = (r, c', w') -> len c' = len c.
Proof.
  unfold recv_into, sl_recvdata, cursors_ok, BUFSIZE. intros H L E.
  destruct (w_recvdata N c _ (ext w)) as [[r0 data] e] eqn:R.
  inv_pairs. fields.
  apply write_at_length; [lia|].
  rewrite length_firstn. unfold int_sub. rewrite wrap32s_id by lia. lia.
Qed.

Lemma len_read_nb c w c' w' :
  cursors_ok (stat c) -> Z.of_nat (len c) = BUFSIZE ->
  read_nb N c w = (c', w') -> len c' = len c.
Proof.
  unfold read_nb. intros H L E.
  destruct (in_state c SL_DATA); [|inv_pairs; auto].
  destruct (recv_into N c w) as [[r c1] w1] eqn:R.
  apply len_recv_into in R; auto. rewrite <- R.
  revert E. unfold disconnect_link, sl_disconnect, data_is_here. crush_len.
Qed.

Lemma len_read_blocking c w c' w' :
  cursors_ok (stat c) -> Z.of_nat (len c) = BUFSIZE ->
  read_blocking N c w = (c', w') -> len c' = len c.
Proof.
  unfold read_blocking. intros H L E.
  destruct (in_state c SL_DATA); [|inv_pairs; auto].
  destruct (select_link N c w) as [[sr isset] w1].
  destruct (recv_into N c w1) as [[r c1] w2] eqn:R.
  apply len_recv_into in R; auto.
  revert E. unfold disconnect_link, sl_disconnect, data_is_here. crush_len.
Qed.

Lemma len_update_timing c w c' w' : update_timing N c w = (c', w') -> len c' = len c.
Proof.
  unfold update_timing, netdly_timer, keepalive_timer, netto_timer, sl_dtime.
  crush_len.
Qed.

End BufferLength.

Section BufferInvariant.

Variable F : MSeedFormat.
Variable G : GenUtils.
Variable N : Network.
Hypothesis Hrecv : recv_bounded N.

Lemma bo_nb c m w r c' w' :
  nb_fits F G N c w = true ->
  buffer_ok (stat c) -> sl_collect_nb_size F G N c m w = (r, c', w') ->
  buffer_ok (stat c').
Proof.
  intros Hf [H L] E. split; [eapply co_nb; eauto|].
  revert E. unfold sl_collect_nb_size. unfold nb_fits in Hf.
  destruct (check_slcd N (info_was_set c) w) as [[stop c1] w1] eqn:E1.
  assert (H1 : cursors_ok (stat c1)).
  { eapply co_check_slcd; [|eauto]. apply co_info_was_set; auto. }
  assert (L1 : List.length (databuf (stat c1)) = List.length (databuf (stat c))).
  { rewrite (len_check_slcd N _ _ _ _ _ E1). apply len_info_was_set. }
  destruct stop; [intros X; inv_pairs; congruence|].
  destruct (if terminate c1 =? 0 then main_sequence N c1 w1 else terminating N SL_DATA c1 w1)
    as [c2 w2] eqn:E2.
  assert (H2 : cursors_ok (stat c2)).
  { destruct (terminate c1 =? 0); [eapply co_main_sequence|eapply co_terminating]; eauto. }
  assert (L2 : List.length (databuf (stat c2)) = List.length (databuf (stat c1))).
  { destruct (terminate c1 =? 0); [eapply len_main_sequence|eapply len_terminating]; eauto. }
  destruct (process_buffer F G N c2 w2) as [[ex c3] w3] eqn:E3.
  assert (H3 : cursors_ok (stat c3)) by (eapply co_process_buffer; eauto).
  pose proof (len_process_buffer F G N _ _ _ _ _ E3) as L3.
  destruct ex; try (intros X; inv_pairs; congruence).
  destruct (negb (terminate c3 =? 0)); [intros X; inv_pairs; congruence|].
  assert (L4 : List.length (databuf (stat (shift_buffer c3))) = List.length (databuf (stat c3))).
  { apply len_shift_buffer; auto. congruence. }
  pose proof (co_shift_buffer c3 H3) as H4.
  destruct (stream_stopped N (shift_buffer c3) w3) as [[stop' c5] w5] eqn:E5.
  assert (H5 : cursors_ok (stat c5)) by (eapply co_stream_stopped; eauto).
  pose proof (len_stream_stopped N _ _ _ _ _ E5) as L5.
  destruct stop'; [intros X; inv_pairs; congruence|].
  destruct (read_nb N c5 w5) as [c6 w6] eqn:E6.
  destruct (update_timing N c6 w6) as [c7 w7] eqn:E7.
  intros X; inv_pairs.
  rewrite (len_update_timing N _ _ _ _ E7).
  rewrite (len_read_nb N _ _ _ _ H5 ltac:(congruence) E6). congruence.
Qed.

Lemma bo_primary_loop fuel : forall c w r c' w',
  passes_fit F G N fuel c w = true ->
  buffer_ok (stat c) -> primary_loop F G N fuel c w = Some (r, c', w') ->
  buffer_ok (stat c').
Proof.
  induction fuel as [|fuel IH]; intros c w r c' w' Hf [H L]; [discriminate|].
  simpl. simpl in Hf.
  destruct (if terminate c =? 0 then main_sequence N c w else terminating N SL_DOWN c w)
    as [c2 w2] eqn:E2.
  apply andb_true_iff in Hf. destruct Hf as [Hf1 Hf2].
  assert (H2 : cursors_ok (stat c2)).
  { destruct (terminate c =? 0); [eapply co_main_sequence|eapply co_terminating]; eauto. }
  assert (L2 : List.length (databuf (stat c2)) = List.length (databuf (stat c))).
  { destruct (terminate c =? 0); [eapply len_main_sequence|eapply len_terminating]; eauto. }
  destruct (process_buffer F G N c2 w2) as [[ex c3] w3] eqn:E3.
  assert (H3 : cursors_ok (stat c3)) by (eapply co_process_buffer; eauto).
  pose proof (len_process_buffer F G N _ _ _ _ _ E3) as L3.
  destruct ex; try (intros X; inversion X; subst; split; [auto|congruence]).
  destruct (negb (terminate c3 =? 0)); [intros X; inversion X; subst; split; [auto|congruence]|].
  assert (L4 : List.length (databuf (stat (shift_buffer c3))) = List.length (databuf (stat c3))).
  { apply len_shift_buffer; auto. congruence. }
  pose proof (co_shift_buffer c3 H3) as H4.
  destruct (stream_stopped N (shift_buffer c3) w3) as [[stop' c5] w5] eqn:E5.
  assert (H5 : cursors_ok (stat c5)) by (eapply co_stream_stopped; eauto).
  pose proof (len_stream_stopped N _ _ _ _ _ E5) as L5.
  destruct stop'; [intros X; inversion X; subst; split; [auto|congruence]|].
  destruct (read_blocking N c5 w5) as [c6 w6] eqn:E6.
  destruct (update_timing N c6 w6) as [c7 w7] eqn:E7.
  apply IH; [exact Hf2|]. split.
  - eapply co_update_timing; [|exact E7]. eapply co_read_blocking; eauto.
  - rewrite (len_update_timing N _ _ _ _ E7).
    rewrite (len_read_blocking N _ _ _ _ H5 ltac:(congruence) E6). congruence.
Qed.

Lemma bo_call k c w r c' w' :
  call_fits F G N k c w = true ->
  buffer_ok (stat c) -> do_call F G N k c w = Some (r, c', w') -> buffer_ok (stat c').
Proof.
  intros Hf B. destruct k as [fuel|m]; simpl; simpl in Hf.
  - unfold sl_collect.
    destruct (check_slcd N (info_was_set c) w) as [[stop c1] w1] eqn:E1.
    assert (B1 : buffer_ok (stat c1)).
    { destruct B as [H L]. split.
      - eapply co_check_slcd; [|eauto]. apply co_info_was_set; auto.
      - rewrite (len_check_slcd N _ _ _ _ _ E1), len_info_was_set. exact L. }
    destruct stop; [intros X; inversion X; subst; auto|].
    apply bo_primary_loop; auto.
  - intros X. inversion X. eapply bo_nb; eauto.
Qed.

(** The packet at the exit of the loop body. *)
Lemma pib_loop_body c w c' w' :
  frame_fits F (stat c) = true ->
  cursors_ok (stat c) -> loop_body F G N c w = (BodyPacket, c', w') ->
  packet_in_buffer (stat c').
Proof.
  intros Hl H E. apply loop_body_frame in E.
  destruct E as ((_ & _ & _ & _ & Hr & _) & _ & _ & Hp & _ & _ & Hn).
  destruct Hn as (P & Q & R); [now left|].
  unfold frame_fits in Hl. apply Z.leb_le in Hl.
  exists (sendptr (stat c)). rewrite Hp, R, Hr. cbn [slhead msrecord reclen].
  unfold cursors_ok, BUFSIZE, INT_MAX, SLHEADSIZE, int_add, int_sub in *.
  rewrite (wrap32s_id (packet_len F (stat c) + 8)) in Q by lia.
  rewrite (wrap32s_id (recptr (stat c) - sendptr (stat c))) in Q by lia.
  rewrite (wrap32s_id (8 + packet_len F (stat c))) by lia.
  rewrite !wrap32s_id by lia.
  repeat split; auto; lia.
Qed.

Lemma pib_process_loop fuel : forall c w c' w',
  loop_fits F G N fuel c w = true ->
  cursors_ok (stat c) -> process_loop F G N fuel c w = Some (LoopPacket, c', w') ->
  packet_in_buffer (stat c').
Proof.
  induction fuel as [|fuel IH]; intros c w c' w' Hf H E; [discriminate|].
  simpl in E, Hf. destruct (loop_guard (stat c)); [|discriminate].
  apply andb_true_iff in Hf. destruct Hf as [Hf1 Hf2].
  destruct (loop_body F G N c w) as [[e c1] w1] eqn:B.
  pose proof (co_loop_body F G N _ _ _ _ _ Hf1 H B).
  destruct e; try discriminate.
  - inversion E; subst. exact (pib_loop_body _ _ _ _ Hf1 H B).
  - eapply IH; eauto.
Qed.

Lemma pib_process_buffer c w c' w' :
  buffer_fits F G N c w = true ->
  cursors_ok (stat c) -> process_buffer F G N c w = (LoopPacket, c', w') ->
  packet_in_buffer (stat c').
Proof.
  intros Hf H E. pose proof (process_buffer_eq F G N c w) as X. rewrite E in X.
  eapply pib_process_loop; eauto.
Qed.

Lemma pib_nb c m w r p c' w' :
  nb_fits F G N c w = true ->
  cursors_ok (stat c) -> sl_collect_nb_size F G N c m w = ((r, Some p), c', w') ->
  p = slpack (stat c') /\ packet_in_buffer (stat c').
Proof.
  intros Hf H. unfold sl_collect_nb_size. unfold nb_fits in Hf.
  destruct (check_slcd N (info_was_set c) w) as [[stop c1] w1] eqn:E1.
  assert (H1 : cursors_ok (stat c1)).
  { eapply co_check_slcd; [|eauto]. apply co_info_was_set; auto. }
  destruct stop; [intros X; inv_pairs|].
  destruct (if terminate c1 =? 0 then main_sequence N c1 w1 else terminating N SL_DATA c1 w1)
    as [c2 w2] eqn:E2.
  assert (H2 : cursors_ok (stat c2)).
  { destruct (terminate c1 =? 0); [eapply co_main_sequence|eapply co_terminating]; eauto. }
  destruct (process_buffer F G N c2 w2) as [[ex c3] w3] eqn:E3.
  destruct ex.
  - intros X; inv_pairs. split; [reflexivity|]. exact (pib_process_buffer _ _ _ _ Hf H2 E3).
  - intros X; inv_pairs.
  - destruct (negb (terminate c3 =? 0)); [intros X; inv_pairs|].
    destruct (stream_stopped N (shift_buffer c3) w3) as [[stop' c5] w5] eqn:E5.
    destruct stop'; [intros X; inv_pairs|].
    destruct (read_nb N c5 w5) as [c6 w6] eqn:E6.
    destruct (update_timing N c6 w6) as [c7 w7] eqn:E7.
    intros X; inv_pairs.
Qed.

Lemma pib_primary_loop fuel : forall c w r p c' w',
  passes_fit F G N fuel c w = true ->
  cursors_ok (stat c) -> primary_loop F G N fuel c w = Some ((r, Some p), c', w') ->
  p = slpack (stat c') /\ packet_in_buffer (stat c').
Proof.
  induction fuel as [|fuel IH]; intros c w r p c' w' Hf H; [discriminate|].
  simpl. simpl in Hf.
  destruct (if terminate c =? 0 then main_sequence N c w else terminating N SL_DOWN c w)
    as [c2 w2] eqn:E2.
  apply andb_true_iff in Hf. destruct Hf as [Hf1 Hf2].
  assert (H2 : cursors_ok (stat c2)).
  { destruct (terminate c =? 0); [eapply co_main_sequence|eapply co_terminating]; eauto. }
  destruct (process_buffer F G N c2 w2) as [[ex c3] w3] eqn:E3.
  assert (H3 : cursors_ok (stat c3)) by (eapply co_process_buffer; eauto).
  destruct ex.
  - intros X; inversion X; subst. split; [reflexivity|].
    exact (pib_process_buffer _ _ _ _ Hf1 H2 E3).
  - intros X; inversion X.
  - destruct (negb (terminate c3 =? 0)); [intros X; inversion X|].
    destruct (stream_stopped N (shift_buffer c3) w3) as [[stop' c5] w5] eqn:E5.
    assert (H5 : cursors_ok (stat c5)).
    { eapply co_stream_stopped; [|exact E5]. apply co_shift_buffer; exact H3. }
    destruct stop'; [intros X; inversion X|].
    destruct (read_blocking N c5 w5) as [c6 w6] eqn:E6.
    destruct (update_timing N c6 w6) as [c7 w7] eqn:E7.
    apply IH; [exact Hf2|].
    eapply co_update_timing; [|exact E7]. eapply co_read_blocking; eauto.
Qed.

End BufferInvariant.

Ltac crush_eq :=
  intros; repeat break_match; inv_pairs; fields; auto.

Section Behaviour.

Variable F : MSeedFormat.
Variable G : GenUtils.
Variable N : Network.

(** *** The shape of the result *)

Lemma shape_nb c m w r o c' w' :
  sl_collect_nb_size F G N c m w = ((r, o), c', w') ->
  (r = SLPACKET /\ o = Some (slpack (stat c')))
  \/ (r = SLTERMINATE /\ o = None) \/ (r = SLNOPACKET /\ o = None).
Proof.
  unfold sl_collect_nb_size.
  repeat break_match; intros X; inv_pairs; auto.
Qed.

Lemma shape_primary_loop fuel : forall c w r o c' w',
  primary_loop F G N fuel c w = Some ((r, o), c', w') ->
  (r = SLPACKET /\ o = Some (slpack (stat c'))) \/ (r = SLTERMINATE /\ o = None).
Proof.
  induction fuel as [|fuel IH]; intros c w r o c' w'; [discriminate|]. simpl.
  destruct (if terminate c =? 0 then main_sequence N c w else terminating N SL_DOWN c w)
    as [c2 w2].
  destruct (process_buffer F G N c2 w2) as [[ex c3] w3].
  destruct ex; try (intros X; inversion X; subst; auto; fail).
  destruct (negb (terminate c3 =? 0)); [intros X; inversion X; subst; auto|].
  destruct (stream_stopped N (shift_buffer c3) w3) as [[stop' c5] w5].
  destruct stop'; [intros X; inversion X; subst; auto|].
  destruct (read_blocking N c5 w5) as [c6 w6].
  destruct (update_timing N c6 w6) as [c7 w7].
  apply IH.
Qed.

(** *** What no step of a call changes: the reconnect delay *)

Lemma netdly_main_sequence c w c' w' :
  main_sequence N c w = (c', w') -> netdly c' = netdly c.
Proof.
  unfold main_sequence. intros E.
  assert (H0 : netdly (link_down c) = netdly c) by (unfold link_down; crush_eq).
  destruct (netto_check N (link_down c) w) as [c1 w1] eqn:E1.
  assert (H1 : netdly c1 = netdly (link_down c)).
  { revert E1. unfold netto_check, disconnect_link, sl_disconnect. crush_eq. }
  destruct (keepalive_check N c1 w1) as [c2 w2] eqn:E2.
  assert (H2 : netdly c2 = netdly c1).
  { revert E2. unfold keepalive_check. crush_eq. }
  destruct (info_check N c2 w2) as [c3 w3] eqn:E3.
  assert (H3 : netdly c3 = netdly c2).
  { revert E3. unfold info_check. crush_eq. }
  destruct (throttle N c3 w3) as [c4 w4] eqn:E4.
  assert (H4 : netdly c4 = netdly c3).
  { revert E4. unfold throttle. crush_eq. }
  destruct (connect_step N c4 w4) as [c5 w5] eqn:E5.
  assert (H5 : netdly c5 = netdly c4).
  { revert E5. unfold connect_step, sl_connect. crush_eq. }
  assert (H6 : netdly c' = netdly c5).
  { revert E. unfold negotiate, disconnect_link, sl_disconnect. crush_eq. }
  congruence.
Qed.

Lemma netdly_loop_body c w ex c' w' :
  loop_body F G N c w = (ex, c', w') -> netdly c' = netdly c.
Proof.
  unfold loop_body, classify, info_packet, data_packet, advance_sendptr. crush_eq.
Qed.

Lemma netdly_process_loop fuel : forall c w ex c' w',
  process_loop F G N fuel c w = Some (ex, c', w') -> netdly c' = netdly c.
Proof.
  induction fuel as [|fuel IH]; intros c w ex c' w' E; [discriminate|].
  simpl in E. destruct (loop_guard (stat c)); [|inversion E; subst; auto].
  destruct (loop_body F G N c w) as [[e c1] w1] eqn:B.
  pose proof (netdly_loop_body _ _ _ _ _ B) as X.
  destruct e; try (inversion E; subst; auto; fail).
  rewrite (IH _ _ _ _ _ E). exact X.
Qed.

Lemma netdly_process_buffer c w ex c' w' :
  process_buffer F G N c w = (ex, c', w') -> netdly c' = netdly c.
Proof.
  intros E. pose proof (process_buffer_eq F G N c w) as X. rewrite E in X.
  eapply netdly_process_loop; eauto.
Qed.

(** *** The trace only grows *)

Lemma extends_refl w : extends N w w.
Proof. exists []. rewrite app_nil_r. reflexivity. Qed.

Lemma extends_trans a b c : extends N a b -> extends N b c -> extends N a c.
Proof.
  intros [x X] [y Y]. exists (x ++ y). rewrite Y, X, app_assoc. reflexivity.
Qed.

Lemma extends_emit l w : extends N w (emit N l w).
Proof. exists l. reflexivity. Qed.

Lemma extends_loop_body c w ex c' w' :
  loop_body F G N c w = (ex, c', w') -> extends N w w'.
Proof.
  unfold loop_body, classify, info_packet, data_packet, sl_log_r.
  intros; repeat break_match; inv_pairs;
    first [apply extends_refl | apply extends_emit].
Qed.

Lemma extends_process_loop fuel : forall c w ex c' w',
  process_loop F G N fuel c w = Some (ex, c', w') -> extends N w w'.
Proof.
  induction fuel as [|fuel IH]; intros c w ex c' w' E; [discriminate|].
  simpl in E. destruct (loop_guard (stat c)); [|inversion E; subst; apply extends_refl].
  destruct (loop_body F G N c w) as [[e c1] w1] eqn:B.
  pose proof (extends_loop_body _ _ _ _ _ B) as X.
  destruct e; try (inversion E; subst; auto; fail).
  eapply extends_trans; [exact X|]. eapply IH; eauto.
Qed.

Lemma extends_process_buffer c w ex c' w' :
  process_buffer F G N c w = (ex, c', w') -> extends N w w'.
Proof.
  intros E. pose proof (process_buffer_eq F G N c w) as X. rewrite E in X.
  eapply extends_process_loop; eauto.
Qed.

(** *** A call while the link is down and the delay trigger is not at 0 *)

Lemma main_sequence_down c w :
  link c = -1 -> netdly_trig (stat c) <> 0 ->
  main_sequence N c w
  = (upd_stat (st_sl_state SL_DOWN) c,
     if netdly_trig (stat c) >? 0 then slp_usleep N 500000 w else w).
Proof.
  intros L T. unfold main_sequence, link_down.
  replace (link c =? -1) with true by lia.
  set (c0 := upd_stat (st_sl_state SL_DOWN) c).
  assert (N0 : netto_check N c0 w = (c0, w)) by reflexivity.
  rewrite N0.
  assert (K0 : keepalive_check N c0 w = (c0, w)) by reflexivity.
  rewrite K0.
  assert (I0 : info_check N c0 w = (c0, w)).
  { unfold info_check. destruct (info c0); reflexivity. }
  rewrite I0.
  assert (T0 : throttle N c0 w
               = (c0, if netdly_trig (stat c) >? 0 then slp_usleep N 500000 w else w)).
  { unfold throttle. subst c0. fields. cbn [in_state sl_state_eqb andb].
    unfold in_state. fields. cbn [sl_state_eqb andb].
    destruct (netdly_trig (stat c) >? 0); reflexivity. }
  rewrite T0.
  assert (C0 : forall w0, connect_step N c0 w0 = (c0, w0)).
  { intros w0. unfold connect_step, in_state. subst c0. fields. cbn [sl_state_eqb andb].
    replace (netdly_trig (stat c) =? 0) with false by lia. reflexivity. }
  rewrite C0.
  reflexivity.
Qed.

Lemma shift_buffer_keeps c :
  link (shift_buffer c) = link c /\ terminate (shift_buffer c) = terminate c
  /\ netdly (shift_buffer c) = netdly c
  /\ netdly_trig (stat (shift_buffer c)) = netdly_trig (stat c)
  /\ sl_state (stat (shift_buffer c)) = sl_state (stat c).
Proof. unfold shift_buffer. destruct (negb (sendptr (stat c) =? 0)); fields; auto. Qed.

Lemma stream_stopped_keeps c w b c' w' :
  stream_stopped N c w = (b, c', w') ->
  (b = true -> link c' = -1)
  /\ (b = false -> c' = c /\ w' = w)
  /\ terminate c' = terminate c /\ netdly c' = netdly c
  /\ netdly_trig (stat c') = netdly_trig (stat c)
  /\ contacts (trace w') = contacts (trace w) /\ extends N w w'.
Proof.
  unfold stream_stopped, disconnect_link, sl_disconnect, sl_log_r, emit.
  intros; repeat break_match; inv_pairs; fields; cbn [trace];
    repeat split; auto; try discriminate;
    rewrite ?contacts_app; cbn [contacts filter is_contact]; rewrite ?app_nil_r; auto;
    try apply extends_refl.
  - exists [Log 2 0 "SeedLink server reported an error with the last command\n"; Disconnect].
    cbn [trace]. rewrite <- app_assoc. reflexivity.
  - exists [Log 1 1 "End of buffer or selected time window\n"; Disconnect].
    cbn [trace]. rewrite <- app_assoc. reflexivity.
Qed.

Lemma update_timing_keeps c w c' w' :
  update_timing N c w = (c', w') ->
  link c' = link c /\ terminate c' = terminate c /\ netdly c' = netdly c
  /\ (netdly c = 0 -> netdly_trig (stat c') = netdly_trig (stat c))
  /\ sl_state (stat c') = sl_state (stat c)
  /\ databuf (stat c') = databuf (stat c) /\ recptr (stat c') = recptr (stat c)
  /\ sendptr (stat c') = sendptr (stat c)
  /\ trace w' = trace w ++ [Dtime].
Proof.
  unfold update_timing, sl_dtime. intros E.
  destruct (w_dtime N (ext w)) as [now e]. inv_pairs. cbn [trace].
  unfold netdly_timer, keepalive_timer, netto_timer.
  repeat break_match; fields; repeat split; auto; intros; lia.
Qed.

(** One call of sl_collect_nb_size while the link is down. *)
Lemma down_nb c m w r c' w' :
  link c = -1 -> terminate c = 0 -> netdly_trig (stat c) <> 0 ->
  sl_collect_nb_size F G N c m w = (r, c', w') ->
  link c' = -1 /\ terminate c' = 0 /\ netdly c' = netdly c
  /\ (netdly c = 0 -> netdly_trig (stat c') = netdly_trig (stat c))
  /\ contacts (trace w') = contacts (trace w)
  /\ (sl_checkslcd N (info_was_set c) = 0 -> netdly_trig (stat c) > 0 ->
      exists tl, trace w' = trace w ++ Sleep 500000 :: tl).
Proof.
  intros L T D. unfold sl_collect_nb_size.
  pose proof (info_was_set_frame c) as ((L0 & T0 & _ & _ & _ & _ & D0) & _).
  assert (N0 : netdly (info_was_set c) = netdly c).
  { unfold info_was_set. destruct (info c); reflexivity. }
  set (c0 := info_was_set c) in *.
  unfold check_slcd. replace (link c0 =? -1) with true by lia.
  destruct (sl_checkslcd N c0 =? 0) eqn:K; cbn [negb].
  2:{ intros X; inv_pairs. unfold sl_log_r, emit; cbn [trace].
      rewrite contacts_app, app_nil_r.
      repeat split; auto; try lia; try congruence. }
  set (c1 := upd_stat (st_keepalive_trig (-1)) (upd_stat (st_netto_trig (-1)) c0)).
  assert (L1 : link c1 = -1) by (subst c1; fields; lia).
  assert (T1 : terminate c1 = 0) by (subst c1; fields; lia).
  assert (D1 : netdly_trig (stat c1) = netdly_trig (stat c)) by (subst c1; fields; lia).
  assert (N1 : netdly c1 = netdly c) by (subst c1; fields; lia).
  replace (terminate c1 =? 0) with true by lia.
  rewrite main_sequence_down by lia.
  set (c2 := upd_stat (st_sl_state SL_DOWN) c1).
  set (w2 := if netdly_trig (stat c1) >? 0 then slp_usleep N 500000 w else w).
  assert (X2 : contacts (trace w2) = contacts (trace w)
               /\ (netdly_trig (stat c) > 0 -> trace w2 = trace w ++ [Sleep 500000])).
  { subst w2. rewrite D1. destruct (netdly_trig (stat c) >? 0) eqn:Q.
    - unfold slp_usleep; cbn [trace]. rewrite contacts_app, app_nil_r. auto.
    - split; auto. intros; lia. }
  destruct X2 as [X2 X2'].
  destruct (process_buffer F G N c2 w2) as [[ex c3] w3] eqn:E3.
  pose proof (process_buffer_frame F G N _ _ _ _ _ E3)
    as ((L3 & T3 & _ & _ & _ & S3 & D3) & _ & C3).
  pose proof (netdly_process_buffer _ _ _ _ _ E3) as N3.
  pose proof (extends_process_buffer _ _ _ _ _ E3) as [tl3 P3].
  assert (Q3 : netdly_trig (stat c) > 0 -> exists tl, trace w3 = trace w ++ Sleep 500000 :: tl).
  { intros Q. exists tl3. rewrite P3, (X2' Q), <- app_assoc. reflexivity. }
  assert (B3 : link c3 = -1 /\ terminate c3 = 0 /\ netdly c3 = netdly c
               /\ netdly_trig (stat c3) = netdly_trig (stat c)
               /\ sl_state (stat c3) = SL_DOWN /\ contacts (trace w3) = contacts (trace w)).
  { subst c2. fields. repeat split; congruence. }
  destruct B3 as (L3' & T3' & N3' & D3' & S3' & C3').
  destruct ex.
  - intros X; inv_pairs. repeat split; auto.
  - intros X; inv_pairs. repeat split; auto.
  - replace (terminate c3 =? 0) with true by lia. cbn [negb].
    destruct (shift_buffer_keeps c3) as (L4 & T4 & N4 & D4 & S4).
    destruct (stream_stopped N (shift_buffer c3) w3) as [[stop' c5] w5] eqn:E5.
    destruct (stream_stopped_keeps _ _ _ _ _ E5) as (A5 & B5 & T5 & N5 & D5 & C5 & [tl5 P5]).
    destruct stop'.
    + intros X; inv_pairs. repeat split; auto; try congruence.
      intros K1 Q. destruct (Q3 Q) as [tl Z]. exists (tl ++ tl5).
      rewrite P5, Z, <- app_assoc. reflexivity.
    + destruct B5 as [-> ->]; auto.
      unfold read_nb, in_state. rewrite S4, S3'. cbn [sl_state_eqb].
      destruct (update_timing N (shift_buffer c3) w3) as [c7 w7] eqn:E7.
      destruct (update_timing_keeps _ _ _ _ E7) as (L7 & T7 & N7 & D7 & _ & _ & _ & _ & P7).
      intros X; inv_pairs. repeat split; try congruence.
      * intros Z. rewrite D7 by congruence. congruence.
      * rewrite P7, contacts_app, app_nil_r. congruence.
      * intros K1 Q. destruct (Q3 Q) as [tl Z]. exists (tl ++ [Dtime]).
        rewrite P7, Z, <- app_assoc. reflexivity.
Qed.

(** The primary loop of sl_collect on a stranded session. *)
Lemma stranded_primary_loop fuel : forall c w r c' w',
  stranded c -> primary_loop F G N fuel c w = Some (r, c', w') ->
  stranded c' /\ contacts (trace w') = contacts (trace w).
Proof.
  induction fuel as [|fuel IH]; intros c w r c' w' (L & T & Z & D); [discriminate|].
  simpl. replace (terminate c =? 0) with true by lia.
  rewrite main_sequence_down by lia.
  set (c2 := upd_stat (st_sl_state SL_DOWN) c).
  set (w2 := if netdly_trig (stat c) >? 0 then slp_usleep N 500000 w else w).
  assert (X2 : contacts (trace w2) = contacts (trace w)).
  { subst w2. destruct (netdly_trig (stat c) >? 0); auto.
    unfold slp_usleep; cbn [trace]. rewrite contacts_app, app_nil_r. auto. }
  destruct (process_buffer F G N c2 w2) as [[ex c3] w3] eqn:E3.
  pose proof (process_buffer_frame F G N _ _ _ _ _ E3)
    as ((L3 & T3 & _ & _ & _ & S3 & D3) & _ & C3).
  pose proof (netdly_process_buffer _ _ _ _ _ E3) as N3.
  assert (B3 : stranded c3 /\ sl_state (stat c3) = SL_DOWN
               /\ contacts (trace w3) = contacts (trace w)).
  { subst c2. unfold stranded. fields. repeat split; congruence. }
  destruct B3 as ((L3' & T3' & N3' & D3') & S3' & C3').
  destruct ex.
  - intros X; inversion X; subst. unfold stranded. auto.
  - intros X; inversion X; subst. unfold stranded. auto.
  - replace (terminate c3 =? 0) with true by lia. cbn [negb].
    destruct (shift_buffer_keeps c3) as (L4 & T4 & N4 & D4 & S4).
    destruct (stream_stopped N (shift_buffer c3) w3) as [[stop' c5] w5] eqn:E5.
    destruct (stream_stopped_keeps _ _ _ _ _ E5) as (A5 & B5 & T5 & N5 & D5 & C5 & _).
    destruct stop'.
    + intros X; inversion X; subst. unfold stranded.
      repeat split; auto; try congruence.
    + destruct B5 as [-> ->]; auto.
      unfold read_blocking, in_state. rewrite S4, S3'. cbn [sl_state_eqb].
      destruct (update_timing N (shift_buffer c3) w3) as [c7 w7] eqn:E7.
      destruct (update_timing_keeps _ _ _ _ E7) as (L7 & T7 & N7 & D7 & _ & _ & _ & _ & P7).
      intros X. apply IH in X.
      * destruct X as [X1 X2']. split; auto.
        rewrite X2', P7, contacts_app, app_nil_r. congruence.
      * unfold stranded. repeat split; try congruence.
        rewrite D7 by congruence. congruence.
Qed.

Lemma stranded_call k c w r c' w' :
  stranded c -> do_call F G N k c w = Some (r, c', w') ->
  stranded c' /\ contacts (trace w') = contacts (trace w).
Proof.
  intros S. destruct k as [fuel|m]; simpl.
  - unfold sl_collect.
    destruct S as (L & T & Z & D).
    pose proof (info_was_set_frame c) as ((L0 & T0 & _ & _ & _ & _ & D0) & _).
    assert (N0 : netdly (info_was_set c) = netdly c).
    { unfold info_was_set. destruct (info c); reflexivity. }
    set (c0 := info_was_set c) in *.
    unfold check_slcd. replace (link c0 =? -1) with true by lia.
    destruct (sl_checkslcd N c0 =? 0) eqn:K; cbn [negb].
    + intros X. apply stranded_primary_loop in X; auto.
      unfold stranded. fields. repeat split; congruence.
    + intros X; inversion X; subst. unfold sl_log_r, emit; cbn [trace].
      rewrite contacts_app, app_nil_r. unfold stranded.
      repeat split; auto; congruence.
  - intros X. inversion X as [X']. destruct S as (L & T & Z & D).
    destruct (down_nb _ _ _ _ _ _ L T D X') as (A & B & E & H & I & _).
    unfold stranded. repeat split; auto; try congruence.
    rewrite H by auto. auto.
Qed.

End Behaviour.

Ltac solve_extends :=
  first [ apply extends_refl
        | eexists; cbn [trace]; rewrite <- ?app_assoc; reflexivity ].

Section Behaviour2.

Variable F : MSeedFormat.
Variable G : GenUtils.
Variable N : Network.

Lemma extends_negotiate c w c' w' : negotiate N c w = (c', w') -> extends N w w'.
Proof.
  unfold negotiate, sl_send_info, sl_configlink, disconnect_link, sl_disconnect,
    sl_log_r, emit.
  intros; repeat break_match; inv_pairs; solve_extends.
Qed.

Lemma extends_read_nb c w c' w' : read_nb N c w = (c', w') -> extends N w w'.
Proof.
  unfold read_nb, recv_into, sl_recvdata, disconnect_link, sl_disconnect.
  intros; repeat break_match; inv_pairs; solve_extends.
Qed.

Lemma extends_stream_stopped c w b c' w' :
  stream_stopped N c w = (b, c', w') -> extends N w w'.
Proof. intros E. apply stream_stopped_keeps in E. tauto. Qed.

Lemma extends_update_timing c w c' w' : update_timing N c w = (c', w') -> extends N w w'.
Proof.
  intros E. apply update_timing_keeps in E.
  destruct E as (_ & _ & _ & _ & _ & _ & _ & _ & P). exists [Dtime]. exact P.
Qed.

(** The tail of sl_collect_nb_size, from the loop over the buffer on. *)
Lemma extends_nb_tail c2 w2 r c' w' :
  match process_buffer F G N c2 w2 with
  | (LoopPacket, c3, w3) => ((SLPACKET, Some (slpack (stat c3))), c3, w3)
  | (LoopTerminate, c3, w3) => ((SLTERMINATE, None), c3, w3)
  | (LoopDone, c3, w3) =>
      if negb (terminate c3 =? 0) then ((SLTERMINATE, None), c3, w3)
      else
        let c4 := shift_buffer c3 in
        let '(stop', c5, w5) := stream_stopped N c4 w3 in
        if stop' then ((SLTERMINATE, None), c5, w5)
        else
          let '(c6, w6) := read_nb N c5 w5 in
          let '(c7, w7) := update_timing N c6 w6 in
          ((SLNOPACKET, None), c7, w7)
  end = (r, c', w') ->
  extends N w2 w'.
Proof.
  destruct (process_buffer F G N c2 w2) as [[ex c3] w3] eqn:E3.
  pose proof (extends_process_buffer F G N _ _ _ _ _ E3) as X3.
  destruct ex; try (intros X; inv_pairs; exact X3).
  destruct (negb (terminate c3 =? 0)); [intros X; inv_pairs; exact X3|].
  cbv zeta.
  destruct (stream_stopped N (shift_buffer c3) w3) as [[stop' c5] w5] eqn:E5.
  pose proof (extends_stream_stopped _ _ _ _ _ E5) as X5.
  destruct stop'; [intros X; inv_pairs; eapply extends_trans; eauto|].
  destruct (read_nb N c5 w5) as [c6 w6] eqn:E6.
  destruct (update_timing N c6 w6) as [c7 w7] eqn:E7.
  intros X; inv_pairs.
  eapply extends_trans; [exact X3|]. eapply extends_trans; [exact X5|].
  eapply extends_trans; [eapply extends_read_nb; eauto|].
  eapply extends_update_timing; eauto.
Qed.

(** The main sequence when the link is down and the delay trigger is at 0:
    the connection is attempted at once. *)
Lemma main_sequence_connects c w c' w' :
  link c = -1 -> netdly_trig (stat c) = 0 ->
  main_sequence N c w = (c', w') ->
  exists tl, trace w' = trace w ++ Connect :: tl.
Proof.
  intros L T. unfold main_sequence, link_down.
  replace (link c =? -1) with true by lia.
  set (c0 := upd_stat (st_sl_state SL_DOWN) c).
  assert (N0 : netto_check N c0 w = (c0, w)) by reflexivity.
  rewrite N0.
  assert (K0 : keepalive_check N c0 w = (c0, w)) by reflexivity.
  rewrite K0.
  assert (I0 : info_check N c0 w = (c0, w)).
  { unfold info_check. destruct (info c0); reflexivity. }
  rewrite I0.
  assert (T0 : throttle N c0 w = (c0, w)).
  { unfold throttle, in_state. subst c0. fields. cbn [sl_state_eqb andb].
    replace (netdly_trig (stat c) >? 0) with false by lia. reflexivity. }
  rewrite T0.
  unfold connect_step, in_state. subst c0. fields. cbn [sl_state_eqb andb].
  replace (netdly_trig (stat c) =? 0) with true by lia.
  unfold sl_connect. cbn [ext trace].
  destruct (w_connect N _ (ext w)) as [[r l] e].
  match goal with
  | |- negotiate N ?c5 ?w5 = _ -> _ =>
      intros E; apply extends_negotiate in E; destruct E as [tl E]
  end.
  cbn [trace] in E. exists tl. rewrite E, <- app_assoc. reflexivity.
Qed.


End Behaviour2.

Section Hang.

Variable F : MSeedFormat.
Variable G : GenUtils.
Variable N : Network.

Lemma nothing_pending_ext c c' :
  databuf (stat c') = databuf (stat c) -> recptr (stat c') = recptr (stat c) ->
  sendptr (stat c') = sendptr (stat c) ->
  nothing_pending c -> nothing_pending c'.
Proof.
  unfold nothing_pending, loop_guard, unread_is. intros -> -> ->. auto.
Qed.

Lemma process_buffer_nothing c w :
  loop_guard (stat c) = false -> process_buffer F G N c w = (LoopDone, c, w).
Proof.
  intros H. pose proof (process_buffer_eq F G N c w) as X.
  unfold loop_fuel in X. simpl in X. rewrite H in X. congruence.
Qed.

Lemma stranded_loop_spins fuel : forall c w,
  stranded c -> nothing_pending c -> primary_loop F G N fuel c w = None.
Proof.
  induction fuel as [|fuel IH]; intros c w (L & T & Z & D) P; [reflexivity|].
  simpl. replace (terminate c =? 0) with true by lia.
  rewrite main_sequence_down by lia.
  set (c2 := upd_stat (st_sl_state SL_DOWN) c).
  set (w2 := if netdly_trig (stat c) >? 0 then slp_usleep N 500000 w else w).
  assert (P2 : nothing_pending c2) by (eapply nothing_pending_ext; [| | |exact P]; reflexivity).
  destruct P2 as (P2g & P2s & P2e & P2n).
  rewrite process_buffer_nothing by exact P2g.
  replace (terminate c2 =? 0) with true by (subst c2; fields; lia). cbn [negb].
  assert (S2 : shift_buffer c2 = c2).
  { unfold shift_buffer. rewrite P2s. reflexivity. }
  rewrite S2. unfold stream_stopped. rewrite P2e, P2n.
  unfold read_blocking, in_state. subst c2. fields. cbn [sl_state_eqb].
  set (c2 := upd_stat (st_sl_state SL_DOWN) c).
  destruct (update_timing N c2 w2) as [c7 w7] eqn:E7.
  destruct (update_timing_keeps N _ _ _ _ E7) as (L7 & T7 & N7 & D7 & _ & B7 & R7 & S7 & _).
  apply IH.
  - unfold stranded. subst c2. fields. rewrite D7 by (fields; lia).
    fields. repeat split; congruence.
  - eapply nothing_pending_ext; [| | |exact P]; subst c2; fields; congruence.
Qed.

End Hang.

(** ** Sequence numbers as a server writes them *)

Lemma hex_val_hex_char d : 0 <= d < 16 -> hex_val (hex_char d) = Some d.
Proof.
  intros H. unfold hex_char, hex_val.
  destruct (d <? 10) eqn:E.
  - replace ((48 <=? 48 + d) && (48 + d <=? 57)) with true by lia. f_equal. lia.
  - replace ((48 <=? 55 + d) && (55 + d <=? 57)) with false by lia.
    replace ((65 <=? 55 + d) && (55 + d <=? 70)) with true by lia. f_equal. lia.
Qed.

Lemma hex_char_range d : 0 <= d < 16 -> 0 <= hex_char d < 256.
Proof. unfold hex_char. destruct (d <? 10); lia. Qed.

Lemma mem_equal_info_signature head :
  mem_equal head INFOSIGNATURE = true -> mem_equal head SIGNATURE = true.
Proof.
  change INFOSIGNATURE with [83; 76; 73; 78; 70; 79].
  change SIGNATURE with [83; 76].
  unfold mem_equal, list_eqb, bytes_at. cbn.
  intros H. apply andb_true_iff in H. destruct H as [A H].
  apply andb_true_iff in H. destruct H as [B _].
  rewrite A, B. reflexivity.
Qed.

Section DetectMore.

Variable F : MSeedFormat.

Lemma blkt_loop_follows record recbuflen swapflag off target :
  leads_to_b1000 F record recbuflen swapflag off target ->
  forall fuel,
    blkt_loop F fuel record recbuflen swapflag off = None
    \/ blkt_loop F fuel record recbuflen swapflag off
       = Some (BlktFound (shl1_int32 (record (target + 6)))).
Proof.
  induction 1 as [off R T B|off target R T Nx _ IH]; intros [|fuel]; auto.
  - right. simpl.
    replace (negb (off =? 0) && (off >? 47) && (off <=? recbuflen)) with true by lia.
    rewrite T. replace ((1000 =? 1000) && (off + 8 <=? recbuflen)) with true by lia.
    reflexivity.
  - simpl.
    replace (negb (off =? 0) && (off >? 47) && (off <=? recbuflen)) with true by lia.
    set (ty := HO2u (rd16 (big_endian_host F) record off) swapflag) in *.
    set (nx := HO2u (rd16 (big_endian_host F) record (off + 2)) swapflag) in *.
    replace ((ty =? 1000) && (off + 8 <=? recbuflen)) with false by lia.
    replace (negb (nx =? 0) && ((nx <? 4) || (nx - 4 <=? off))) with false by lia.
    apply IH.
Qed.

Lemma shl1_int32_pow e : 0 <= e <= 30 -> shl1_int32 e = 2 ^ e.
Proof.
  intros H. unfold shl1_int32. rewrite Z.mod_small by lia. rewrite Z.shiftl_1_l.
  assert (0 < 2 ^ e <= 2 ^ 30).
  { split; [apply Z.pow_pos_nonneg; lia|apply Z.pow_le_mono_r; lia]. }
  apply wrap32s_id. lia.
Qed.

Lemma scan_loop_first fuel : forall record recbuflen k,
  match scan_loop F fuel record recbuflen k with
  | Some (Some r) =>
      exists j, 0 <= j /\ r = k + 64 * j /\ r + 48 < recbuflen
        /\ ms2_header_at F record r = true
        /\ forall j', 0 <= j' < j -> ms2_header_at F record (k + 64 * j') = false
  | Some None =>
      forall j, 0 <= j -> k + 64 * j + 48 < recbuflen ->
        ms2_header_at F record (k + 64 * j) = false
  | None => True
  end.
Proof.
  induction fuel as [|fuel IH]; intros record recbuflen k; cbn [scan_loop]; auto.
  destruct (k + 48 <? recbuflen) eqn:B.
  - fold (ms2_header_at F record k).
    destruct (ms2_header_at F record k) eqn:V.
    + exists 0. replace (k + 64 * 0) with k by lia. repeat split; auto; lia.
    + specialize (IH record recbuflen (k + 64)).
      destruct (scan_loop F fuel record recbuflen (k + 64)) as [[r|]|]; auto.
      * destruct IH as (j & J0 & J1 & J2 & J3 & J4).
        exists (j + 1). repeat split; auto; try lia.
        intros j' Hj. destruct (Z.eq_dec j' 0) as [->|Hz].
        -- replace (k + 64 * 0) with k by lia. exact V.
        -- specialize (J4 (j' - 1) ltac:(lia)).
           replace (k + 64 + 64 * (j' - 1)) with (k + 64 * j') in J4 by lia. exact J4.
      * intros j Hj Hb. destruct (Z.eq_dec j 0) as [->|Hz].
        -- replace (k + 64 * 0) with k by lia. exact V.
        -- specialize (IH (j - 1) ltac:(lia)).
           replace (k + 64 + 64 * (j - 1)) with (k + 64 * j) in IH by lia.
           apply IH. lia.
  - intros j Hj Hb. lia.
Qed.

End DetectMore.

Lemma ntohs_at_range p off : 0 <= ntohs_at p off < 65536.
Proof. apply rd16_range. Qed.

Lemma packettype_loop_total record :
  forward_chain record ->
  forall n off b,
    on_chain record off ->
    (if off <? 0 then 130 else 129 - off) <= Z.of_nat n ->
    packettype_loop (S n) record off b <> None.
Proof.
  intros Hf. induction n as [|n IH]; intros off b Hc Hm.
  - cbn [packettype_loop].
    replace (off >? MAX_HEADER_SIZE) with true by (unfold MAX_HEADER_SIZE; destruct (off <? 0) eqn:E; lia).
    discriminate.
  - cbn [packettype_loop].
    destruct (off >? MAX_HEADER_SIZE) eqn:E1; [discriminate|].
    repeat (match goal with |- context [if ?b then Some _ else _] => destruct b; [discriminate|] end).
    set (nx := ntohs_at record (off + 2)) in *.
    destruct (negb (nx =? 0)) eqn:E2; [|discriminate].
    apply IH.
    { apply chain_next; [exact Hc|]. fold nx. lia. }
    pose proof (ntohs_at_range record (off + 2)) as R. fold nx in R.
    replace (nx <? 0) with false by lia.
    destruct (off <? 0) eqn:E3; [lia|].
    destruct (Hf off Hc ltac:(unfold MAX_HEADER_SIZE in *; lia)) as [X|X]; fold nx in X; lia.
Qed.

Lemma packettype_loop_more_fuel record : forall n off b r,
  packettype_loop n record off b = Some r ->
  forall k, packettype_loop (n + k) record off b = Some r.
Proof.
  induction n as [|n IH]; intros off b r H k; [discriminate|].
  cbn [packettype_loop Nat.add] in *.
  repeat (match goal with
          | H : (if ?c then Some _ else _) = Some _ |- _ =>
              destruct c; [exact H|]
          end).
  destruct (negb (ntohs_at record (off + 2) =? 0)); [|exact H].
  apply IH. exact H.
Qed.

Lemma packettype_loop_returns record : forall n off b t,
  packettype_loop n record off b = Some (WalkReturn t) ->
  t = SLNUM \/ t = SLDET \/ t = SLCAL \/ t = SLTIM.
Proof.
  induction n as [|n IH]; intros off b t H; [discriminate|].
  cbn [packettype_loop] in H.
  repeat (match goal with
          | H : (if ?c then Some _ else _) = Some _ |- _ =>
              destruct c; [inversion H; subst; auto|]
          end).
  destruct (negb (ntohs_at record (off + 2) =? 0)); [|discriminate].
  eapply IH; eauto.
Qed.

Lemma packettype_loop_self record off b :
  0 <= off <= MAX_HEADER_SIZE -> off <> 0 ->
  marker_type (ntohs_at record off) = false ->
  ntohs_at record (off + 2) = off ->
  forall n, packettype_loop n record off b = None.
Proof.
  intros R Nz M S n. revert b.
  induction n as [|n IH]; intros b; [reflexivity|].
  cbn [packettype_loop]. rewrite S.
  replace (off >? MAX_HEADER_SIZE) with false by lia.
  unfold marker_type in M.
  apply orb_false_iff in M. destruct M as [M M3].
  apply orb_false_iff in M. destruct M as [M1 M2].
  rewrite M1, M2, M3.
  replace (negb (off =? 0)) with true by lia.
  apply IH.
Qed.

Lemma string_firstn_length n : forall s, (String.length (string_firstn n s) <= n)%nat.
Proof.
  induction n as [|n IH]; intros [|a s]; simpl; try lia.
  specialize (IH s). lia.
Qed.

Lemma spaces_length n : String.length (spaces n) = n.
Proof. induction n; simpl; congruence. Qed.

Lemma pad_right_length w s :
  (String.length s <= w)%nat -> String.length (pad_right w s) = w.
Proof.
  intros H. unfold pad_right. rewrite string_length_app, spaces_length. lia.
Qed.

Lemma strtoul_hex_six c0 c1 c2 c3 c4 c5 d0 d1 d2 d3 d4 d5 :
  is_hex c0 = true -> is_hex c1 = true ->
  hex_val c0 = Some d0 -> hex_val c1 = Some d1 -> hex_val c2 = Some d2 ->
  hex_val c3 = Some d3 -> hex_val c4 = Some d4 -> hex_val c5 = Some d5 ->
  0 <= d0 < 16 -> 0 <= d1 < 16 -> 0 <= d2 < 16 ->
  0 <= d3 < 16 -> 0 <= d4 < 16 -> 0 <= d5 < 16 ->
  strtoul_hex [c0; c1; c2; c3; c4; c5]
  = ((((d0 * 16 + d1) * 16 + d2) * 16 + d3) * 16 + d4) * 16 + d5.
Proof.
  intros I0 I1 V0 V1 V2 V3 V4 V5 R0 R1 R2 R3 R4 R5.
  destruct (hex_val_spec _ I0) as (x0 & _ & _ & Sp0 & _ & Mi0 & Pl0 & _).
  destruct (hex_val_spec _ I1) as (x1 & _ & _ & _ & _ & _ & _ & Lx1 & Ux1 & _).
  unfold strtoul_hex. cbn [skip_spaces]. rewrite Sp0, Mi0, Pl0, Lx1, Ux1.
  cbn [orb]. rewrite andb_false_r. cbn [andb].
  cbn [hex_digits]. rewrite V0, V1, V2, V3, V4, V5.
  replace (0 * 16 + d0) with d0 by lia.
  set (v := ((((d0 * 16 + d1) * 16 + d2) * 16 + d3) * 16 + d4) * 16 + d5).
  assert (0 <= v < 16777216) by (subst v; lia).
  unfold ULONG_MAX. replace (v >? 2 ^ 64 - 1) with false by lia. reflexivity.
Qed.

Lemma strtoul_hex_hex6 n : 0 <= n < 16777216 -> strtoul_hex (hex6 n) = n.
Proof.
  intros Hn. unfold hex6. cbn [map].
  set (d0 := (n / 16 ^ 5) mod 16). set (d1 := (n / 16 ^ 4) mod 16).
  set (d2 := (n / 16 ^ 3) mod 16). set (d3 := (n / 16 ^ 2) mod 16).
  set (d4 := (n / 16 ^ 1) mod 16). set (d5 := (n / 16 ^ 0) mod 16).
  assert (R0 : 0 <= d0 < 16) by (apply Z.mod_pos_bound; lia).
  assert (R1 : 0 <= d1 < 16) by (apply Z.mod_pos_bound; lia).
  assert (R2 : 0 <= d2 < 16) by (apply Z.mod_pos_bound; lia).
  assert (R3 : 0 <= d3 < 16) by (apply Z.mod_pos_bound; lia).
  assert (R4 : 0 <= d4 < 16) by (apply Z.mod_pos_bound; lia).
  assert (R5 : 0 <= d5 < 16) by (apply Z.mod_pos_bound; lia).
  rewrite (strtoul_hex_six _ _ _ _ _ _ d0 d1 d2 d3 d4 d5);
    try (apply hex_val_hex_char; assumption); try assumption;
    try (unfold is_hex; rewrite hex_val_hex_char by assumption; reflexivity).
  subst d0 d1 d2 d3 d4 d5. clear - Hn.
  change (16 ^ 5) with 1048576. change (16 ^ 4) with 65536.
  change (16 ^ 3) with 4096. change (16 ^ 2) with 256.
  change (16 ^ 1) with 16. change (16 ^ 0) with 1.
  rewrite (Z.mod_small (n / 1048576) 16)
    by (split; [apply Z.div_pos; lia|apply Z.div_lt_upper_bound; lia]).
  rewrite Z.div_1_r.
  assert (E4 : n / 65536 = 16 * (n / 1048576) + (n / 65536) mod 16).
  { replace 1048576 with (65536 * 16) by reflexivity. rewrite <- Z.div_div by lia.
    apply Z.div_mod. lia. }
  assert (E3 : n / 4096 = 16 * (n / 65536) + (n / 4096) mod 16).
  { replace 65536 with (4096 * 16) by reflexivity. rewrite <- Z.div_div by lia.
    apply Z.div_mod. lia. }
  assert (E2 : n / 256 = 16 * (n / 4096) + (n / 256) mod 16).
  { replace 4096 with (256 * 16) by reflexivity. rewrite <- Z.div_div by lia.
    apply Z.div_mod. lia. }
  assert (E1 : n / 16 = 16 * (n / 256) + (n / 16) mod 16).
  { replace 256 with (16 * 16) by reflexivity. rewrite <- Z.div_div by lia.
    apply Z.div_mod. lia. }
  pose proof (Z.div_mod n 16). lia.
Qed.

Section Behaviour3.

Variable F : MSeedFormat.
Variable G : GenUtils.
Variable N : Network.

Lemma contacts_terminating final c w c' w' :
  terminating N final c w = (c', w') -> contacts (trace w') = contacts (trace w).
Proof.
  unfold terminating, disconnect_link, sl_disconnect.
  intros; repeat break_match; inv_pairs; cbn [trace];
    rewrite ?contacts_app, ?app_nil_r; reflexivity.
Qed.

(** One pass of either function once the terminate flag is set. *)
Lemma terminating_pass final c w :
  terminate c <> 0 ->
  let '(c2, w2) := terminating N final c w in
  exists ex c3 w3,
    process_buffer F G N c2 w2 = (ex, c3, w3)
    /\ link c3 = -1 /\ terminate c3 <> 0
    /\ contacts (trace w3) = contacts (trace w).
Proof.
  intros T. destruct (terminating N final c w) as [c2 w2] eqn:E2.
  pose proof (terminating_closed N _ _ _ _ _ E2) as (L2 & T2 & _).
  pose proof (contacts_terminating _ _ _ _ _ E2) as C2.
  destruct (process_buffer F G N c2 w2) as [[ex c3] w3] eqn:E3.
  pose proof (process_buffer_frame F G N _ _ _ _ _ E3) as ((L3 & T3 & _) & _ & C3).
  exists ex, c3, w3. repeat split; congruence.
Qed.

Lemma info_tail_keeps c3 w3 (r : result) c' w' :
  (let c4 := shift_buffer c3 in
   let '(stop', c5, w5) := stream_stopped N c4 w3 in
   if stop' then ((SLTERMINATE, @None SLpacket), c5, w5)
   else
     let '(c6, w6) := read_nb N c5 w5 in
     let '(c7, w7) := update_timing N c6 w6 in
     ((SLNOPACKET, @None SLpacket), c7, w7)) = (r, c', w') ->
  info c' = info c3.
Proof.
  cbv zeta.
  assert (A : info (shift_buffer c3) = info c3).
  { unfold shift_buffer. break_match; reflexivity. }
  destruct (stream_stopped N (shift_buffer c3) w3) as [[stop' c5] w5] eqn:E5.
  assert (B : info c5 = info (shift_buffer c3)).
  { revert E5. unfold stream_stopped, disconnect_link, sl_disconnect.
    intros; repeat break_match; inv_pairs; reflexivity. }
  destruct stop'; [intros X; inv_pairs; congruence|].
  destruct (read_nb N c5 w5) as [c6 w6] eqn:E6.
  assert (D : info c6 = info c5).
  { revert E6. unfold read_nb, recv_into, sl_recvdata, disconnect_link, sl_disconnect,
      data_is_here.
    intros; repeat break_match; inv_pairs; reflexivity. }
  destruct (update_timing N c6 w6) as [c7 w7] eqn:E7.
  assert (E : info c7 = info c6).
  { revert E7. unfold update_timing, sl_dtime, netdly_timer, keepalive_timer, netto_timer.
    intros; repeat break_match; inv_pairs; reflexivity. }
  intros X; inv_pairs. congruence.
Qed.

End Behaviour3.

Lemma firstn_app_exact (a b : list Z) (n : nat) :
  List.length a = n -> firstn n (a ++ b) = a.
Proof.
  intros <-. rewrite firstn_app, firstn_all, Nat.sub_diag. simpl. apply app_nil_r.
Qed.

Lemma shift_buffer_unread c :
  cursors_ok (stat c) -> Z.of_nat (List.length (databuf (stat c))) = BUFSIZE ->
  sendptr (stat (shift_buffer c)) = 0
  /\ recptr (stat (shift_buffer c)) = recptr (stat c) - sendptr (stat c)
  /\ List.length (databuf (stat (shift_buffer c))) = List.length (databuf (stat c))
  /\ firstn (Z.to_nat (recptr (stat c) - sendptr (stat c))) (databuf (stat (shift_buffer c)))
     = unread (stat c)
  /\ sl_state (stat (shift_buffer c)) = sl_state (stat c).
Proof.
  intros H L. pose proof (len_shift_buffer c H L) as Ls.
  unfold shift_buffer, cursors_ok, BUFSIZE, unread in *.
  destruct (negb (sendptr (stat c) =? 0)) eqn:E; fields.
  - unfold int_sub in *. rewrite wrap32s_id in * by lia.
    split; [reflexivity|]. split; [reflexivity|]. split; [exact Ls|].
    split; [|reflexivity]. unfold memmove_front.
    apply firstn_app_exact. rewrite length_firstn, length_skipn. lia.
  - replace (sendptr (stat c)) with 0 by lia.
    split; [reflexivity|]. split; [lia|]. split; [reflexivity|].
    split; [|reflexivity]. rewrite Z.sub_0_r. reflexivity.
Qed.

(** ** A call made while the handle is closed *)

Section ClosedHandle.

Variable F : MSeedFormat.
Variable G : GenUtils.
Variable N : Network.

Lemma extends_main_sequence c w c' w' : main_sequence N c w = (c', w') -> extends N w w'.
Proof.
  unfold main_sequence. intros E.
  destruct (netto_check N (link_down c) w) as [c1 w1] eqn:E1.
  assert (X1 : extends N w w1).
  { revert E1. unfold netto_check, disconnect_link, sl_disconnect, sl_log_r, emit.
    intros; repeat break_match; inv_pairs; solve_extends. }
  destruct (keepalive_check N c1 w1) as [c2 w2] eqn:E2.
  assert (X2 : extends N w1 w2).
  { revert E2. unfold keepalive_check, sl_send_info, sl_log_r, emit.
    intros; repeat break_match; inv_pairs; solve_extends. }
  destruct (info_check N c2 w2) as [c3 w3] eqn:E3.
  assert (X3 : extends N w2 w3).
  { revert E3. unfold info_check, sl_send_info.
    intros; repeat break_match; inv_pairs; solve_extends. }
  destruct (throttle N c3 w3) as [c4 w4] eqn:E4.
  assert (X4 : extends N w3 w4).
  { revert E4. unfold throttle, slp_usleep.
    intros; repeat break_match; inv_pairs; solve_extends. }
  destruct (connect_step N c4 w4) as [c5 w5] eqn:E5.
  assert (X5 : extends N w4 w5).
  { revert E5. unfold connect_step, sl_connect.
    intros; repeat break_match; inv_pairs; solve_extends. }
  pose proof (extends_negotiate N _ _ _ _ E) as X6.
  repeat (eapply extends_trans; [eassumption|]). apply extends_refl.
Qed.

Lemma extends_terminating final c w c' w' :
  terminating N final c w = (c', w') -> extends N w w'.
Proof.
  unfold terminating, disconnect_link, sl_disconnect.
  intros; repeat break_match; inv_pairs; solve_extends.
Qed.

Lemma extends_check_slcd c w b c' w' : check_slcd N c w = (b, c', w') -> extends N w w'.
Proof.
  unfold check_slcd, sl_log_r, emit.
  intros; repeat break_match; inv_pairs; solve_extends.
Qed.

Lemma extends_read_blocking c w c' w' : read_blocking N c w = (c', w') -> extends N w w'.
Proof.
  unfold read_blocking, select_link, recv_into, sl_recvdata, disconnect_link, sl_disconnect,
    sl_log_r, emit.
  intros; repeat break_match; inv_pairs; solve_extends.
Qed.

Lemma extends_nb c m w r c' w' :
  sl_collect_nb_size F G N c m w = (r, c', w') -> extends N w w'.
Proof.
  unfold sl_collect_nb_size.
  destruct (check_slcd N (info_was_set c) w) as [[stop c1] w1] eqn:E1.
  pose proof (extends_check_slcd _ _ _ _ _ E1) as X1.
  destruct stop; [intros X; inv_pairs; exact X1|].
  destruct (if terminate c1 =? 0 then main_sequence N c1 w1 else terminating N SL_DATA c1 w1)
    as [c2 w2] eqn:E2.
  assert (X2 : extends N w1 w2).
  { destruct (terminate c1 =? 0);
      [eapply extends_main_sequence|eapply extends_terminating]; eauto. }
  intros X. apply (extends_nb_tail F G N) in X.
  eapply extends_trans; [exact X1|]. eapply extends_trans; eauto.
Qed.

Lemma extends_primary_loop fuel : forall c w r c' w',
  primary_loop F G N fuel c w = Some (r, c', w') -> extends N w w'.
Proof.
  induction fuel as [|fuel IH]; intros c w r c' w'; [discriminate|]. simpl.
  destruct (if terminate c =? 0 then main_sequence N c w else terminating N SL_DOWN c w)
    as [c2 w2] eqn:E2.
  assert (X2 : extends N w w2).
  { destruct (terminate c =? 0);
      [eapply extends_main_sequence|eapply extends_terminating]; eauto. }
  destruct (process_buffer F G N c2 w2) as [[ex c3] w3] eqn:E3.
  pose proof (extends_process_buffer F G N _ _ _ _ _ E3) as X3.
  assert (X23 : extends N w w3) by (eapply extends_trans; eauto).
  destruct ex; try (intros X; inversion X; subst; exact X23).
  destruct (negb (terminate c3 =? 0)); [intros X; inversion X; subst; exact X23|].
  destruct (stream_stopped N (shift_buffer c3) w3) as [[stop' c5] w5] eqn:E5.
  pose proof (extends_stream_stopped N _ _ _ _ _ E5) as X5.
  destruct stop'; [intros X; inversion X; subst; eapply extends_trans; eauto|].
  destruct (read_blocking N c5 w5) as [c6 w6] eqn:E6.
  pose proof (extends_read_blocking _ _ _ _ E6) as X6.
  destruct (update_timing N c6 w6) as [c7 w7] eqn:E7.
  pose proof (extends_update_timing N _ _ _ _ E7) as X7.
  intros X. apply IH in X.
  eapply extends_trans; [exact X23|]. eapply extends_trans; [exact X5|].
  eapply extends_trans; [exact X6|]. eapply extends_trans; eauto.
Qed.

Lemma connects_first_quiet w w' :
  extends N w w' -> contacts (trace w') = contacts (trace w) -> connects_first N w w'.
Proof.
  intros [tl E] C. exists tl. split; [exact E|].
  rewrite E, contacts_app in C.
  assert (X : contacts tl = []).
  { apply (app_inv_head (contacts (trace w))). rewrite app_nil_r. exact C. }
  rewrite X. exact I.
Qed.

Lemma connects_first_prefix w w1 w' :
  extends N w w1 -> contacts (trace w1) = contacts (trace w) ->
  connects_first N w1 w' -> connects_first N w w'.
Proof.
  intros [pre E] C (tl & E' & H).
  rewrite E, contacts_app in C.
  assert (X : contacts pre = []).
  { apply (app_inv_head (contacts (trace w))). rewrite app_nil_r. exact C. }
  exists (pre ++ tl). split.
  - rewrite E', E, app_assoc. reflexivity.
  - rewrite contacts_app, X. exact H.
Qed.

Lemma connects_first_connected w w1 w' :
  (exists tl, trace w1 = trace w ++ Connect :: tl) -> extends N w1 w' ->
  connects_first N w w'.
Proof.
  intros [tl E] [tl' E']. exists (Connect :: tl ++ tl'). split.
  - rewrite E', E, <- app_assoc. reflexivity.
  - reflexivity.
Qed.

(** A call of sl_collect_nb_size made with the terminate flag set makes no
    contact with the server. *)
Lemma flagged_nb_contacts c m w r c' w' :
  terminate c <> 0 -> sl_collect_nb_size F G N c m w = (r, c', w') ->
  contacts (trace w') = contacts (trace w).
Proof.
  intros T. unfold sl_collect_nb_size.
  pose proof (info_was_set_frame c) as ((L0 & T0 & _) & _).
  destruct (check_slcd_cases N (info_was_set c) w) as [(L & K & E)|(c1 & E & _ & Fr & _)];
    rewrite E.
  - intros X; inv_pairs. unfold sl_log_r, emit; cbn [trace].
    rewrite contacts_app, app_nil_r. reflexivity.
  - destruct Fr as (_ & T1 & _).
    replace (terminate c1 =? 0) with false by lia.
    pose proof (terminating_pass F G N SL_DATA c1 w ltac:(congruence)) as P.
    destruct (terminating N SL_DATA c1 w) as [c2 w2].
    destruct P as (ex & c3 & w3 & E3 & L3 & T3 & C3). rewrite E3.
    destruct ex; try (intros X; inv_pairs; exact C3).
    replace (terminate c3 =? 0) with false by lia. cbn [negb].
    intros X; inv_pairs; exact C3.
Qed.

Lemma closed_nb c m w r c' w' :
  link c = -1 -> sl_collect_nb_size F G N c m w = (r, c', w') -> connects_first N w w'.
Proof.
  intros L E. pose proof (extends_nb _ _ _ _ _ _ E) as X.
  destruct (Z.eq_dec (terminate c) 0) as [T|T].
  - destruct (Z.eq_dec (netdly_trig (stat c)) 0) as [D|D].
    + revert E. unfold sl_collect_nb_size.
      pose proof (info_was_set_frame c) as ((L0 & T0 & _ & _ & _ & _ & D0) & _).
      destruct (check_slcd_cases N (info_was_set c) w) as [(_ & K & E)|(c1 & E & _ & Fr & _)];
        rewrite E.
      * intros Y; inv_pairs. apply connects_first_quiet; [exact X|].
        unfold sl_log_r, emit; cbn [trace]. rewrite contacts_app, app_nil_r. reflexivity.
      * destruct Fr as (L1 & T1 & _ & _ & _ & _ & D1).
        replace (terminate c1 =? 0) with true by lia.
        destruct (main_sequence N c1 w) as [c2 w2] eqn:E2.
        pose proof (main_sequence_connects N c1 w c2 w2 ltac:(congruence) ltac:(congruence) E2)
          as Hc.
        intros Y. apply (extends_nb_tail F G N) in Y.
        eapply connects_first_connected; eauto.
    + apply connects_first_quiet; [exact X|].
      destruct (down_nb F G N _ _ _ _ _ _ L T D E) as (_ & _ & _ & _ & Q & _). exact Q.
  - apply connects_first_quiet; [exact X|]. eapply flagged_nb_contacts; eauto.
Qed.

Lemma closed_primary_loop fuel : forall c w r c' w',
  link c = -1 -> primary_loop F G N fuel c w = Some (r, c', w') -> connects_first N w w'.
Proof.
  induction fuel as [|fuel IH]; intros c w r c' w' L E; [discriminate|].
  pose proof (extends_primary_loop _ _ _ _ _ _ E) as X.
  revert E. simpl.
  destruct (Z.eq_dec (terminate c) 0) as [T|T].
  - replace (terminate c =? 0) with true by lia.
    destruct (Z.eq_dec (netdly_trig (stat c)) 0) as [D|D].
    + destruct (main_sequence N c w) as [c2 w2] eqn:E2.
      pose proof (main_sequence_connects N c w c2 w2 L D E2) as Hc.
      intros E.
      assert (X2 : extends N w2 w').
      { revert E.
        destruct (process_buffer F G N c2 w2) as [[ex c3] w3] eqn:E3.
        pose proof (extends_process_buffer F G N _ _ _ _ _ E3) as X3.
        destruct ex; try (intros Y; inversion Y; subst; exact X3).
        destruct (negb (terminate c3 =? 0)); [intros Y; inversion Y; subst; exact X3|].
        destruct (stream_stopped N (shift_buffer c3) w3) as [[stop' c5] w5] eqn:E5.
        pose proof (extends_stream_stopped N _ _ _ _ _ E5) as X5.
        destruct stop'; [intros Y; inversion Y; subst; eapply extends_trans; eauto|].
        destruct (read_blocking N c5 w5) as [c6 w6] eqn:E6.
        pose proof (extends_read_blocking _ _ _ _ E6) as X6.
        destruct (update_timing N c6 w6) as [c7 w7] eqn:E7.
        pose proof (extends_update_timing N _ _ _ _ E7) as X7.
        intros Y. apply extends_primary_loop in Y.
        eapply extends_trans; [exact X3|]. eapply extends_trans; [exact X5|].
        eapply extends_trans; [exact X6|]. eapply extends_trans; eauto. }
      eapply connects_first_connected; eauto.
    + rewrite main_sequence_down by assumption.
      set (c2 := upd_stat (st_sl_state SL_DOWN) c).
      set (w2 := if netdly_trig (stat c) >? 0 then slp_usleep N 500000 w else w).
      assert (X2 : extends N w w2 /\ contacts (trace w2) = contacts (trace w)).
      { subst w2. destruct (netdly_trig (stat c) >? 0).
        - split; [exists [Sleep 500000]; reflexivity|].
          unfold slp_usleep; cbn [trace]. rewrite contacts_app, app_nil_r. reflexivity.
        - split; [apply extends_refl|reflexivity]. }
      destruct X2 as [X2 C2].
      destruct (process_buffer F G N c2 w2) as [[ex c3] w3] eqn:E3.
      pose proof (process_buffer_frame F G N _ _ _ _ _ E3)
        as ((L3 & T3 & _ & _ & _ & S3 & _) & _ & C3).
      pose proof (extends_process_buffer F G N _ _ _ _ _ E3) as X3.
      assert (B3 : link c3 = -1 /\ terminate c3 = 0 /\ sl_state (stat c3) = SL_DOWN).
      { subst c2. fields. repeat split; congruence. }
      destruct B3 as (L3' & T3' & S3').
      destruct ex; try (intros Y; inversion Y; subst;
                        apply connects_first_quiet; [exact X|congruence]).
      replace (terminate c3 =? 0) with true by lia. cbn [negb].
      destruct (shift_buffer_keeps c3) as (L4 & T4 & _ & _ & S4).
      destruct (stream_stopped N (shift_buffer c3) w3) as [[stop' c5] w5] eqn:E5.
      destruct (stream_stopped_keeps N _ _ _ _ _ E5) as (A5 & B5 & T5 & _ & _ & C5 & X5).
      destruct stop'.
      * intros Y; inversion Y; subst. apply connects_first_quiet; [exact X|congruence].
      * destruct B5 as [-> ->]; auto.
        unfold read_blocking, in_state. rewrite S4, S3'. cbn [sl_state_eqb].
        destruct (update_timing N (shift_buffer c3) w3) as [c7 w7] eqn:E7.
        destruct (update_timing_keeps N _ _ _ _ E7) as (L7 & _ & _ & _ & _ & _ & _ & _ & P7).
        intros Y. apply IH in Y; [|congruence].
        eapply connects_first_prefix; [| |exact Y].
        -- eapply extends_trans; [exact X2|]. eapply extends_trans; [exact X3|].
           exists [Dtime]. exact P7.
        -- rewrite P7, contacts_app, app_nil_r. congruence.
  - replace (terminate c =? 0) with false by lia.
    pose proof (terminating_pass F G N SL_DOWN c w T) as P.
    destruct (terminating N SL_DOWN c w) as [c2 w2].
    destruct P as (ex & c3 & w3 & E3 & L3 & T3 & C3). rewrite E3.
    destruct ex; try (intros Y; inversion Y; subst; apply connects_first_quiet; assumption).
    replace (terminate c3 =? 0) with false by lia. cbn [negb].
    intros Y; inversion Y; subst; apply connects_first_quiet; assumption.
Qed.

(** A collect call made while the handle is closed sends nothing to the
    server and reads nothing from it before it has called sl_connect. *)
Lemma closed_call k c w r c' w' :
  link c = -1 -> do_call F G N k c w = Some (r, c', w') -> connects_first N w w'.
Proof.
  intros L. destruct k as [fuel|m]; simpl.
  - unfold sl_collect.
    pose proof (info_was_set_frame c) as ((L0 & _) & _).
    destruct (check_slcd_cases N (info_was_set c) w) as [(_ & K & E)|(c1 & E & _ & Fr & _)];
      rewrite E.
    + intros Y; inversion Y; subst. exists [Log 2 0 "problems with the connection description\n"].
      split; reflexivity.
    + destruct Fr as (L1 & _). apply closed_primary_loop. congruence.
  - intros Y. inversion Y. eapply closed_nb; eauto.
Qed.

End ClosedHandle.

(** ** Termination that comes back at every call *)

Section Held.

Variable F : MSeedFormat.
Variable G : GenUtils.
Variable N : Network.

(** The main sequence of a quiet session in state Data does nothing. *)
Lemma main_sequence_quiet c w : quiet_in_data c -> main_sequence N c w = (c, w).
Proof.
  intros (T & L & S & I & To & K). unfold main_sequence, link_down.
  replace (link c =? -1) with false by lia.
  assert (N0 : netto_check N c w = (c, w)).
  { unfold netto_check, in_state. rewrite S. cbn [sl_state_eqb andb].
    replace (negb (netto c =? 0) && (netto_trig (stat c) >? 0)) with false by lia.
    reflexivity. }
  rewrite N0.
  assert (K0 : keepalive_check N c w = (c, w)).
  { unfold keepalive_check, in_state. rewrite S. cbn [sl_state_eqb andb].
    replace ((expect_info (stat c) =? 0) && negb (keepalive c =? 0)
             && (keepalive_trig (stat c) >? 0)) with false by lia.
    reflexivity. }
  rewrite K0.
  assert (I0 : info_check N c w = (c, w)).
  { unfold info_check, in_state. rewrite S. cbn [sl_state_eqb andb].
    destruct (info c) as [level|]; [|reflexivity].
    destruct I as [I|I]; [discriminate|].
    replace (expect_info (stat c) =? 0) with false by lia. reflexivity. }
  rewrite I0.
  unfold throttle, in_state. rewrite S. cbn [sl_state_eqb andb].
  unfold connect_step, in_state. rewrite S. cbn [sl_state_eqb andb].
  unfold negotiate, in_state. rewrite S. reflexivity.
Qed.

Lemma garbage_held_ext c c' :
  terminate c' = terminate c -> link c' = link c -> info c' = info c ->
  netto c' = netto c -> keepalive c' = keepalive c ->
  sl_state (stat c') = sl_state (stat c) ->
  expect_info (stat c') = expect_info (stat c) ->
  netto_trig (stat c') = netto_trig (stat c) ->
  keepalive_trig (stat c') = keepalive_trig (stat c) ->
  databuf (stat c') = databuf (stat c) -> recptr (stat c') = recptr (stat c) ->
  sendptr (stat c') = sendptr (stat c) ->
  garbage_held F c -> garbage_held F c'.
Proof.
  unfold garbage_held, quiet_in_data, loop_guard, packet_len.
  intros -> -> -> -> -> -> -> -> -> -> -> ->. auto.
Qed.

(** The loop over the buffer when the bytes at the read cursor are no
    miniSEED record. *)
Lemma garbage_loop c w :
  loop_guard (stat c) = true -> packet_len F (stat c) < 0 ->
  process_buffer F G N c w
  = (LoopTerminate,
     upd_stat (st_slpack {| slhead := Some (sendptr (stat c));
                            msrecord := Some (int_add (sendptr (stat c)) SLHEADSIZE);
                            reclen := packet_len F (stat c) |}) c,
     sl_log_r N 2 0 "%s(): non-miniSEED packet received!?! Terminating.\n" w).
Proof.
  intros Hg Hl. pose proof (process_buffer_eq F G N c w) as X.
  unfold loop_fuel in X. cbn [process_loop] in X. rewrite Hg in X.
  unfold loop_body in X. replace (packet_len F (stat c) <? 0) with true in X by lia.
  inversion X. reflexivity.
Qed.

Lemma garbage_pass c w :
  garbage_held F c ->
  exists c' w',
    process_buffer F G N (fst (main_sequence N c w)) (snd (main_sequence N c w))
    = (LoopTerminate, c', w')
    /\ garbage_held F c' /\ ext w' = ext w /\ contacts (trace w') = contacts (trace w).
Proof.
  intros H. pose proof H as (Q & Hg & Hl).
  rewrite (main_sequence_quiet c w Q). cbn [fst snd].
  rewrite (garbage_loop c w Hg Hl).
  do 2 eexists. split; [reflexivity|]. split.
  - eapply garbage_held_ext; [..|exact H]; reflexivity.
  - unfold sl_log_r, emit; cbn [ext trace]. rewrite contacts_app, app_nil_r. auto.
Qed.

Lemma garbage_info_was_set c : garbage_held F c -> garbage_held F (info_was_set c).
Proof.
  intros H. eapply garbage_held_ext; [..|exact H];
    unfold info_was_set; destruct (info c) eqn:E; fields; auto.
Qed.

Lemma garbage_nb c m w :
  garbage_held F c ->
  exists c' w',
    sl_collect_nb_size F G N c m w = ((SLTERMINATE, None), c', w')
    /\ garbage_held F c' /\ ext w' = ext w /\ contacts (trace w') = contacts (trace w).
Proof.
  intros H. apply garbage_info_was_set in H.
  pose proof H as ((T & L & _) & _).
  unfold sl_collect_nb_size, check_slcd.
  replace (link (info_was_set c) =? -1) with false by lia.
  replace (terminate (info_was_set c) =? 0) with true by lia.
  destruct (garbage_pass (info_was_set c) w H) as (c' & w' & E & R).
  destruct (main_sequence N (info_was_set c) w) as [c2 w2]. cbn [fst snd] in E.
  rewrite E. exists c', w'. split; [reflexivity|exact R].
Qed.

Lemma garbage_blocking c n w :
  garbage_held F c ->
  exists c' w',
    sl_collect F G N (S n) c w = Some ((SLTERMINATE, None), c', w')
    /\ garbage_held F c' /\ ext w' = ext w /\ contacts (trace w') = contacts (trace w).
Proof.
  intros H. apply garbage_info_was_set in H.
  pose proof H as ((T & L & _) & _).
  unfold sl_collect, check_slcd.
  replace (link (info_was_set c) =? -1) with false by lia.
  cbn [primary_loop].
  replace (terminate (info_was_set c) =? 0) with true by lia.
  destruct (garbage_pass (info_was_set c) w H) as (c' & w' & E & R).
  destruct (main_sequence N (info_was_set c) w) as [c2 w2]. cbn [fst snd] in E.
  rewrite E. exists c', w'. split; [reflexivity|exact R].
Qed.

Lemma garbage_calls ks : forall c w,
  garbage_held F c -> Forall has_fuel ks ->
  exists c' w',
    do_calls F G N ks c w = Some (map (fun _ => (SLTERMINATE, None)) ks, c', w')
    /\ garbage_held F c' /\ ext w' = ext w /\ contacts (trace w') = contacts (trace w).
Proof.
  induction ks as [|k ks IH]; intros c w Hg Hf.
  - simpl. eauto 10.
  - inversion Hf as [|? ? Hk Hks]; subst. simpl.
    assert (exists c1 w1, do_call F G N k c w = Some ((SLTERMINATE, None), c1, w1)
              /\ garbage_held F c1 /\ ext w1 = ext w
              /\ contacts (trace w1) = contacts (trace w)) as (c1 & w1 & E & T1 & X1 & X2).
    { destruct k as [fuel|m]; simpl in *.
      - destruct fuel as [|n]; [lia|]. apply garbage_blocking; auto.
      - destruct (garbage_nb c m w Hg) as (c1 & w1 & E & R). rewrite E. eauto. }
    rewrite E. destruct (IH c1 w1 T1 Hks) as (c2 & w2 & E2 & T2 & Y1 & Y2).
    rewrite E2. exists c2, w2. repeat split; try apply T2; congruence.
Qed.

End Held.

Section HeldLine.

Variable F : MSeedFormat.
Variable G : GenUtils.
Variable N : Network.

Lemma line_held_ext c c' :
  link c' = link c -> terminate c' = terminate c ->
  netdly_trig (stat c') = netdly_trig (stat c) ->
  databuf (stat c') = databuf (stat c) -> recptr (stat c') = recptr (stat c) ->
  sendptr (stat c') = sendptr (stat c) ->
  line_held c -> line_held c'.
Proof.
  unfold line_held, unread_is. intros -> -> -> -> -> ->. auto.
Qed.

Lemma line_no_packet c :
  unread_is c ERROR_LINE = true \/ unread_is c END_LINE = true ->
  loop_guard (stat c) = false.
Proof.
  unfold unread_is, loop_guard, SLHEADSIZE, SLRECSIZEMIN.
  intros [H|H]; apply andb_true_iff in H; destruct H as [H _]; cbn in H; lia.
Qed.

Lemma stream_stopped_line c w :
  unread_is c ERROR_LINE = true \/ unread_is c END_LINE = true ->
  exists w',
    stream_stopped N c w = (true, set_link (set_link c (-1)) (-1), w')
    /\ contacts (trace w') = contacts (trace w).
Proof.
  unfold stream_stopped, disconnect_link, sl_disconnect, sl_log_r, emit.
  intros [U|U].
  - rewrite U. eexists. split; [reflexivity|].
    cbn [trace]. rewrite !contacts_app. cbn [contacts filter is_contact].
    rewrite !app_nil_r. reflexivity.
  - rewrite U. destruct (unread_is c ERROR_LINE);
      (eexists; split; [reflexivity|];
       cbn [trace]; rewrite !contacts_app; cbn [contacts filter is_contact];
       rewrite !app_nil_r; reflexivity).
Qed.

(** One pass of either collect function on a session that holds the line:
    the line is found again. *)
Lemma line_pass c w :
  line_held c ->
  exists w2 c' w',
    main_sequence N c w = (upd_stat (st_sl_state SL_DOWN) c, w2)
    /\ process_buffer F G N (upd_stat (st_sl_state SL_DOWN) c) w2
       = (LoopDone, upd_stat (st_sl_state SL_DOWN) c, w2)
    /\ stream_stopped N (shift_buffer (upd_stat (st_sl_state SL_DOWN) c)) w2 = (true, c', w')
    /\ line_held c' /\ contacts (trace w') = contacts (trace w).
Proof.
  intros H. pose proof H as (L & T & D & S & U).
  rewrite main_sequence_down by assumption.
  assert (H2 : line_held (upd_stat (st_sl_state SL_DOWN) c))
    by (eapply line_held_ext; [..|exact H]; reflexivity).
  pose proof H2 as (L2 & T2 & D2 & S2 & U2).
  assert (Sh : shift_buffer (upd_stat (st_sl_state SL_DOWN) c)
               = upd_stat (st_sl_state SL_DOWN) c).
  { unfold shift_buffer. rewrite S2. reflexivity. }
  rewrite Sh.
  eexists.
  destruct (stream_stopped_line (upd_stat (st_sl_state SL_DOWN) c)
              (if netdly_trig (stat c) >? 0 then slp_usleep N 500000 w else w) U2)
    as (w' & E & C).
  exists (set_link (set_link (upd_stat (st_sl_state SL_DOWN) c) (-1)) (-1)), w'.
  split; [reflexivity|].
  split; [apply process_buffer_nothing; apply line_no_packet; exact U2|].
  split; [exact E|].
  split; [eapply line_held_ext; [..|exact H2]; fields; auto|].
  rewrite C. destruct (netdly_trig (stat c) >? 0); [|reflexivity].
  unfold slp_usleep; cbn [trace]. rewrite contacts_app.
  cbn [contacts filter is_contact]. rewrite app_nil_r. reflexivity.
Qed.

Lemma line_opening c w :
  line_held c ->
  (exists w', check_slcd N (info_was_set c) w = (true, info_was_set c, w')
     /\ contacts (trace w') = contacts (trace w) /\ line_held (info_was_set c))
  \/ (exists c1, check_slcd N (info_was_set c) w = (false, c1, w) /\ line_held c1).
Proof.
  intros H.
  assert (H0 : line_held (info_was_set c)).
  { eapply line_held_ext; [..|exact H];
      unfold info_was_set; destruct (info c) eqn:E; fields; auto. }
  pose proof H0 as (L0 & _).
  unfold check_slcd. replace (link (info_was_set c) =? -1) with true by lia.
  destruct (sl_checkslcd N (info_was_set c) =? 0); cbn [negb].
  - right. eexists. split; [reflexivity|].
    eapply line_held_ext; [..|exact H0]; reflexivity.
  - left. eexists. split; [reflexivity|]. split; [|exact H0].
    unfold sl_log_r, emit; cbn [trace]. rewrite contacts_app, app_nil_r. reflexivity.
Qed.

Lemma line_nb c m w :
  line_held c ->
  exists c' w',
    sl_collect_nb_size F G N c m w = ((SLTERMINATE, None), c', w')
    /\ line_held c' /\ contacts (trace w') = contacts (trace w).
Proof.
  intros H. unfold sl_collect_nb_size.
  destruct (line_opening c w H) as [(w1 & E & C & H1)|(c1 & E & H1)]; rewrite E.
  - exists (info_was_set c), w1. auto.
  - pose proof H1 as (_ & T1 & _).
    replace (terminate c1 =? 0) with true by lia.
    destruct (line_pass c1 w H1) as (w2 & c' & w' & E2 & E3 & E5 & H' & C').
    rewrite E2, E3. cbn [terminate upd_stat set_stat].
    replace (terminate c1 =? 0) with true by lia. cbn [negb].
    rewrite E5. exists c', w'. auto.
Qed.

Lemma line_blocking c n w :
  line_held c ->
  exists c' w',
    sl_collect F G N (S n) c w = Some ((SLTERMINATE, None), c', w')
    /\ line_held c' /\ contacts (trace w') = contacts (trace w).
Proof.
  intros H. unfold sl_collect.
  destruct (line_opening c w H) as [(w1 & E & C & H1)|(c1 & E & H1)]; rewrite E.
  - exists (info_was_set c), w1. auto.
  - pose proof H1 as (_ & T1 & _). cbn [primary_loop].
    replace (terminate c1 =? 0) with true by lia.
    destruct (line_pass c1 w H1) as (w2 & c' & w' & E2 & E3 & E5 & H' & C').
    rewrite E2, E3. cbn [terminate upd_stat set_stat].
    replace (terminate c1 =? 0) with true by lia. cbn [negb].
    rewrite E5. exists c', w'. auto.
Qed.

Lemma line_calls ks : forall c w,
  line_held c -> Forall has_fuel ks ->
  exists c' w',
    do_calls F G N ks c w = Some (map (fun _ => (SLTERMINATE, None)) ks, c', w')
    /\ line_held c' /\ contacts (trace w') = contacts (trace w).
Proof.
  induction ks as [|k ks IH]; intros c w Hg Hf.
  - simpl. eauto 10.
  - inversion Hf as [|? ? Hk Hks]; subst. simpl.
    assert (exists c1 w1, do_call F G N k c w = Some ((SLTERMINATE, None), c1, w1)
              /\ line_held c1
              /\ contacts (trace w1) = contacts (trace w)) as (c1 & w1 & E & T1 & X2).
    { destruct k as [fuel|m]; simpl in *.
      - destruct fuel as [|n]; [lia|]. apply line_blocking; auto.
      - destruct (line_nb c m w Hg) as (c1 & w1 & E & R). rewrite E. eauto. }
    rewrite E. destruct (IH c1 w1 T1 Hks) as (c2 & w2 & E2 & T2 & Y2).
    rewrite E2. exists c2, w2. split; [reflexivity|]. split; [exact T2|]. congruence.
Qed.

End HeldLine.

(** ** The rendered time stamp against the canonical text *)






Section StreamEntries.

Variable F : MSeedFormat.
Variable G : GenUtils.


End StreamEntries.
(** * The claims *)

Import Example.

(** C1, as stated, fails: the packet of GE WLF matches no entry of the table
    [IU ANMO]; update_stream returns -1 and the call returns without a packet,
    the read cursor being past the packet already (the buffer is shifted: both
    cursors are 0 at the return). *)
Lemma no_match_packet_not_delivered :
  fst (fst (update_stream format genutils (streams no_match_conn)
              (head_view (stat no_match_conn)) (record_view (stat no_match_conn)))) = -1
  /\ fst (fst (nb no_match_conn [])) = (SLNOPACKET, None)
  /\ trace (snd (nb no_match_conn []))
     = [Log 2 0 "unexpected data received: %.2s %.6s\n"; RecvData 8192; Dtime].
Proof. vm_compute. repeat split. Qed.

(** C1, as amended: a whole data packet for which update_stream returns -1 is
    not delivered by the loop of the collect functions: one message is logged,
    the read cursor moves past the packet and the loop goes on with the bytes
    that follow. *)
Theorem no_match_packet_skipped (F : MSeedFormat) (G : GenUtils) (N : Network)
  (c : SLCD) (w : world N) :
  packet_ready F (stat c) ->
  mem_equal (head_view (stat c)) INFOSIGNATURE = false ->
  fst (fst (update_stream F G (streams c) (head_view (stat c)) (record_view (stat c)))) = -1 ->
  exists c' w' msg,
    loop_body F G N c w = (BodyNext, c', w')
    /\ trace w' = trace w ++ [Log 2 0 msg]
    /\ sendptr (stat c')
       = int_add (sendptr (stat c)) (int_add SLHEADSIZE (packet_len F (stat c)))
    /\ forall n, process_loop F G N (S n) c w = process_loop F G N n c' w'.
Proof.
  intros (Hg & Hp & Hc) Hi Hu.
  unfold loop_body, head_view, record_view in *.
  destruct (packet_len F (stat c) <? 0) eqn:E1; [lia|].
  destruct ((packet_len F (stat c) =? 0)
            || ((packet_len F (stat c) >? 0)
                && (int_add (packet_len F (stat c)) SLHEADSIZE
                    >? int_sub (recptr (stat c)) (sendptr (stat c))))) eqn:E2; [lia|].
  unfold classify. rewrite Hi. unfold data_packet. simpl.
  destruct (update_stream F G (streams c) _ _) as [[r l] logs] eqn:U.
  simpl in Hu. subst r.
  destruct (update_stream_result F G _ _ _ _ _ _ U) as [(X & _)|(_ & msg & L)]; [lia|].
  subst logs. simpl.
  do 3 eexists. split; [reflexivity|]. split; [reflexivity|]. split; [reflexivity|].
  intros n. simpl. rewrite Hg. unfold loop_body.
  rewrite E1, E2. unfold classify. rewrite Hi. unfold data_packet. simpl. rewrite U.
  reflexivity.
Qed.

(** The theorem above, at the example. *)
Lemma no_match_packet_skipped_witness :
  packet_ready format (stat no_match_conn)
  /\ mem_equal (head_view (stat no_match_conn)) INFOSIGNATURE = false
  /\ fst (fst (update_stream format genutils (streams no_match_conn)
                 (head_view (stat no_match_conn)) (record_view (stat no_match_conn)))) = -1
  /\ exists c' w' msg,
       loop_body format genutils scripted no_match_conn (start []) = (BodyNext, c', w')
       /\ trace w' = trace (start []) ++ [Log 2 0 msg]
       /\ sendptr (stat c')
          = int_add (sendptr (stat no_match_conn))
              (int_add SLHEADSIZE (packet_len format (stat no_match_conn)))
       /\ forall n, process_loop format genutils scripted (S n) no_match_conn (start [])
                    = process_loop format genutils scripted n c' w'.
Proof.
  assert (R : packet_ready format (stat no_match_conn)).
  { unfold packet_ready. vm_compute. repeat split; congruence. }
  assert (I : mem_equal (head_view (stat no_match_conn)) INFOSIGNATURE = false)
    by (vm_compute; reflexivity).
  assert (U : fst (fst (update_stream format genutils (streams no_match_conn)
                          (head_view (stat no_match_conn))
                          (record_view (stat no_match_conn)))) = -1)
    by (vm_compute; reflexivity).
  split; [exact R|]. split; [exact I|]. split; [exact U|].
  exact (no_match_packet_skipped format genutils scripted no_match_conn (start []) R I U).
Defined.

(** C2: the record starts with a valid miniSEED 2 header, the walk over the
    blockettes ends without a 1000 blockette and no header follows in the
    buffer; detect returns -1 where its description promises 0, and the
    collect call on these 72 bytes of a stream of records ends with
    SLTERMINATE. *)
Theorem detect_undetermined_returns_error :
  let record := record_view (stat undetermined_conn) in
  MS3_ISVALIDHEADER format record = false
  /\ MS2_ISVALIDHEADER format record = true
  /\ blkt_loop format blkt_fuel record 72 false (pMS2FSDH_BLOCKETTEOFFSET format record)
     = Some BlktEnd
  /\ scan_loop format (scan_fuel 72) record 72 64 = Some None
  /\ detect format record 72 = (-1, 2)
  /\ fst (fst (nb undetermined_conn [])) = (SLTERMINATE, None).
Proof. vm_compute. repeat split. Qed.

(** C3, as stated, fails: after a failed read the non-blocking call returns
    with the socket closed and the state still Data; and with the terminate
    flag set it closes the socket and assigns Data to a state that was Down. *)
Lemma closed_link_state_not_down :
  (let c' := snd (fst (nb read_fails_conn [(-1, [])])) in
   fst (fst (nb read_fails_conn [(-1, [])])) = (SLNOPACKET, None)
   /\ ~ (link c' = -1 <-> sl_state (stat c') = SL_DOWN))
  /\ (let c' := snd (fst (nb flagged_conn [])) in
      fst (fst (nb flagged_conn [])) = (SLTERMINATE, None)
      /\ sl_state (stat flagged_conn) = SL_DOWN
      /\ ~ (link c' = -1 <-> sl_state (stat c') = SL_DOWN)).
Proof.
  vm_compute. repeat split; try reflexivity.
  - intros [H _]. specialize (H eq_refl). discriminate.
  - intros [H _]. specialize (H eq_refl). discriminate.
Qed.

(** C3, as amended: at every return of a collect call a session in state Down
    has its socket closed, when this held at the call and a failed sl_connect
    leaves the handle closed.  The converse fails, but a closed handle is not
    used: in a call that finds the handle closed, the first contact with the
    network, if there is any, is the sl_connect that opens a new one. *)
Theorem down_state_has_closed_link (F : MSeedFormat) (G : GenUtils) (N : Network)
  (k : call) (c : SLCD) (w : world N) (r : result) (c' : SLCD) (w' : world N) :
  closes_on_failure N ->
  down_closed c ->
  do_call F G N k c w = Some (r, c', w') ->
  down_closed c'
  /\ (link c = -1 -> connects_first N w w').
Proof.
  intros Hc Hd E. split.
  - destruct k as [fuel|m]; simpl in E.
    + eapply dc_blocking; eauto.
    + inversion E. eapply dc_nb; eauto.
  - intros L. eapply closed_call; eauto.
Qed.

(** The theorem above, at the example: the session is in state Down with its
    handle closed, the server cannot be reached, and the call returns in state
    Down with the handle closed, sl_connect being its one contact. *)
Lemma down_state_has_closed_link_witness :
  closes_on_failure unreachable
  /\ down_closed new_slcd
  /\ sl_state (stat new_slcd) = SL_DOWN
  /\ exists r c' w',
       do_call format genutils unreachable (NonBlocking SLRECSIZEMAX) new_slcd nowhere
       = Some (r, c', w')
       /\ sl_state (stat c') = SL_DOWN
       /\ contacts (trace w') = [Connect]
       /\ down_closed c'
       /\ (link new_slcd = -1 -> connects_first unreachable nowhere w').
Proof.
  assert (A : closes_on_failure unreachable).
  { intros c e l e' H. simpl in H. inversion H. reflexivity. }
  assert (B : down_closed new_slcd).
  { intros _. reflexivity. }
  split; [exact A|]. split; [exact B|]. split; [reflexivity|].
  eexists. eexists. eexists.
  match goal with
  | |- ?E /\ _ => assert (C : E) by (vm_compute; reflexivity); split; [exact C|]
  end.
  split; [reflexivity|]. split; [reflexivity|].
  exact (down_state_has_closed_link format genutils unreachable _ _ _ _ _ _ A B C).
Defined.

(** C4, as stated, fails.  After a server ERROR line, and after END, with the
    trigger of the reconnect delay at 0, the next call does not return
    SLTERMINATE: it connects, negotiates and reads. *)
Lemma terminate_not_sticky :
  netdly_trig (stat error_conn) = 0
  /\ netdly_trig (stat end_conn) = 0
  /\ match calls twice error_conn [] with
     | Some (rs, _, w) =>
         rs = [(SLTERMINATE, None); (SLNOPACKET, None)]
         /\ contacts (trace w) = [Connect; ConfigLink; RecvData 8192]
     | None => False
     end
  /\ match calls twice end_conn [] with
     | Some (rs, _, w) =>
         rs = [(SLTERMINATE, None); (SLNOPACKET, None)]
         /\ contacts (trace w) = [Connect; ConfigLink; RecvData 8192]
     | None => False
     end.
Proof. vm_compute. repeat split. Qed.

(** C4, as amended: SLTERMINATE is sticky when it comes from the terminate
    flag or from a connection description that sl_checkslcd refuses; when the
    session, in state Data with no request or timeout due, holds bytes at the
    read cursor that are no miniSEED record; and when the link is closed with
    the ERROR or END line of the server still at the start of the buffer and
    the trigger of the reconnect delay not at 0.  On such a descriptor every
    further call of sl_collect or sl_collect_nb_size returns SLTERMINATE with
    [*slpack] NULL, and none of them connects, sends or receives; the world is
    left as it was, but for the sleep and the closing of the held line. *)
Theorem terminate_sticky_where_held (F : MSeedFormat) (G : GenUtils) (N : Network)
  (c : SLCD) (w : world N) (ks : list call) :
  (exists k c0 w0 r,
      terminate c0 <> 0 /\ do_call F G N k c0 w0 = Some (r, c, w) /\ fst r = SLTERMINATE)
  \/ (link c = -1 /\ sl_checkslcd N (info_was_set c) <> 0)
  \/ garbage_held F c
  \/ line_held c ->
  Forall has_fuel ks ->
  exists c' w',
    do_calls F G N ks c w = Some (map (fun _ => (SLTERMINATE, None)) ks, c', w')
    /\ contacts (trace w') = contacts (trace w)
    /\ (line_held c \/ ext w' = ext w).
Proof.
  intros H Hf.
  assert (X : terminated F N c \/ garbage_held F c \/ line_held c).
  { destruct H as [(k & c0 & w0 & r & Ht & E & Hr)|[[Hl Hc]|[Hg|Hl]]]; auto.
    - left. destruct k as [fuel|m]; simpl in E.
      + eapply flag_terminates_blocking; eauto.
      + inversion E. eapply flag_terminates_nb; eauto.
    - left. split; [exact Hl|]. right. exact Hc. }
  destruct X as [T|[Hg|Hl]].
  - destruct (terminated_calls F G N ks c w T Hf) as (c' & w' & E & _ & A & B).
    exists c', w'. auto.
  - destruct (garbage_calls F G N ks c w Hg Hf) as (c' & w' & E & _ & A & B).
    exists c', w'. auto.
  - destruct (line_calls F G N ks c w Hl Hf) as (c' & w' & E & _ & A).
    exists c', w'. auto.
Qed.

(** The theorem above, at the examples: after the terminate flag; after 56
    bytes that are no record, read from the socket by a first call and found
    by a second; and after the ERROR line, read by a first call and found by
    a second. *)
Lemma terminate_sticky_where_held_witness :
  Forall has_fuel [NonBlocking SLRECSIZEMAX; Blocking 1; NonBlocking 128]
  /\ (exists c w,
        ((exists k c0 w0 r,
             terminate c0 <> 0
             /\ do_call format genutils scripted k c0 w0 = Some (r, c, w)
             /\ fst r = SLTERMINATE)
         \/ (link c = -1 /\ sl_checkslcd scripted (info_was_set c) <> 0)
         \/ garbage_held format c
         \/ line_held c)
        /\ exists c' w',
             do_calls format genutils scripted
               [NonBlocking SLRECSIZEMAX; Blocking 1; NonBlocking 128] c w
             = Some (map (fun _ => (SLTERMINATE, None))
                       [NonBlocking SLRECSIZEMAX; Blocking 1; NonBlocking 128], c', w')
             /\ contacts (trace w') = contacts (trace w)
             /\ (line_held c \/ ext w' = ext w))
  /\ (exists c w,
        calls twice new_slcd [(56, garbage_bytes)]
        = Some ([(SLNOPACKET, None); (SLTERMINATE, None)], c, w)
        /\ garbage_held format c
        /\ exists c' w',
             do_calls format genutils scripted
               [NonBlocking SLRECSIZEMAX; Blocking 1; NonBlocking 128] c w
             = Some (map (fun _ => (SLTERMINATE, None))
                       [NonBlocking SLRECSIZEMAX; Blocking 1; NonBlocking 128], c', w')
             /\ contacts (trace w') = contacts (trace w)
             /\ (line_held c \/ ext w' = ext w))
  /\ (exists c w,
        calls twice new_slcd [(7, ERROR_LINE)]
        = Some ([(SLNOPACKET, None); (SLTERMINATE, None)], c, w)
        /\ line_held c
        /\ exists c' w',
             do_calls format genutils scripted
               [NonBlocking SLRECSIZEMAX; Blocking 1; NonBlocking 128] c w
             = Some (map (fun _ => (SLTERMINATE, None))
                       [NonBlocking SLRECSIZEMAX; Blocking 1; NonBlocking 128], c', w')
             /\ contacts (trace w') = contacts (trace w)
             /\ (line_held c \/ ext w' = ext w)).
Proof.
  assert (Hf : Forall has_fuel [NonBlocking SLRECSIZEMAX; Blocking 1; NonBlocking 128]).
  { repeat constructor. }
  split; [exact Hf|]. split; [|split].
  - eexists. eexists.
    match goal with
    | |- ?H /\ _ =>
        assert (A : H);
        [ left; exists (NonBlocking SLRECSIZEMAX), flagged_conn, (start []); eexists;
          split; [vm_compute; discriminate|]; split; [vm_compute; reflexivity|reflexivity]
        | split; [exact A|] ]
    end.
    exact (terminate_sticky_where_held format genutils scripted _ _ _ A Hf).
  - eexists. eexists.
    match goal with
    | |- ?X /\ _ => assert (B : X) by (vm_compute; reflexivity); split; [exact B|]
    end.
    match goal with
    | |- ?X /\ _ => assert (Hg : X); [|split; [exact Hg|]]
    end.
    { unfold garbage_held, quiet_in_data.
      repeat split; try (vm_compute; (reflexivity || discriminate));
        try (left; vm_compute; (reflexivity || discriminate));
        try (right; vm_compute; discriminate). }
    exact (terminate_sticky_where_held format genutils scripted _ _ _
             (or_intror (or_intror (or_introl Hg))) Hf).
  - eexists. eexists.
    match goal with
    | |- ?X /\ _ => assert (B : X) by (vm_compute; reflexivity); split; [exact B|]
    end.
    match goal with
    | |- ?X /\ _ => assert (Hl : X); [|split; [exact Hl|]]
    end.
    { unfold line_held.
      repeat split; try (vm_compute; (reflexivity || discriminate)).
      left. vm_compute. reflexivity. }
    exact (terminate_sticky_where_held format genutils scripted _ _ _
             (or_intror (or_intror (or_intror Hl))) Hf).
Defined.

(** C5: an INFO packet arrives while no INFO response is expected; the
    message that it is skipped is logged, and the packet is returned to the
    caller all the same, by sl_collect_nb_size and by sl_collect. *)
Theorem unexpected_info_delivered :
  expect_info (stat unexpected_info_conn) = 0
  /\ mem_equal (head_view (stat unexpected_info_conn)) INFOSIGNATURE = true
  /\ fst (fst (nb unexpected_info_conn []))
     = (SLPACKET, Some {| slhead := Some 0; msrecord := Some 8; reclen := 512 |})
  /\ trace (snd (nb unexpected_info_conn []))
     = [Log 2 0 "unexpected INFO packet received, skipping\n"]
  /\ match sl_collect format genutils scripted 1 unexpected_info_conn (start []) with
     | Some (r, _, w) =>
         r = (SLPACKET, Some {| slhead := Some 0; msrecord := Some 8; reclen := 512 |})
         /\ trace w = [Log 2 0 "unexpected INFO packet received, skipping\n"]
     | None => False
     end.
Proof. vm_compute. repeat split. Qed.

(** C6: the keepalive trigger has fired and the first call sends INFO ID.
    When the response comes in two records, the next call consumes the first
    record and hands the second one to the caller.  When the response is one
    record and the caller has asked for INFO STREAMS in between, the next call
    hands that record, the reply to the keepalive, to the caller. *)
Theorem keepalive_response_delivered :
  match calls twice keepalive_due_conn two_record_reply with
  | Some (rs, _, w) =>
      rs = [(SLNOPACKET, None);
            (SLPACKET, Some {| slhead := Some 520; msrecord := Some 528; reclen := 512 |})]
      /\ trace w = [Log 1 2 "sending keepalive request\n"; SendInfo "ID";
                    RecvData 8192; Dtime;
                    Log 2 0 "non-terminated keep-alive packet received!?!\n"]
  | None => False
  end
  /\ fst (fst keepalive_then_request)
     = (SLPACKET, Some {| slhead := Some 0; msrecord := Some 8; reclen := 512 |})
  /\ trace (snd keepalive_then_request)
     = [Log 1 2 "sending keepalive request\n"; SendInfo "ID"; RecvData 8192; Dtime].
Proof. vm_compute. repeat split. Qed.

(** What the code does keep of the keepalive: in state Data with the link
    open, no idle timeout due, keepalive > 0, no INFO outstanding and the
    keepalive trigger fired, a pass whose INFO ID request is sent sets
    query_mode to KeepAlive and expect_info, and resets the keepalive trigger.
    A whole INFO record found while expect_info is set is not delivered when
    query_mode is KeepAlive, and is delivered when it is not; either way
    query_mode is None afterwards. *)
Theorem keepalive_tick_and_tagged_record (F : MSeedFormat) (G : GenUtils) (N : Network)
  (c : SLCD) (w : world N) (c2 : SLCD) (w2 : world N)
  (ex : body_exit) (c2' : SLCD) (w2' : world N) :
  link c <> -1 -> in_state c SL_DATA = true ->
  (netto c = 0 \/ netto_trig (stat c) <= 0) ->
  keepalive c > 0 -> expect_info (stat c) = 0 -> keepalive_trig (stat c) > 0 ->
  fst (w_send_info N c "ID" 3 (ext w)) <> -1 ->
  packet_ready F (stat c2) ->
  mem_equal (head_view (stat c2)) INFOSIGNATURE = true ->
  expect_info (stat c2) <> 0 ->
  loop_body F G N c2 w2 = (ex, c2', w2') ->
  (exists c' w',
      main_sequence N c w = (c', w')
      /\ trace w' = trace w ++ [Log 1 2 "sending keepalive request\n"; SendInfo "ID"]
      /\ query_mode (stat c') = KeepAliveQuery
      /\ expect_info (stat c') = 1
      /\ keepalive_trig (stat c') = -1
      /\ sl_state (stat c') = SL_DATA)
  /\ (query_mode (stat c2) = KeepAliveQuery -> ex = BodyNext)
  /\ (query_mode (stat c2) <> KeepAliveQuery -> ex = BodyPacket)
  /\ query_mode (stat c2') = NoQuery.
Proof.
  intros H1 H2 H3 H4 H5 H6 H7 R I E B. split.
  - apply keepalive_tick; auto.
  - destruct (expected_info_packet F G N _ _ _ _ _ B R I E) as (A1 & A2 & A3 & _). auto.
Qed.

(** The theorem above, at the example. *)
Lemma keepalive_tick_and_tagged_record_witness :
  link keepalive_due_conn <> -1
  /\ in_state keepalive_due_conn SL_DATA = true
  /\ (netto keepalive_due_conn = 0 \/ netto_trig (stat keepalive_due_conn) <= 0)
  /\ keepalive keepalive_due_conn > 0
  /\ expect_info (stat keepalive_due_conn) = 0
  /\ keepalive_trig (stat keepalive_due_conn) > 0
  /\ fst (w_send_info scripted keepalive_due_conn "ID" 3 (ext (start []))) <> -1
  /\ packet_ready format (stat keepalive_reply_conn)
  /\ mem_equal (head_view (stat keepalive_reply_conn)) INFOSIGNATURE = true
  /\ expect_info (stat keepalive_reply_conn) <> 0
  /\ exists ex c2' w2',
       loop_body format genutils scripted keepalive_reply_conn (start []) = (ex, c2', w2')
       /\ (exists c' w',
              main_sequence scripted keepalive_due_conn (start []) = (c', w')
              /\ trace w' = trace (start [])
                            ++ [Log 1 2 "sending keepalive request\n"; SendInfo "ID"]
              /\ query_mode (stat c') = KeepAliveQuery
              /\ expect_info (stat c') = 1
              /\ keepalive_trig (stat c') = -1
              /\ sl_state (stat c') = SL_DATA)
       /\ (query_mode (stat keepalive_reply_conn) = KeepAliveQuery -> ex = BodyNext)
       /\ (query_mode (stat keepalive_reply_conn) <> KeepAliveQuery -> ex = BodyPacket)
       /\ query_mode (stat c2') = NoQuery.
Proof.
  assert (H1 : link keepalive_due_conn <> -1) by (vm_compute; discriminate).
  assert (H2 : in_state keepalive_due_conn SL_DATA = true) by (vm_compute; reflexivity).
  assert (H3 : netto keepalive_due_conn = 0 \/ netto_trig (stat keepalive_due_conn) <= 0)
    by (right; vm_compute; discriminate).
  assert (H4 : keepalive keepalive_due_conn > 0) by (vm_compute; reflexivity).
  assert (H5 : expect_info (stat keepalive_due_conn) = 0) by (vm_compute; reflexivity).
  assert (H6 : keepalive_trig (stat keepalive_due_conn) > 0) by (vm_compute; reflexivity).
  assert (H7 : fst (w_send_info scripted keepalive_due_conn "ID" 3 (ext (start []))) <> -1)
    by (vm_compute; discriminate).
  assert (R : packet_ready format (stat keepalive_reply_conn)).
  { unfold packet_ready. vm_compute. repeat split; congruence. }
  assert (I : mem_equal (head_view (stat keepalive_reply_conn)) INFOSIGNATURE = true)
    by (vm_compute; reflexivity).
  assert (E : expect_info (stat keepalive_reply_conn) <> 0) by (vm_compute; discriminate).
  repeat (split; [assumption|]).
  eexists. eexists. eexists.
  match goal with
  | |- ?X /\ _ => assert (B : X) by (vm_compute; reflexivity); split; [exact B|]
  end.
  exact (keepalive_tick_and_tagged_record format genutils scripted _ _ _ _ _ _ _
           H1 H2 H3 H4 H5 H6 H7 R I E B).
Defined.

(** C7: the record is a miniSEED 3 header whose length fields add up to
    2^31 - 1.  The test for a whole packet adds the header size to the length
    in an [int], which wraps around, so the packet passes for whole; the read
    cursor is then advanced by the same sum and leaves the buffer.  The same
    happens when the 56 bytes come from the socket. *)
Theorem sendptr_overflow_breaks_cursors :
  cursors_ok (stat overflow_conn)
  /\ packet_len format (stat overflow_conn) = 2147483647
  /\ int_add (packet_len format (stat overflow_conn)) SLHEADSIZE = -2147483641
  /\ fst (fst (nb overflow_conn []))
     = (SLPACKET, Some {| slhead := Some 0; msrecord := Some 8; reclen := 2147483647 |})
  /\ sendptr (stat (snd (fst (nb overflow_conn [])))) = -2147483641
  /\ recptr (stat (snd (fst (nb overflow_conn [])))) = 56
  /\ ~ cursors_ok (stat (snd (fst (nb overflow_conn []))))
  /\ cursors_ok (stat uni_conn)
  /\ match calls twice uni_conn [(56, overflow_bytes)] with
     | Some (rs, c, _) =>
         rs = [(SLNOPACKET, None);
               (SLPACKET,
                Some {| slhead := Some 0; msrecord := Some 8; reclen := 2147483647 |})]
         /\ sendptr (stat c) = -2147483641
         /\ recptr (stat c) = 56
     | None => False
     end.
Proof.
  split.
  { unfold cursors_ok. vm_compute. repeat split; discriminate. }
  split; [vm_compute; reflexivity|].
  split; [vm_compute; reflexivity|].
  split; [vm_compute; reflexivity|].
  split; [vm_compute; reflexivity|].
  split; [vm_compute; reflexivity|].
  split.
  { unfold cursors_ok. vm_compute. intros [[H _] _]. apply H. reflexivity. }
  split.
  { unfold cursors_ok. vm_compute. repeat split; discriminate. }
  vm_compute. repeat split.
Qed.

(** C8, as stated, fails: a data packet is delivered whose header is "SL"
    followed by 0x001F, which are not six hexadecimal digits; strtoul reads
    them as the sequence number 31. *)
Lemma delivered_header_not_six_hex_digits :
  fst (fst (nb lenient_conn []))
  = (SLPACKET, Some {| slhead := Some 0; msrecord := Some 8; reclen := 512 |})
  /\ mem_equal (head_view (stat lenient_conn)) INFOSIGNATURE = false
  /\ six_hex_digits (head_view (stat lenient_conn)) = false
  /\ sl_sequence (head_view (stat lenient_conn)) = 31.
Proof. vm_compute. repeat split. Qed.

(** C8, as amended: every packet a collect call delivers lies in the buffer
    at the returned pointers, its reclen is the positive length detect finds
    on those bytes, and when its header does not begin with SLINFO it begins
    with SL and sl_sequence returns a value in [0, 0xFFFFFF] for it. *)
Theorem delivered_data_packet_valid (F : MSeedFormat) (G : GenUtils) (N : Network)
  (k : call) (c : SLCD) (w : world N) (r : Z) (p : SLpacket) (c' : SLCD) (w' : world N) :
  do_call F G N k c w = Some ((r, Some p), c', w') ->
  r = SLPACKET /\ delivered_ok F c' p.
Proof.
  intros E. destruct k as [fuel|m]; simpl in E.
  - apply blocking_delivers in E. destruct E as [_ E]. apply E. reflexivity.
  - inversion E as [E']. eapply nb_delivers; eauto.
Qed.

(** The theorem above, at the example. *)
Lemma delivered_data_packet_valid_witness :
  exists r p c' w',
    do_call format genutils scripted (Blocking 1) match_conn (start [])
    = Some ((r, Some p), c', w')
    /\ r = SLPACKET /\ delivered_ok format c' p.
Proof.
  eexists. eexists. eexists. eexists.
  match goal with
  | |- ?X /\ _ => assert (B : X) by (vm_compute; reflexivity); split; [exact B|]
  end.
  exact (delivered_data_packet_valid format genutils scripted _ _ _ _ _ _ _ B).
Defined.




(** C10: the value of maxrecsize changes nothing: sl_collect_nb_size makes the
    same transition and returns the same result for any two values, and
    sl_collect_nb is any of these calls. *)
Theorem maxrecsize_ignored (F : MSeedFormat) (G : GenUtils) (N : Network)
  (c : SLCD) (w : world N) (m1 m2 : Z) :
  sl_collect_nb_size F G N c m1 w = sl_collect_nb_size F G N c m2 w
  /\ sl_collect_nb F G N c w = sl_collect_nb_size F G N c m1 w.
Proof. split; reflexivity. Qed.

(** A record of 512 bytes is returned to a caller that passed 128. *)
Lemma record_larger_than_maxrecsize :
  fst (fst (sl_collect_nb_size format genutils scripted match_conn 128 (start [])))
  = (SLPACKET, Some {| slhead := Some 0; msrecord := Some 8; reclen := 512 |}).
Proof. vm_compute. reflexivity. Qed.

(** The time stamp of the example record, and the table after update_stream. *)
Lemma example_timestamp :
  packet_timestamp format genutils (view data_bytes 8) = "2024,03,01,12,34,56"%string
  /\ map (fun e => (seqnum e, timestamp e))
       (snd (fst (update_stream format genutils table (view data_bytes 0) (view data_bytes 8))))
     = [(43981, "2024,03,01,12,34,56"%string); (-1, EmptyString);
        (43981, "2024,03,01,12,34,56"%string)].
Proof. vm_compute. split; reflexivity. Qed.

(** * Further properties of the code

    What the functions do beyond the claims above: the stream table and the
    functions that build it, the receive buffer over whole sessions, the
    link when it is down, the framer, the packet type, and the connection
    list of slinkxml.c. *)

(** X1: update_stream changes sequence numbers and time stamps only: the entries
    of the table keep their number, their order, their network and station
    codes and their selectors, whatever the packet and the value returned. *)
Theorem update_stream_keeps_names (F : MSeedFormat) (G : GenUtils)
  (l : list SLstream) (head msrec : Z -> Z) (r : Z) (l' : list SLstream)
  (logs : list event) :
  update_stream F G l head msrec = (r, l', logs) ->
  List.length l' = List.length l
  /\ map net l' = map net l /\ map sta l' = map sta l
  /\ map selectors l' = map selectors l.
Proof.
  assert (Y : forall a b : list SLstream,
             map net a = map net b /\ map sta a = map sta b
             /\ map selectors a = map selectors b ->
             List.length a = List.length b /\ map net a = map net b
             /\ map sta a = map sta b /\ map selectors a = map selectors b).
  { intros a b (A & B & D). split; [|auto].
    rewrite <- (length_map net a), <- (length_map net b), A. reflexivity. }
  unfold update_stream. intros H.
  destruct (sl_sequence head =? -1); [inv_pairs; auto|].
  destruct l as [|e l0]; [inv_pairs; auto|].
  destruct (is_uni e).
  - inv_pairs. simpl. auto.
  - destruct (update_chain F G msrec (sl_sequence head) (e :: l0)) as [r0 u] eqn:C.
    pose proof (update_chain_names F G _ _ _ _ _ C) as A.
    destruct (u =? 0); inv_pairs; apply Y; exact A.
Qed.

(** The theorem above, at the example table and the packet of GE WLF. *)
Lemma update_stream_keeps_names_witness :
  exists r l' logs,
    update_stream format genutils table (view data_bytes 0) (view data_bytes 8)
    = (r, l', logs)
    /\ List.length l' = List.length table
    /\ map net l' = map net table /\ map sta l' = map sta table
    /\ map selectors l' = map selectors table.
Proof.
  eexists. eexists. eexists.
  match goal with
  | |- ?X /\ _ => assert (B : X) by (vm_compute; reflexivity); split; [exact B|]
  end.
  exact (update_stream_keeps_names format genutils _ _ _ _ _ _ B).
Defined.

(** X2: A packet that update_stream rejects leaves the stream table as it was. *)
Theorem update_stream_failure_keeps_table (F : MSeedFormat) (G : GenUtils)
  (l : list SLstream) (head msrec : Z -> Z) (l' : list SLstream) (logs : list event) :
  update_stream F G l head msrec = (-1, l', logs) -> l' = l.
Proof.
  unfold update_stream. intros H.
  destruct (sl_sequence head =? -1); [inv_pairs; reflexivity|].
  destruct l as [|e l0]; [inv_pairs; reflexivity|].
  destruct (is_uni e); [inv_pairs|].
  destruct (update_chain F G msrec (sl_sequence head) (e :: l0)) as [r u] eqn:C.
  destruct (update_chain_count F G _ _ _ _ _ C) as (A & B & D).
  destruct (u =? 0) eqn:U; inv_pairs.
  apply B. lia.
Qed.

(** The theorem above, at a table that the packet of GE WLF does not match. *)
Lemma update_stream_failure_keeps_table_witness :
  exists l' logs,
    update_stream format genutils [stream "IU" "ANMO"] (view data_bytes 0)
      (view data_bytes 8) = (-1, l', logs)
    /\ l' = [stream "IU" "ANMO"].
Proof.
  eexists. eexists.
  match goal with
  | |- ?X /\ _ => assert (B : X) by (vm_compute; reflexivity); split; [exact B|]
  end.
  exact (update_stream_failure_keeps_table format genutils _ _ _ _ _ B).
Defined.

(** X3: update_stream returns 0 exactly when the header gives a sequence number
    and the table is in uni-station mode or has an entry that matches the
    record; in every other case it returns -1. *)
Theorem update_stream_accepts_iff (F : MSeedFormat) (G : GenUtils)
  (l : list SLstream) (head msrec : Z -> Z) (r : Z) (l' : list SLstream)
  (logs : list event) :
  update_stream F G l head msrec = (r, l', logs) ->
  (r = 0 \/ r = -1)
  /\ (r = 0 <->
      sl_sequence head <> -1
      /\ (head_is_uni l = true \/ existsb (entry_matches G msrec) l = true)).
Proof.
  unfold update_stream. intros H.
  destruct (sl_sequence head =? -1) eqn:S.
  { inv_pairs. split; [auto|]. split; [discriminate|]. intros [X _]. lia. }
  assert (S' : sl_sequence head <> -1) by lia.
  destruct l as [|e l0].
  { inv_pairs. split; [auto|]. split; [discriminate|]. intros [_ [X|X]]; discriminate. }
  cbn [head_is_uni].
  destruct (is_uni e) eqn:U.
  { inv_pairs. split; [auto|]. split; auto. }
  destruct (update_chain F G msrec (sl_sequence head) (e :: l0)) as [r0 u] eqn:C.
  destruct (update_chain_count F G _ _ _ _ _ C) as (A & B & D).
  destruct (u =? 0) eqn:Z0; inv_pairs.
  - split; [auto|]. split; [discriminate|].
    intros [_ [X|X]]; [discriminate|].
    destruct B as [_ B]; [lia|]. congruence.
  - split; [auto|]. split; auto.
    intros _. split; auto. right. apply D. lia.
Qed.

(** The theorem above, at the example table and the packet of GE WLF. *)
Lemma update_stream_accepts_iff_witness :
  exists r l' logs,
    update_stream format genutils table (view data_bytes 0) (view data_bytes 8)
    = (r, l', logs)
    /\ (r = 0 \/ r = -1)
    /\ (r = 0 <->
        sl_sequence (view data_bytes 0) <> -1
        /\ (head_is_uni table = true
            \/ existsb (entry_matches genutils (view data_bytes 8)) table = true)).
Proof.
  eexists. eexists. eexists.
  match goal with
  | |- ?X /\ _ => assert (B : X) by (vm_compute; reflexivity); split; [exact B|]
  end.
  exact (update_stream_accepts_iff format genutils _ _ _ _ _ _ B).
Defined.

(** X4: Taking the same packet twice is taking it once: a second update_stream
    with the same packet returns the same value and leaves the table that the
    first one left. *)
Theorem update_stream_same_packet_twice (F : MSeedFormat) (G : GenUtils)
  (l : list SLstream) (head msrec : Z -> Z) (r : Z) (l' : list SLstream)
  (logs : list event) :
  update_stream F G l head msrec = (r, l', logs) ->
  update_stream F G l' head msrec = (r, l', logs).
Proof.
  unfold update_stream. intros H.
  destruct (sl_sequence head =? -1); [inv_pairs; reflexivity|].
  destruct l as [|e l0]; [inv_pairs; reflexivity|].
  destruct (is_uni e) eqn:U.
  - inv_pairs. rewrite is_uni_set_entry, U. reflexivity.
  - destruct (update_chain F G msrec (sl_sequence head) (e :: l0)) as [r0 u] eqn:C.
    pose proof (update_chain_again F G _ _ _ _ _ C) as A.
    pose proof (update_chain_names F G _ _ _ _ _ C) as (Nn & Ns & _).
    assert (R : r0 = l').
    { destruct (u =? 0); inv_pairs; reflexivity. }
    subst r0.
    destruct l' as [|e' l1]; [simpl in Nn; discriminate|].
    simpl in Nn, Ns. inversion Nn. inversion Ns.
    assert (U' : is_uni e' = false).
    { unfold is_uni in *. congruence. }
    rewrite U', A. exact H.
Qed.

(** The theorem above, at the example table and the packet of GE WLF. *)
Lemma update_stream_same_packet_twice_witness :
  exists r l' logs,
    update_stream format genutils table (view data_bytes 0) (view data_bytes 8)
    = (r, l', logs)
    /\ update_stream format genutils l' (view data_bytes 0) (view data_bytes 8)
       = (r, l', logs).
Proof.
  eexists. eexists. eexists.
  match goal with
  | |- ?X /\ _ => assert (B : X) by (vm_compute; reflexivity); split; [exact B|]
  end.
  exact (update_stream_same_packet_twice format genutils _ _ _ _ _ _ B).
Defined.

(** X5: A stream table built through the library has the form that update_stream
    relies on: starting from sl_newslcd, after any calls of sl_addstream and
    sl_setuniparams, with any arguments, and any packets taken by
    update_stream in between, the table is the single uni-station entry or its
    head is not a uni-station entry. *)
Theorem api_table_is_uni_exclusive (F : MSeedFormat) (G : GenUtils)
  (slcd_ok stat_ok : bool) (databuf0 : list Z) (reclen0 : Z) (c0 : SLCD)
  (logs : list event) (ops : list table_op) :
  sl_newslcd slcd_ok stat_ok databuf0 reclen0 = (Some c0, logs) ->
  uni_exclusive (streams (table_steps F G ops c0)).
Proof.
  intros H.
  assert (U : uni_exclusive (streams c0)).
  { unfold sl_newslcd in H. destruct slcd_ok, stat_ok; simpl in H; try discriminate.
    inversion H. simpl. exact I. }
  clear H. revert c0 U. unfold table_steps.
  induction ops as [|op ops IH]; intros c0 U; simpl; [exact U|].
  apply IH. apply uni_exclusive_step. exact U.
Qed.

(** The theorem above, at a client that adds two stations, asks for
    uni-station mode and receives a packet. *)
Lemma api_table_is_uni_exclusive_witness :
  exists c0 logs,
    sl_newslcd true true (databuf new_stat) 0 = (Some c0, logs)
    /\ uni_exclusive (streams (table_steps format genutils Session.two_stations c0)).
Proof.
  eexists. eexists.
  match goal with
  | |- ?X /\ _ => assert (B : X) by reflexivity; split; [exact B|]
  end.
  exact (api_table_is_uni_exclusive format genutils _ _ _ _ _ _ Session.two_stations B).
Defined.

(** X6: Once sl_setuniparams has succeeded, sl_addstream is refused whatever its
    arguments: it returns -1, logs the reason and leaves the descriptor as it
    is. *)
Theorem addstream_refused_after_setuniparams
  (m : bool) (rest : string) (c : SLCD) (sel : option string) (seq : Z)
  (ts : option string) (c1 : SLCD) (logs : list event)
  (m' : bool) (rest' net sta : string) (sel' : option string) (seq' : Z)
  (ts' : option string) :
  sl_setuniparams m rest c sel seq ts = (0, c1, logs) ->
  sl_addstream m' rest' c1 net sta sel' seq' ts'
  = (-1, c1, [Log 2 0 "%s(): uni-station mode already configured!\n"]).
Proof.
  unfold sl_setuniparams. intros H.
  assert (U : head_is_uni (streams c1) = true).
  { destruct (streams c) as [|e l0].
    - destruct m; simpl in H; inversion H; reflexivity.
    - destruct (is_uni e); simpl in H; inversion H; reflexivity. }
  unfold sl_addstream. rewrite U. reflexivity.
Qed.

(** The theorem above, at a new descriptor. *)
Lemma addstream_refused_after_setuniparams_witness :
  exists c1 logs,
    sl_setuniparams true EmptyString new_slcd None (-1) None = (0, c1, logs)
    /\ sl_addstream true EmptyString c1 "GE" "WLF" None (-1) None
       = (-1, c1, [Log 2 0 "%s(): uni-station mode already configured!\n"]).
Proof.
  eexists. eexists.
  match goal with
  | |- ?X /\ _ => assert (B : X) by reflexivity; split; [exact B|]
  end.
  exact (addstream_refused_after_setuniparams _ _ _ _ _ _ _ _
           true EmptyString "GE"%string "WLF"%string None (-1) None B).
Defined.

(** X7: Once sl_addstream has added a stream whose codes are not the reserved
    XX and UNI, sl_setuniparams is refused whatever its arguments: it
    returns -1, logs the reason and leaves the descriptor as it is. *)
Theorem setuniparams_refused_after_addstream
  (m : bool) (rest : string) (c : SLCD) (net sta : string) (sel : option string)
  (seq : Z) (ts : option string) (c1 : SLCD) (logs : list event)
  (m' : bool) (rest' : string) (sel' : option string) (seq' : Z) (ts' : option string) :
  sl_addstream m rest c net sta sel seq ts = (0, c1, logs) ->
  (net <> UNINETWORK \/ sta <> UNISTATION) ->
  sl_setuniparams m' rest' c1 sel' seq' ts'
  = (-1, c1, [Log 2 0 "%s(): multi-station mode already configured!\n"]).
Proof.
  unfold sl_addstream. intros H Hn.
  destruct (head_is_uni (streams c)) eqn:U; [inversion H|].
  destruct m; simpl in H; [|inversion H].
  inversion H; subst; clear H.
  unfold sl_setuniparams. cbn [streams set_multistation set_streams].
  destruct (streams c) as [|e l0]; simpl.
  - assert (X : is_uni {| net := net; sta := sta; selectors := sel; seqnum := seq;
                          timestamp := new_timestamp ts rest |} = false).
    { unfold is_uni. simpl.
      destruct (String.eqb_spec net UNINETWORK); destruct (String.eqb_spec sta UNISTATION);
        simpl; auto. destruct Hn; congruence. }
    rewrite X. reflexivity.
  - simpl in U. rewrite U. reflexivity.
Qed.

(** The theorem above, at a new descriptor. *)
Lemma setuniparams_refused_after_addstream_witness :
  exists c1 logs,
    sl_addstream true EmptyString new_slcd "GE" "WLF" None (-1) None = (0, c1, logs)
    /\ ("GE"%string <> UNINETWORK \/ "WLF"%string <> UNISTATION)
    /\ sl_setuniparams true EmptyString c1 None (-1) None
       = (-1, c1, [Log 2 0 "%s(): multi-station mode already configured!\n"]).
Proof.
  eexists. eexists.
  match goal with
  | |- ?X /\ _ => assert (B : X) by reflexivity; split; [exact B|]
  end.
  assert (D : "GE"%string <> UNINETWORK \/ "WLF"%string <> UNISTATION)
    by (left; discriminate).
  split; [exact D|].
  exact (setuniparams_refused_after_addstream _ _ _ _ _ _ _ _ _ _
           true EmptyString None (-1) None B D).
Defined.

(** X8: The reserved codes are not refused by sl_addstream.  On an empty table,
    adding the stream XX UNI succeeds and sets the multistation flag, yet the
    table is then in uni-station mode: update_stream accepts the packets of
    every station, and no further stream can be added. *)
Theorem addstream_reserved_codes_give_uni_mode (F : MSeedFormat) (G : GenUtils)
  (rest : string) (c : SLCD) (sel : option string) (seq : Z) (ts : option string) :
  streams c = [] ->
  exists c1,
    sl_addstream true rest c UNINETWORK UNISTATION sel seq ts = (0, c1, [])
    /\ multistation c1 = 1
    /\ (forall head msrec, sl_sequence head <> -1 ->
          fst (fst (update_stream F G (streams c1) head msrec)) = 0)
    /\ (forall m' rest' net sta sel' seq' ts',
          fst (fst (sl_addstream m' rest' c1 net sta sel' seq' ts')) = -1).
Proof.
  intros E. eexists. unfold sl_addstream. rewrite E. simpl.
  split; [reflexivity|]. split; [reflexivity|]. split.
  - intros head msrec Hs. unfold update_stream.
    destruct (sl_sequence head =? -1) eqn:S; [lia|]. reflexivity.
  - intros. reflexivity.
Qed.

(** The theorem above, at a new descriptor. *)
Lemma addstream_reserved_codes_give_uni_mode_witness :
  streams new_slcd = []
  /\ exists c1,
       sl_addstream true EmptyString new_slcd UNINETWORK UNISTATION None (-1) None
       = (0, c1, [])
       /\ multistation c1 = 1
       /\ (forall head msrec, sl_sequence head <> -1 ->
             fst (fst (update_stream format genutils (streams c1) head msrec)) = 0)
       /\ (forall m' rest' net sta sel' seq' ts',
             fst (fst (sl_addstream m' rest' c1 net sta sel' seq' ts')) = -1).
Proof.
  assert (E : streams new_slcd = []) by reflexivity.
  split; [exact E|].
  exact (addstream_reserved_codes_give_uni_mode format genutils EmptyString new_slcd
           None (-1) None E).
Defined.

(** X9: The receive buffer stays whole over any calls of the collect functions:
    when sl_recvdata returns no more than it was asked for and, at every pass
    of the loop over the buffer that the calls make, the length found for the
    record, with the 8 bytes of the SeedLink header added, does not overflow
    an [int], the cursors stay in order within the buffer and no write goes
    past its end. *)
Theorem buffer_whole_over_calls (F : MSeedFormat) (G : GenUtils) (N : Network)
  (ks : list call) (c : SLCD) (w : world N) (rs : list result) (c' : SLCD)
  (w' : world N) :
  recv_bounded N ->
  calls_fit F G N ks c w = true ->
  buffer_ok (stat c) ->
  do_calls F G N ks c w = Some (rs, c', w') ->
  buffer_ok (stat c').
Proof.
  intros Hr. revert c w rs c' w'.
  induction ks as [|k ks IH]; intros c w rs c' w' Hf B E; simpl in E, Hf.
  - inversion E; subst. exact B.
  - apply andb_true_iff in Hf. destruct Hf as [Hf1 Hf2].
    destruct (do_call F G N k c w) as [[[r c1] w1]|] eqn:E1; [|discriminate].
    destruct (do_calls F G N ks c1 w1) as [[[rs2 c2] w2]|] eqn:E2; [|discriminate].
    inversion E; subst.
    eapply IH; [exact Hf2| |exact E2]. eapply bo_call; eauto.
Qed.

(** The theorem above, at two calls on a session whose buffer holds a packet
    and whose server then sends a second one. *)
Lemma buffer_whole_over_calls_witness :
  recv_bounded Session.metered
  /\ calls_fit format genutils Session.metered twice match_conn
       (Session.served [data_bytes]) = true
  /\ buffer_ok (stat match_conn)
  /\ exists rs c' w',
       do_calls format genutils Session.metered twice match_conn
         (Session.served [data_bytes]) = Some (rs, c', w')
       /\ map fst rs = [SLPACKET; SLNOPACKET]
       /\ buffer_ok (stat c').
Proof.
  assert (A1 : calls_fit format genutils Session.metered twice match_conn
                 (Session.served [data_bytes]) = true).
  { vm_compute. reflexivity. }
  assert (A2 : recv_bounded Session.metered).
  { intros c n e r data e'. cbn [Session.metered w_recvdata].
    destruct (n <? 0) eqn:E0; [intros X; inversion X; lia|].
    destruct e as [|d q]; intros X; inversion X; [lia|].
    rewrite length_firstn. lia. }
  assert (A3 : buffer_ok (stat match_conn)).
  { unfold buffer_ok, cursors_ok. repeat split; vm_compute; try reflexivity; discriminate. }
  split; [exact A2|]. split; [exact A1|]. split; [exact A3|].
  eexists. eexists. eexists.
  match goal with
  | |- ?X /\ _ => assert (B : X) by (vm_compute; reflexivity); split; [exact B|]
  end.
  split; [reflexivity|].
  exact (buffer_whole_over_calls format genutils Session.metered
           _ _ _ _ _ _ A2 A1 A3 B).
Defined.

(** X10: A packet handed to the caller lies within the received part of the
    buffer: its header is at an offset [h] that is not negative, the record
    follows the 8 bytes of the header, and header and record end at the read
    cursor, which is not past the write cursor; this when sl_recvdata returns
    no more than it was asked for and no length found in the call, with the 8
    bytes of the header added, overflows an [int]. *)
Theorem delivered_packet_within_buffer (F : MSeedFormat) (G : GenUtils) (N : Network)
  (k : call) (c : SLCD) (w : world N) (r : Z) (p : SLpacket) (c' : SLCD) (w' : world N) :
  recv_bounded N ->
  call_fits F G N k c w = true ->
  cursors_ok (stat c) ->
  do_call F G N k c w = Some ((r, Some p), c', w') ->
  p = slpack (stat c') /\ packet_in_buffer (stat c').
Proof.
  intros Hr Hf H. destruct k as [fuel|m]; simpl; simpl in Hf.
  - unfold sl_collect.
    destruct (check_slcd N (info_was_set c) w) as [[stop c1] w1] eqn:E1.
    assert (H1 : cursors_ok (stat c1)).
    { eapply co_check_slcd; [|eauto]. apply co_info_was_set; auto. }
    destruct stop; [intros X; inversion X|].
    apply pib_primary_loop; auto.
  - intros X. inversion X. eapply pib_nb; eauto.
Qed.

(** The theorem above, at a session whose buffer holds a packet of GE WLF. *)
Lemma delivered_packet_within_buffer_witness :
  recv_bounded Session.metered
  /\ call_fits format genutils Session.metered (NonBlocking SLRECSIZEMAX)
       match_conn (Session.served []) = true
  /\ cursors_ok (stat match_conn)
  /\ exists r p c' w',
       do_call format genutils Session.metered (NonBlocking SLRECSIZEMAX)
         match_conn (Session.served []) = Some ((r, Some p), c', w')
       /\ p = slpack (stat c') /\ packet_in_buffer (stat c').
Proof.
  assert (A1 : call_fits format genutils Session.metered (NonBlocking SLRECSIZEMAX)
                 match_conn (Session.served []) = true).
  { vm_compute. reflexivity. }
  assert (A2 : recv_bounded Session.metered).
  { intros c n e r data e'. cbn [Session.metered w_recvdata].
    destruct (n <? 0) eqn:E0; [intros X; inversion X; lia|].
    destruct e as [|d q]; intros X; inversion X; [lia|].
    rewrite length_firstn. lia. }
  assert (A3 : cursors_ok (stat match_conn)).
  { unfold cursors_ok. repeat split; vm_compute; discriminate. }
  split; [exact A2|]. split; [exact A1|]. split; [exact A3|].
  eexists. eexists. eexists. eexists.
  match goal with
  | |- ?X /\ _ => assert (B : X) by (vm_compute; reflexivity); split; [exact B|]
  end.
  exact (delivered_packet_within_buffer format genutils Session.metered
           _ _ _ _ _ _ _ A2 A1 A3 B).
Defined.

(** X11: What a collect call hands back is one of three things: SLPACKET with the
    packet of the descriptor, SLTERMINATE without a packet, or SLNOPACKET
    without a packet; sl_collect never returns SLNOPACKET. *)
Theorem collect_result_shape (F : MSeedFormat) (G : GenUtils) (N : Network)
  (k : call) (c : SLCD) (w : world N) (r : Z) (o : option SLpacket) (c' : SLCD)
  (w' : world N) :
  do_call F G N k c w = Some ((r, o), c', w') ->
  (r = SLPACKET /\ o = Some (slpack (stat c')))
  \/ (r = SLTERMINATE /\ o = None)
  \/ (r = SLNOPACKET /\ o = None /\ exists m, k = NonBlocking m).
Proof.
  destruct k as [fuel|m]; simpl.
  - unfold sl_collect.
    destruct (check_slcd N (info_was_set c) w) as [[stop c1] w1].
    destruct stop; [intros X; inversion X; subst; auto|].
    intros X. apply shape_primary_loop in X. tauto.
  - intros X. inversion X as [X']. apply shape_nb in X'.
    destruct X' as [?|[?|[? ?]]]; auto.
    right. right. repeat split; auto. exists m. reflexivity.
Qed.

(** The theorem above, at a call of sl_collect on a session whose buffer
    holds a packet. *)
Lemma collect_result_shape_witness :
  exists r o c' w',
    do_call format genutils scripted (Blocking 3) match_conn (start [])
    = Some ((r, o), c', w')
    /\ ((r = SLPACKET /\ o = Some (slpack (stat c')))
        \/ (r = SLTERMINATE /\ o = None)
        \/ (r = SLNOPACKET /\ o = None /\ exists m, Blocking 3 = NonBlocking m)).
Proof.
  eexists. eexists. eexists. eexists.
  match goal with
  | |- ?X /\ _ => assert (B : X) by (vm_compute; reflexivity); split; [exact B|]
  end.
  exact (collect_result_shape format genutils scripted _ _ _ _ _ _ _ B).
Defined.

(** X12: With a reconnect delay of 0 a lost link is never brought up again: when
    the link is down, the session is not terminating, netdly is 0 and the
    delay trigger is not at 0, no sequence of collect calls makes any contact
    with the server, and the session is in the same situation afterwards. *)
Theorem stranded_session_never_reconnects (F : MSeedFormat) (G : GenUtils) (N : Network)
  (ks : list call) (c : SLCD) (w : world N) (rs : list result) (c' : SLCD)
  (w' : world N) :
  stranded c ->
  do_calls F G N ks c w = Some (rs, c', w') ->
  stranded c' /\ contacts (trace w') = contacts (trace w).
Proof.
  revert c w rs c' w'.
  induction ks as [|k ks IH]; intros c w rs c' w' S E; simpl in E.
  - inversion E; subst. auto.
  - destruct (do_call F G N k c w) as [[[r c1] w1]|] eqn:E1; [|discriminate].
    destruct (do_calls F G N ks c1 w1) as [[[rs2 c2] w2]|] eqn:E2; [|discriminate].
    inversion E; subst.
    destruct (stranded_call F G N _ _ _ _ _ _ S E1) as [S1 C1].
    destruct (IH _ _ _ _ _ S1 E2) as [S2 C2].
    split; [exact S2|congruence].
Qed.

(** The theorem above, at two calls after the link was lost with a reconnect
    delay of 0. *)
Lemma stranded_session_never_reconnects_witness :
  stranded Session.stranded_conn
  /\ exists rs c' w',
       do_calls format genutils scripted twice Session.stranded_conn (start [])
       = Some (rs, c', w')
       /\ stranded c' /\ contacts (trace w') = contacts (trace (start [])).
Proof.
  assert (A : stranded Session.stranded_conn).
  { unfold stranded. repeat split; vm_compute; try reflexivity; discriminate. }
  split; [exact A|].
  eexists. eexists. eexists.
  match goal with
  | |- ?X /\ _ => assert (B : X) by (vm_compute; reflexivity); split; [exact B|]
  end.
  exact (stranded_session_never_reconnects format genutils scripted _ _ _ _ _ _ A B).
Defined.

(** X13: While the reconnect delay runs, a call of the non-blocking function
    sleeps: with the link down, the session not terminating, the delay
    trigger set and the description accepted, sl_collect_nb_size calls
    slp_usleep for half a second, makes no contact with the server and leaves
    the link down. *)
Theorem nonblocking_call_sleeps_while_delay_runs (F : MSeedFormat) (G : GenUtils)
  (N : Network) (c : SLCD) (m : Z) (w : world N) (r : result) (c' : SLCD) (w' : world N) :
  link c = -1 -> terminate c = 0 -> netdly_trig (stat c) > 0 ->
  sl_checkslcd N (info_was_set c) = 0 ->
  sl_collect_nb_size F G N c m w = (r, c', w') ->
  (exists tl, trace w' = trace w ++ Sleep 500000 :: tl)
  /\ contacts (trace w') = contacts (trace w)
  /\ link c' = -1.
Proof.
  intros L T D K E.
  destruct (down_nb F G N _ _ _ _ _ _ L T ltac:(lia) E) as (A & _ & _ & _ & C & S).
  repeat split; auto.
Qed.

(** The theorem above, at a session that waits for its reconnect delay. *)
Lemma nonblocking_call_sleeps_while_delay_runs_witness :
  link Session.delayed_conn = -1 /\ terminate Session.delayed_conn = 0
  /\ netdly_trig (stat Session.delayed_conn) > 0
  /\ sl_checkslcd scripted (info_was_set Session.delayed_conn) = 0
  /\ exists r c' w',
       sl_collect_nb_size format genutils scripted Session.delayed_conn SLRECSIZEMAX
         (start []) = (r, c', w')
       /\ (exists tl, trace w' = trace (start []) ++ Sleep 500000 :: tl)
       /\ contacts (trace w') = contacts (trace (start []))
       /\ link c' = -1.
Proof.
  assert (A1 : link Session.delayed_conn = -1) by reflexivity.
  assert (A2 : terminate Session.delayed_conn = 0) by reflexivity.
  assert (A3 : netdly_trig (stat Session.delayed_conn) > 0) by reflexivity.
  assert (A4 : sl_checkslcd scripted (info_was_set Session.delayed_conn) = 0) by reflexivity.
  repeat (split; [assumption|]).
  eexists. eexists. eexists.
  match goal with
  | |- ?X /\ _ => assert (B : X) by (vm_compute; reflexivity); split; [exact B|]
  end.
  exact (nonblocking_call_sleeps_while_delay_runs format genutils scripted
           _ _ _ _ _ _ A1 A2 A3 A4 B).
Defined.

(** X14: With a reconnect delay of 0 the blocking function does not come back
    from a lost link: when the session is stranded, the description is
    accepted and the buffer holds less than a packet and neither the ERROR
    nor the END line, sl_collect never returns, however long it runs. *)
Theorem sl_collect_never_returns_when_stranded (F : MSeedFormat) (G : GenUtils)
  (N : Network) (c : SLCD) (w : world N) (fuel : nat) :
  stranded c -> nothing_pending c ->
  sl_checkslcd N (info_was_set c) = 0 ->
  sl_collect F G N fuel c w = None.
Proof.
  intros (L & T & Z & D) P K. unfold sl_collect.
  pose proof (info_was_set_frame c) as ((L0 & T0 & _ & B0 & R0 & _ & D0) & S0 & _).
  assert (N0 : netdly (info_was_set c) = netdly c).
  { unfold info_was_set. destruct (info c); reflexivity. }
  set (c0 := info_was_set c) in *.
  unfold check_slcd. replace (link c0 =? -1) with true by lia.
  replace (sl_checkslcd N c0 =? 0) with true by lia. cbn [negb].
  apply stranded_loop_spins.
  - unfold stranded. fields. repeat split; congruence.
  - eapply nothing_pending_ext; [| | |exact P]; fields; congruence.
Qed.

(** The theorem above, at a session that lost its link with a reconnect delay
    of 0, for a thousand passes of the primary loop. *)
Lemma sl_collect_never_returns_when_stranded_witness :
  stranded Session.stranded_conn /\ nothing_pending Session.stranded_conn
  /\ sl_checkslcd scripted (info_was_set Session.stranded_conn) = 0
  /\ sl_collect format genutils scripted 1000 Session.stranded_conn (start []) = None.
Proof.
  assert (A1 : stranded Session.stranded_conn).
  { unfold stranded. repeat split; vm_compute; try reflexivity; discriminate. }
  assert (A2 : nothing_pending Session.stranded_conn).
  { unfold nothing_pending. repeat split; vm_compute; reflexivity. }
  assert (A3 : sl_checkslcd scripted (info_was_set Session.stranded_conn) = 0) by reflexivity.
  repeat (split; [assumption|]).
  exact (sl_collect_never_returns_when_stranded format genutils scripted
           Session.stranded_conn (start []) 1000 A1 A2 A3).
Defined.

(** X15: The first call on a new descriptor goes to the server at once.  For a
    descriptor that has the state of the one sl_newslcd returns, a call of
    sl_collect_nb_size whose description is accepted calls sl_connect before
    anything else; when the description is refused the call returns
    SLTERMINATE, having only logged the refusal. *)
Theorem first_call_connects_at_once (F : MSeedFormat) (G : GenUtils) (N : Network)
  (slcd_ok stat_ok : bool) (databuf0 : list Z) (reclen0 : Z) (c0 : SLCD)
  (logs : list event) (c : SLCD) (m : Z) (w : world N) (r : result) (c' : SLCD)
  (w' : world N) :
  sl_newslcd slcd_ok stat_ok databuf0 reclen0 = (Some c0, logs) ->
  stat c = stat c0 -> link c = link c0 -> terminate c = terminate c0 ->
  sl_collect_nb_size F G N c m w = (r, c', w') ->
  (sl_checkslcd N (info_was_set c) = 0 ->
   exists tl, trace w' = trace w ++ Connect :: tl)
  /\ (sl_checkslcd N (info_was_set c) <> 0 ->
      r = (SLTERMINATE, None)
      /\ trace w' = trace w ++ [Log 2 0 "problems with the connection description\n"]).
Proof.
  intros H Hs Hl Ht.
  assert (X : link c = -1 /\ terminate c = 0 /\ netdly_trig (stat c) = 0).
  { unfold sl_newslcd in H. destruct slcd_ok, stat_ok; simpl in H; try discriminate.
    inversion H; subst c0. rewrite Hs, Hl, Ht. simpl. auto. }
  clear H Hs Hl Ht. destruct X as (L & T & D).
  unfold sl_collect_nb_size.
  pose proof (info_was_set_frame c) as ((L0 & T0 & _ & _ & _ & _ & D0) & _).
  set (c1 := info_was_set c) in *.
  unfold check_slcd. replace (link c1 =? -1) with true by lia.
  destruct (sl_checkslcd N c1 =? 0) eqn:K; cbn [negb].
  - replace (terminate (upd_stat (st_keepalive_trig (-1))
                         (upd_stat (st_netto_trig (-1)) c1)) =? 0)
      with true by (fields; lia).
    destruct (main_sequence N _ w) as [c2 w2] eqn:E2.
    apply main_sequence_connects in E2; [|fields; lia|fields; lia].
    destruct E2 as [tl2 E2].
    intros X. apply extends_nb_tail in X. destruct X as [tl X].
    split; [|intros; lia].
    intros _. exists (tl2 ++ tl). rewrite X, E2, <- app_assoc. reflexivity.
  - intros X; inv_pairs. split; [intros; lia|]. intros _. split; reflexivity.
Qed.

(** The theorem above, at a new descriptor that was given a server address. *)
Lemma first_call_connects_at_once_witness :
  exists c0 logs,
    sl_newslcd true true (databuf new_stat) 0 = (Some c0, logs)
    /\ stat new_slcd = stat c0 /\ link new_slcd = link c0
    /\ terminate new_slcd = terminate c0
    /\ exists r c' w',
         sl_collect_nb_size format genutils scripted new_slcd SLRECSIZEMAX (start [])
         = (r, c', w')
         /\ (sl_checkslcd scripted (info_was_set new_slcd) = 0 ->
             exists tl, trace w' = trace (start []) ++ Connect :: tl)
         /\ (sl_checkslcd scripted (info_was_set new_slcd) <> 0 ->
             r = (SLTERMINATE, None)
             /\ trace w' = trace (start [])
                           ++ [Log 2 0 "problems with the connection description\n"]).
Proof.
  eexists. eexists.
  match goal with
  | |- ?X /\ _ => assert (A1 : X) by reflexivity; split; [exact A1|]
  end.
  assert (A2 : stat new_slcd
               = stat {| streams := []; sladdr := None; begin_time := None;
                         end_time := None; resume := 1; multistation := 0; dialup := 0;
                         batchmode := 0; lastpkttime := 1; terminate := 0; keepalive := 0;
                         iotimeout := 60; netto := 600; netdly := 30; info := None;
                         link := -1; stat := new_stat |}) by reflexivity.
  split; [exact A2|]. split; [reflexivity|]. split; [reflexivity|].
  eexists. eexists. eexists.
  match goal with
  | |- ?X /\ _ => assert (B : X) by (vm_compute; reflexivity); split; [exact B|]
  end.
  exact (first_call_connects_at_once format genutils scripted _ _ _ _ _ _ _ _ _ _ _ _
           A1 A2 eq_refl eq_refl B).
Defined.



(** X17: What sl_sequence returns is -1 or a number of 24 bits; it is -1 when the
    header does not start with SL, and 0 when it starts with SLINFO. *)
Theorem sl_sequence_range (head : Z -> Z) :
  -1 <= sl_sequence head <= 16777215
  /\ (mem_equal head SIGNATURE = false -> sl_sequence head = -1)
  /\ (mem_equal head INFOSIGNATURE = true -> sl_sequence head = 0).
Proof.
  split; [|split].
  - destruct (Z.eq_dec (sl_sequence head) (-1)) as [E|E]; [lia|].
    destruct (sl_sequence_valid head E) as [_ X]. lia.
  - intros H. unfold sl_sequence. rewrite H. reflexivity.
  - intros H. unfold sl_sequence.
    rewrite (mem_equal_info_signature head H), H. reflexivity.
Qed.

(** X18: Reading back what a server writes: for every sequence number [n] of 24
    bits, a header that is SL followed by the six upper-case hexadecimal
    digits of [n] gives [n]. *)
Theorem sl_sequence_round_trip (head : Z -> Z) (n : Z) :
  0 <= n < 16777216 ->
  bytes_at head 8 = SIGNATURE ++ hex6 n ->
  sl_sequence head = n.
Proof.
  intros Hn Hb.
  change SIGNATURE with [83; 76] in Hb.
  unfold bytes_at, hex6 in Hb.
  cbn [seq map app Z.of_nat Pos.of_succ_nat Pos.succ] in Hb.
  injection Hb as H0 H1 D0 D1 D2 D3 D4 D5.
  set (d0 := (n / 16 ^ 5) mod 16) in *. set (d1 := (n / 16 ^ 4) mod 16) in *.
  set (d2 := (n / 16 ^ 3) mod 16) in *. set (d3 := (n / 16 ^ 2) mod 16) in *.
  set (d4 := (n / 16 ^ 1) mod 16) in *. set (d5 := (n / 16 ^ 0) mod 16) in *.
  assert (R0 : 0 <= d0 < 16) by (apply Z.mod_pos_bound; lia).
  assert (R1 : 0 <= d1 < 16) by (apply Z.mod_pos_bound; lia).
  assert (R2 : 0 <= d2 < 16) by (apply Z.mod_pos_bound; lia).
  assert (R3 : 0 <= d3 < 16) by (apply Z.mod_pos_bound; lia).
  assert (R4 : 0 <= d4 < 16) by (apply Z.mod_pos_bound; lia).
  assert (R5 : 0 <= d5 < 16) by (apply Z.mod_pos_bound; lia).
  assert (Hs : mem_equal head SIGNATURE = true).
  { change SIGNATURE with [83; 76]. unfold mem_equal, list_eqb, bytes_at. cbn.
    rewrite H0, H1. reflexivity. }
  change 2 with (2 + 0) in D0. change 3 with (2 + 1) in D1. change 4 with (2 + 2) in D2.
  change 5 with (2 + 3) in D3. change 6 with (2 + 4) in D4. change 7 with (2 + 5) in D5.
  assert (H6 : six_hex_digits head = true).
  { unfold six_hex_digits, is_hex. cbn [forallb].
    rewrite D0, D1, D2, D3, D4, D5.
    rewrite !hex_val_hex_char by assumption. reflexivity. }
  destruct (sl_sequence_six_hex_digits head Hs H6) as [E _].
  rewrite E. unfold hex6_value. cbn [fold_left].
  rewrite D0, D1, D2, D3, D4, D5.
  rewrite !hex_val_hex_char by assumption.
  subst d0 d1 d2 d3 d4 d5. clear - Hn.
  change (Z.pow_pos 16 5) with 1048576. change (Z.pow_pos 16 4) with 65536.
  change (Z.pow_pos 16 3) with 4096. change (Z.pow_pos 16 2) with 256.
  change (Z.pow_pos 16 1) with 16.
  pose proof (Z.div_mod n 1048576). pose proof (Z.mod_pos_bound n 1048576).
  rewrite (Z.mod_small (n / 1048576) 16) by (split; [apply Z.div_pos; lia|apply Z.div_lt_upper_bound; lia]).
  rewrite Z.div_1_r.
  assert (E4 : n / 65536 = 16 * (n / 1048576) + (n / 65536) mod 16).
  { replace 1048576 with (65536 * 16) by reflexivity. rewrite <- Z.div_div by lia.
    apply Z.div_mod. lia. }
  assert (E3 : n / 4096 = 16 * (n / 65536) + (n / 4096) mod 16).
  { replace 65536 with (4096 * 16) by reflexivity. rewrite <- Z.div_div by lia.
    apply Z.div_mod. lia. }
  assert (E2 : n / 256 = 16 * (n / 4096) + (n / 256) mod 16).
  { replace 4096 with (256 * 16) by reflexivity. rewrite <- Z.div_div by lia.
    apply Z.div_mod. lia. }
  assert (E1 : n / 16 = 16 * (n / 256) + (n / 16) mod 16).
  { replace 256 with (16 * 16) by reflexivity. rewrite <- Z.div_div by lia.
    apply Z.div_mod. lia. }
  pose proof (Z.div_mod n 16). lia.
Qed.

(** The theorem above, at the header SL00ABCD. *)
Lemma sl_sequence_round_trip_witness :
  0 <= 43981 < 16777216
  /\ bytes_at (view data_bytes 0) 8 = SIGNATURE ++ hex6 43981
  /\ sl_sequence (view data_bytes 0) = 43981.
Proof.
  assert (A1 : 0 <= 43981 < 16777216) by lia.
  assert (A2 : bytes_at (view data_bytes 0) 8 = SIGNATURE ++ hex6 43981)
    by (vm_compute; reflexivity).
  split; [exact A1|]. split; [exact A2|].
  exact (sl_sequence_round_trip (view data_bytes 0) 43981 A1 A2).
Defined.

(** X19: detect follows the chain of blockettes to the 1000 blockette.  For a
    miniSEED 2 record whose chain leads, each blockette pointing forward, to a
    whole 1000 blockette whose length exponent [e] is at most 30, detect
    returns the length 2^e. *)
Theorem detect_length_from_blockette_1000 (F : MSeedFormat) (record : Z -> Z)
  (recbuflen target : Z) :
  SLRECSIZEMIN <= recbuflen ->
  MS3_ISVALIDHEADER F record = false ->
  MS2_ISVALIDHEADER F record = true ->
  leads_to_b1000 F record recbuflen
    (negb (MS_ISVALIDYEARDAY F (pMS2FSDH_YEAR F record) (pMS2FSDH_DAY F record)))
    (HO2u (pMS2FSDH_BLOCKETTEOFFSET F record)
       (negb (MS_ISVALIDYEARDAY F (pMS2FSDH_YEAR F record) (pMS2FSDH_DAY F record))))
    target ->
  0 <= record (target + 6) <= 30 ->
  detect F record recbuflen = (2 ^ record (target + 6), 2).
Proof.
  intros Hb H3 H2 Hc He. unfold detect.
  replace (recbuflen <? SLRECSIZEMIN) with false by lia.
  rewrite H3, H2. cbv zeta.
  set (sw := negb (MS_ISVALIDYEARDAY F (pMS2FSDH_YEAR F record) (pMS2FSDH_DAY F record))) in *.
  destruct (blkt_loop_follows F _ _ _ _ _ Hc blkt_fuel) as [X|X].
  - destruct (detect_fuel_suffices F record recbuflen sw) as [Y _]. contradiction.
  - rewrite X. rewrite shl1_int32_pow by exact He.
    unfold scan_next.
    assert (0 < 2 ^ record (target + 6)) by (apply Z.pow_pos_nonneg; lia).
    replace (2 ^ record (target + 6) =? -1) with false by lia. reflexivity.
Qed.

(** The theorem above, at the record of 512 bytes of the examples, whose
    first blockette is the 1000 blockette. *)
Lemma detect_length_from_blockette_1000_witness :
  SLRECSIZEMIN <= 512
  /\ MS3_ISVALIDHEADER format (view rec512 0) = false
  /\ MS2_ISVALIDHEADER format (view rec512 0) = true
  /\ leads_to_b1000 format (view rec512 0) 512
       (negb (MS_ISVALIDYEARDAY format (pMS2FSDH_YEAR format (view rec512 0))
                (pMS2FSDH_DAY format (view rec512 0))))
       (HO2u (pMS2FSDH_BLOCKETTEOFFSET format (view rec512 0))
          (negb (MS_ISVALIDYEARDAY format (pMS2FSDH_YEAR format (view rec512 0))
                   (pMS2FSDH_DAY format (view rec512 0)))))
       48
  /\ 0 <= view rec512 0 (48 + 6) <= 30
  /\ detect format (view rec512 0) 512 = (2 ^ view rec512 0 (48 + 6), 2).
Proof.
  assert (A1 : SLRECSIZEMIN <= 512) by (vm_compute; discriminate).
  assert (A2 : MS3_ISVALIDHEADER format (view rec512 0) = false) by (vm_compute; reflexivity).
  assert (A3 : MS2_ISVALIDHEADER format (view rec512 0) = true) by (vm_compute; reflexivity).
  assert (A4 : leads_to_b1000 format (view rec512 0) 512
                 (negb (MS_ISVALIDYEARDAY format (pMS2FSDH_YEAR format (view rec512 0))
                          (pMS2FSDH_DAY format (view rec512 0))))
                 (HO2u (pMS2FSDH_BLOCKETTEOFFSET format (view rec512 0))
                    (negb (MS_ISVALIDYEARDAY format (pMS2FSDH_YEAR format (view rec512 0))
                             (pMS2FSDH_DAY format (view rec512 0)))))
                 48).
  { assert (S : negb (MS_ISVALIDYEARDAY format (pMS2FSDH_YEAR format (view rec512 0))
                        (pMS2FSDH_DAY format (view rec512 0))) = true)
      by (vm_compute; reflexivity).
    rewrite S.
    assert (O : HO2u (pMS2FSDH_BLOCKETTEOFFSET format (view rec512 0)) true = 48)
      by (vm_compute; reflexivity).
    rewrite O.
    apply b1000_here.
    - split; [reflexivity|discriminate].
    - vm_compute; reflexivity.
    - discriminate. }
  assert (A5 : 0 <= view rec512 0 (48 + 6) <= 30) by (vm_compute; split; discriminate).
  repeat (split; [assumption|]).
  exact (detect_length_from_blockette_1000 format (view rec512 0) 512 48 A1 A2 A3 A4 A5).
Defined.

(** X20: Without blockettes the length of a miniSEED 2 record is the distance to
    the next header.  When the header names no blockette, detect looks at the
    offsets 64, 128, ... for which 48 more bytes are in the buffer: it returns
    the first of them at which a valid header stands, and -1 when there is
    none. *)
Theorem detect_length_from_next_header (F : MSeedFormat) (record : Z -> Z)
  (recbuflen : Z) :
  SLRECSIZEMIN <= recbuflen <= INT_MAX ->
  MS3_ISVALIDHEADER F record = false ->
  MS2_ISVALIDHEADER F record = true ->
  pMS2FSDH_BLOCKETTEOFFSET F record = 0 ->
  (exists j, 1 <= j /\ detect F record recbuflen = (64 * j, 2)
     /\ 64 * j + 48 < recbuflen
     /\ ms2_header_at F record (64 * j) = true
     /\ forall j', 1 <= j' < j -> ms2_header_at F record (64 * j') = false)
  \/ (detect F record recbuflen = (-1, 2)
      /\ forall j, 1 <= j -> 64 * j + 48 < recbuflen ->
           ms2_header_at F record (64 * j) = false).
Proof.
  intros Hb H3 H2 H0. unfold detect.
  replace (recbuflen <? SLRECSIZEMIN) with false by (unfold SLRECSIZEMIN in *; lia).
  rewrite H3, H2, H0. cbv zeta.
  assert (Z0 : forall b, HO2u 0 b = 0) by (intros []; reflexivity).
  rewrite Z0. unfold blkt_fuel. simpl blkt_loop.
  unfold scan_next. cbn [Z.eqb].
  destruct (detect_fuel_suffices F record recbuflen false) as [_ Y].
  specialize (Y ltac:(unfold SLRECSIZEMIN in *; lia)).
  pose proof (scan_loop_first F (scan_fuel recbuflen) record recbuflen 64) as S.
  destruct (scan_loop F (scan_fuel recbuflen) record recbuflen 64) as [[r|]|];
    [| |contradiction].
  - left. destruct S as (j & J0 & J1 & J2 & J3 & J4).
    exists (j + 1). replace (64 * (j + 1)) with r by lia.
    split; [lia|]. split.
    + rewrite wrap32s_id; [reflexivity|]. unfold INT_MAX in Hb. lia.
    + repeat split; auto.
      intros j' Hj. specialize (J4 (j' - 1) ltac:(lia)).
      replace (64 + 64 * (j' - 1)) with (64 * j') in J4 by lia. exact J4.
  - right. split; [reflexivity|].
    intros j Hj Hl. specialize (S (j - 1) ltac:(lia)).
    replace (64 + 64 * (j - 1)) with (64 * j) in S by lia. apply S. exact Hl.
Qed.

(** The theorem above, at two records of 64 bytes without blockettes. *)
Lemma detect_length_from_next_header_witness :
  SLRECSIZEMIN <= 128 <= INT_MAX
  /\ MS3_ISVALIDHEADER format (view Session.two_bare_records 0) = false
  /\ MS2_ISVALIDHEADER format (view Session.two_bare_records 0) = true
  /\ pMS2FSDH_BLOCKETTEOFFSET format (view Session.two_bare_records 0) = 0
  /\ ((exists j, 1 <= j
         /\ detect format (view Session.two_bare_records 0) 128 = (64 * j, 2)
         /\ 64 * j + 48 < 128
         /\ ms2_header_at format (view Session.two_bare_records 0) (64 * j) = true
         /\ forall j', 1 <= j' < j ->
              ms2_header_at format (view Session.two_bare_records 0) (64 * j') = false)
      \/ (detect format (view Session.two_bare_records 0) 128 = (-1, 2)
          /\ forall j, 1 <= j -> 64 * j + 48 < 128 ->
               ms2_header_at format (view Session.two_bare_records 0) (64 * j) = false)).
Proof.
  assert (A1 : SLRECSIZEMIN <= 128 <= INT_MAX) by (vm_compute; split; discriminate).
  assert (A2 : MS3_ISVALIDHEADER format (view Session.two_bare_records 0) = false)
    by (vm_compute; reflexivity).
  assert (A3 : MS2_ISVALIDHEADER format (view Session.two_bare_records 0) = true)
    by (vm_compute; reflexivity).
  assert (A4 : pMS2FSDH_BLOCKETTEOFFSET format (view Session.two_bare_records 0) = 0)
    by (vm_compute; reflexivity).
  repeat (split; [assumption|]).
  exact (detect_length_from_next_header format (view Session.two_bare_records 0) 128
           A1 A2 A3 A4).
Defined.

(** X21: sl_packettype comes back on every record whose blockettes point forward:
    when each blockette of the chain that starts within the first
    MAX_HEADER_SIZE bytes names a next blockette beyond itself or none, the
    walk ends within 131 passes, and the answer is the same however much
    longer it is allowed to run. *)
Theorem sl_packettype_returns_on_forward_chain (slhead record : Z -> Z) :
  forward_chain record ->
  exists t, forall k, sl_packettype (131 + k) slhead record = Some t.
Proof.
  intros Hf. unfold sl_packettype.
  destruct (mem_equal slhead INFOSIGNATURE).
  { eexists. intros k. reflexivity. }
  set (o := int16 (ntohs_at record 46)).
  assert (B : (if o <? 0 then 130 else 129 - o) <= Z.of_nat 130).
  { unfold o, int16. pose proof (ntohs_at_range record 46).
    destruct (ntohs_at record 46 <? 32768) eqn:E.
    - replace (ntohs_at record 46 <? 0) with false by lia. lia.
    - replace (ntohs_at record 46 - 65536 <? 0) with true by lia. lia. }
  pose proof (packettype_loop_total record Hf 130 o false (chain_first record) B) as T.
  destruct (packettype_loop 131 record o false) as [r|] eqn:E; [|contradiction].
  pose proof (packettype_loop_more_fuel record _ _ _ _ E) as M.
  destruct r as [t|b2000].
  - exists t. intros k. rewrite (M k). reflexivity.
  - eexists. intros k. rewrite (M k). reflexivity.
Qed.

(** The theorem above, at the record of 512 bytes of the examples, whose
    chain is the 1000 blockette at offset 48. *)
Lemma sl_packettype_returns_on_forward_chain_witness :
  forward_chain (view rec512 0)
  /\ exists t, forall k,
       sl_packettype (131 + k) (view data_bytes 0) (view rec512 0) = Some t.
Proof.
  assert (A : forward_chain (view rec512 0)).
  { assert (C : forall off, on_chain (view rec512 0) off -> off = 48).
    { intros off H. induction H as [|off H IH Hn].
      - vm_compute. reflexivity.
      - subst off. exfalso. apply Hn. vm_compute. reflexivity. }
    intros off H _. rewrite (C off H). left. vm_compute. reflexivity. }
  split; [exact A|].
  exact (sl_packettype_returns_on_forward_chain (view data_bytes 0) (view rec512 0) A).
Defined.

(** X22: sl_packettype does not come back from a blockette that names itself as
    the next one.  For a packet that is not an INFO packet, when the first
    blockette is within the header, is none of the types reported and gives
    its own offset as the offset of the next blockette, the loop never ends,
    however long it runs. *)
Theorem sl_packettype_hangs_on_self_reference (slhead record : Z -> Z) (fuel : nat) :
  mem_equal slhead INFOSIGNATURE = false ->
  0 < ntohs_at record 46 <= MAX_HEADER_SIZE ->
  marker_type (ntohs_at record (ntohs_at record 46)) = false ->
  ntohs_at record (ntohs_at record 46 + 2) = ntohs_at record 46 ->
  sl_packettype fuel slhead record = None.
Proof.
  intros Hi Ho Hm Hs. unfold sl_packettype. rewrite Hi.
  assert (E : int16 (ntohs_at record 46) = ntohs_at record 46).
  { unfold int16, MAX_HEADER_SIZE in *.
    replace (ntohs_at record 46 <? 32768) with true by lia. reflexivity. }
  rewrite E.
  rewrite packettype_loop_self; auto; lia.
Qed.

(** The theorem above, at a record whose blockette at offset 48 names offset
    48 as the next one, for a thousand passes. *)
Lemma sl_packettype_hangs_on_self_reference_witness :
  mem_equal (view data_bytes 0) INFOSIGNATURE = false
  /\ 0 < ntohs_at (view Session.self_reference 0) 46 <= MAX_HEADER_SIZE
  /\ marker_type
       (ntohs_at (view Session.self_reference 0)
          (ntohs_at (view Session.self_reference 0) 46)) = false
  /\ ntohs_at (view Session.self_reference 0)
       (ntohs_at (view Session.self_reference 0) 46 + 2)
     = ntohs_at (view Session.self_reference 0) 46
  /\ sl_packettype 1000 (view data_bytes 0) (view Session.self_reference 0) = None.
Proof.
  assert (A1 : mem_equal (view data_bytes 0) INFOSIGNATURE = false)
    by (vm_compute; reflexivity).
  assert (A2 : 0 < ntohs_at (view Session.self_reference 0) 46 <= MAX_HEADER_SIZE)
    by (vm_compute; split; [reflexivity|discriminate]).
  assert (A3 : marker_type
                 (ntohs_at (view Session.self_reference 0)
                    (ntohs_at (view Session.self_reference 0) 46)) = false)
    by (vm_compute; reflexivity).
  assert (A4 : ntohs_at (view Session.self_reference 0)
                 (ntohs_at (view Session.self_reference 0) 46 + 2)
               = ntohs_at (view Session.self_reference 0) 46)
    by (vm_compute; reflexivity).
  repeat (split; [assumption|]).
  exact (sl_packettype_hangs_on_self_reference (view data_bytes 0)
           (view Session.self_reference 0) 1000 A1 A2 A3 A4).
Defined.

(** X23: A record without blockettes is not reported as data.  When the header
    names no first blockette, sl_packettype takes the start of the record for
    a blockette; the sequence number of a miniSEED 2 record is made of ASCII
    digits there, which sends the walk beyond the header, and the answer is
    SLNUM. *)
Theorem sl_packettype_without_blockettes (slhead record : Z -> Z) (n : nat) :
  mem_equal slhead INFOSIGNATURE = false ->
  ntohs_at record 46 = 0 ->
  (forall i, 0 <= i < 4 -> 48 <= record i <= 57) ->
  sl_packettype (S (S n)) slhead record = Some SLNUM.
Proof.
  intros Hi Ho Hd. unfold sl_packettype. rewrite Hi, Ho.
  change (int16 0) with 0.
  pose proof (Hd 0 ltac:(lia)) as D0. pose proof (Hd 1 ltac:(lia)) as D1.
  pose proof (Hd 2 ltac:(lia)) as D2. pose proof (Hd 3 ltac:(lia)) as D3.
  assert (T : 12336 <= ntohs_at record 0 <= 14649).
  { unfold ntohs_at, rd16. change (0 + 1) with 1.
    rewrite !Z.mod_small by lia. lia. }
  assert (X : 12336 <= ntohs_at record (0 + 2) <= 14649).
  { unfold ntohs_at, rd16. change (0 + 2) with 2. change (2 + 1) with 3.
    rewrite !Z.mod_small by lia. lia. }
  cbn [packettype_loop].
  replace (0 >? MAX_HEADER_SIZE) with false by reflexivity.
  replace ((200 <=? ntohs_at record 0) && (ntohs_at record 0 <=? 299)) with false by lia.
  replace ((300 <=? ntohs_at record 0) && (ntohs_at record 0 <=? 399)) with false by lia.
  replace ((500 <=? ntohs_at record 0) && (ntohs_at record 0 <=? 599)) with false by lia.
  replace (negb (ntohs_at record (0 + 2) =? 0)) with true by lia.
  replace (ntohs_at record (0 + 2) >? MAX_HEADER_SIZE) with true
    by (unfold MAX_HEADER_SIZE; lia).
  reflexivity.
Qed.

(** The theorem above, at a record of 64 bytes without blockettes. *)
Lemma sl_packettype_without_blockettes_witness :
  mem_equal (view data_bytes 0) INFOSIGNATURE = false
  /\ ntohs_at (view Session.bare_record 0) 46 = 0
  /\ (forall i, 0 <= i < 4 -> 48 <= view Session.bare_record 0 i <= 57)
  /\ sl_packettype 2 (view data_bytes 0) (view Session.bare_record 0) = Some SLNUM.
Proof.
  assert (A1 : mem_equal (view data_bytes 0) INFOSIGNATURE = false)
    by (vm_compute; reflexivity).
  assert (A2 : ntohs_at (view Session.bare_record 0) 46 = 0) by (vm_compute; reflexivity).
  assert (A3 : forall i, 0 <= i < 4 -> 48 <= view Session.bare_record 0 i <= 57).
  { intros i H.
    assert (D : i = 0 \/ i = 1 \/ i = 2 \/ i = 3) by lia.
    destruct D as [ E | [ E | [ E | E ] ] ]; rewrite E; vm_compute; split; discriminate. }
  repeat (split; [assumption|]).
  exact (sl_packettype_without_blockettes (view data_bytes 0)
           (view Session.bare_record 0) 0 A1 A2 A3).
Defined.

(** X24: sl_packettype reports an INFO packet exactly for the headers that start
    with SLINFO, whatever the record holds, and it never reports SLKEEP. *)
Theorem sl_packettype_info_by_header (fuel : nat) (slhead record : Z -> Z) (t : Z) :
  sl_packettype fuel slhead record = Some t ->
  ((t = SLINF \/ t = SLINFT) <-> mem_equal slhead INFOSIGNATURE = true)
  /\ (t = SLINFT -> slhead 7 <> 42) /\ (t = SLINF -> slhead 7 = 42)
  /\ 0 <= t <= 8.
Proof.
  unfold sl_packettype.
  destruct (mem_equal slhead INFOSIGNATURE) eqn:I.
  - change (SLHEADSIZE - 1) with 7.
    destruct (slhead 7 =? 42) eqn:E; cbn [negb]; intros X; inversion X; subst;
      unfold SLINF, SLINFT; repeat split; auto; try lia; try discriminate.
  - destruct (packettype_loop fuel record _ false) as [[t0|b]|] eqn:E; [| |discriminate].
    + intros X; inversion X; subst.
      apply packettype_loop_returns in E.
      unfold SLNUM, SLDET, SLCAL, SLTIM, SLINF, SLINFT in *.
      repeat split; try discriminate; try lia; try (intros [?|?]; lia).
    + intros X; inversion X; subst.
      unfold SLMSG, SLBLK, SLDATA, SLINF, SLINFT.
      repeat break_match; repeat split; try discriminate; try lia;
        try (intros [?|?]; lia).
Qed.

(** The theorem above, at the data packet of the examples. *)
Lemma sl_packettype_info_by_header_witness :
  exists t,
    sl_packettype 5 (view data_bytes 0) (view rec512 0) = Some t
    /\ ((t = SLINF \/ t = SLINFT) <-> mem_equal (view data_bytes 0) INFOSIGNATURE = true)
    /\ (t = SLINFT -> view data_bytes 0 7 <> 42)
    /\ (t = SLINF -> view data_bytes 0 7 = 42)
    /\ 0 <= t <= 8.
Proof.
  eexists.
  match goal with
  | |- ?X /\ _ => assert (B : X) by (vm_compute; reflexivity); split; [exact B|]
  end.
  exact (sl_packettype_info_by_header 5 (view data_bytes 0) (view rec512 0) _ B).
Defined.

(** X25: The address of a connection fits its array and its column: whatever the
    host and port attributes hold, the string that sprintf writes into the 25
    bytes of [address] has at most 21 characters, and printed with %-21s it
    takes exactly 21 columns. *)
Theorem connection_address_fits (host port : string) :
  (String.length (connection_address host port) <= 21)%nat
  /\ String.length (pad_right 21 (connection_address host port)) = 21%nat.
Proof.
  assert (H : (String.length (connection_address host port) <= 21)%nat).
  { unfold connection_address. rewrite !string_length_app.
    pose proof (string_firstn_length 15 host). pose proof (string_firstn_length 5 port).
    change (String.length ":") with 1%nat. lia. }
  split; [exact H|]. apply pad_right_length. exact H.
Qed.

(** X26: The queue length of a connection is the distance between two sequence
    numbers on the circle of 24 bits: for sequence numbers [a] and [b] written
    as six hexadecimal digits in the end_seq and current_seq attributes, the
    length computed is (a - b) mod 2^24, also when the end has wrapped past
    0xFFFFFF and is the smaller number. *)
Theorem connection_qlen_is_circular_distance (end_seq current_seq : string) (a b : Z) :
  0 <= a < 16777216 -> 0 <= b < 16777216 ->
  bytes_of_string end_seq = hex6 a ->
  bytes_of_string current_seq = hex6 b ->
  connection_qlen end_seq current_seq = (a - b) mod 2 ^ 24.
Proof.
  intros Ha Hb Ea Eb. unfold connection_qlen.
  rewrite Ea, Eb, !strtoul_hex_hex6 by assumption.
  change 16777215 with (Z.ones 24). rewrite Z.land_ones by lia.
  unfold wrap64u. apply Z.mod_mod_divide.
  exists (2 ^ 40). reflexivity.
Qed.

(** The theorem above, at a connection that is at 0xFFFFFE while the station
    is at 0x000005, seven packets further. *)
Lemma connection_qlen_is_circular_distance_witness :
  0 <= 5 < 16777216 /\ 0 <= 16777214 < 16777216
  /\ bytes_of_string "000005" = hex6 5
  /\ bytes_of_string "FFFFFE" = hex6 16777214
  /\ connection_qlen "000005" "FFFFFE" = (5 - 16777214) mod 2 ^ 24.
Proof.
  assert (A1 : 0 <= 5 < 16777216) by lia.
  assert (A2 : 0 <= 16777214 < 16777216) by lia.
  assert (A3 : bytes_of_string "000005" = hex6 5) by (vm_compute; reflexivity).
  assert (A4 : bytes_of_string "FFFFFE" = hex6 16777214) by (vm_compute; reflexivity).
  repeat (split; [assumption|]).
  exact (connection_qlen_is_circular_distance "000005" "FFFFFE" 5 16777214 A1 A2 A3 A4).
Defined.

(** X27: Once the terminate flag is set, a collect call leaves the network alone:
    it closes the link if it is open, makes no contact with the server, and
    returns a packet that was already in the buffer or SLTERMINATE, never
    SLNOPACKET; sl_collect returns from its first pass. *)
Theorem terminating_call_closes_link (F : MSeedFormat) (G : GenUtils) (N : Network)
  (k : call) (c : SLCD) (w : world N) :
  terminate c <> 0 -> has_fuel k ->
  exists r o c' w',
    do_call F G N k c w = Some ((r, o), c', w')
    /\ link c' = -1
    /\ contacts (trace w') = contacts (trace w)
    /\ (r = SLPACKET \/ r = SLTERMINATE).
Proof.
  intros T Hk.
  pose proof (info_was_set_frame c) as ((L0 & T0 & _) & _).
  assert (Q : forall final, exists r o c' w',
             (let '(stop, c1, w1) := check_slcd N (info_was_set c) w in
              if stop then Some ((SLTERMINATE, None), c1, w1)
              else
                let '(c2, w2) := terminating N final c1 w1 in
                match process_buffer F G N c2 w2 with
                | (LoopPacket, c3, w3) => Some ((SLPACKET, Some (slpack (stat c3))), c3, w3)
                | (LoopTerminate, c3, w3) => Some ((SLTERMINATE, None), c3, w3)
                | (LoopDone, c3, w3) => Some ((SLTERMINATE, None), c3, w3)
                end) = Some ((r, o), c', w')
             /\ link c' = -1 /\ contacts (trace w') = contacts (trace w)
             /\ (r = SLPACKET \/ r = SLTERMINATE)).
  { intros final.
    destruct (check_slcd_cases N (info_was_set c) w) as [(L & K & E)|(c1 & E & _ & Fr & _)];
      rewrite E.
    - do 4 eexists. split; [reflexivity|]. unfold sl_log_r, emit; cbn [trace].
      rewrite contacts_app, app_nil_r. repeat split; auto.
    - destruct Fr as (_ & T1 & _).
      pose proof (terminating_pass F G N final c1 w ltac:(congruence)) as P.
      destruct (terminating N final c1 w) as [c2 w2].
      destruct P as (ex & c3 & w3 & E3 & L3 & T3 & C3). rewrite E3.
      destruct ex; do 4 eexists; (split; [reflexivity|]); repeat split; auto. }
  destruct k as [[|fuel]|m]; [simpl in Hk; lia| |].
  - destruct (Q SL_DOWN) as (r & o & c' & w' & E & R). exists r, o, c', w'.
    split; [|exact R]. rewrite <- E. unfold do_call, sl_collect.
    destruct (check_slcd_cases N (info_was_set c) w) as [(L & K & E1)|(c1 & E1 & _ & Fr & _)];
      rewrite E1; [reflexivity|].
    destruct Fr as (_ & T1 & _).
    cbn [primary_loop]. replace (terminate c1 =? 0) with false by lia.
    destruct (terminating N SL_DOWN c1 w) as [c2 w2] eqn:E2.
    pose proof (terminating_closed N _ _ _ _ _ E2) as (_ & T2 & _).
    destruct (process_buffer F G N c2 w2) as [[ex c3] w3] eqn:E3.
    pose proof (process_buffer_frame F G N _ _ _ _ _ E3) as ((_ & T3 & _) & _).
    destruct ex; try reflexivity.
    replace (terminate c3 =? 0) with false by lia. reflexivity.
  - destruct (Q SL_DATA) as (r & o & c' & w' & E & R). exists r, o, c', w'.
    split; [|exact R]. rewrite <- E. unfold do_call, sl_collect_nb_size.
    destruct (check_slcd_cases N (info_was_set c) w) as [(L & K & E1)|(c1 & E1 & _ & Fr & _)];
      rewrite E1; [reflexivity|].
    destruct Fr as (_ & T1 & _).
    replace (terminate c1 =? 0) with false by lia.
    destruct (terminating N SL_DATA c1 w) as [c2 w2] eqn:E2.
    pose proof (terminating_closed N _ _ _ _ _ E2) as (_ & T2 & _).
    destruct (process_buffer F G N c2 w2) as [[ex c3] w3] eqn:E3.
    pose proof (process_buffer_frame F G N _ _ _ _ _ E3) as ((_ & T3 & _) & _).
    destruct ex; try reflexivity.
    replace (terminate c3 =? 0) with false by lia. reflexivity.
Qed.

(** The theorem above, at a call of sl_collect on a descriptor whose
    terminate flag is set. *)
Lemma terminating_call_closes_link_witness :
  terminate flagged_conn <> 0 /\ has_fuel (Blocking 1)
  /\ exists r o c' w',
       do_call format genutils scripted (Blocking 1) flagged_conn (start [])
       = Some ((r, o), c', w')
       /\ link c' = -1
       /\ contacts (trace w') = contacts (trace (start []))
       /\ (r = SLPACKET \/ r = SLTERMINATE).
Proof.
  assert (A1 : terminate flagged_conn <> 0) by discriminate.
  assert (A2 : has_fuel (Blocking 1)) by (simpl; lia).
  split; [exact A1|]. split; [exact A2|].
  exact (terminating_call_closes_link format genutils scripted (Blocking 1) flagged_conn
           (start []) A1 A2).
Defined.

(** X28: An INFO request is sent once, whether sending works or not.  In state
    Data with the link up and nothing else to do, a call of
    sl_collect_nb_size with a request pending calls sl_send_info for it and
    clears it, also when sl_send_info fails: the request is then lost, and
    sl_request_info accepts a new one. *)
Theorem info_request_sent_once (F : MSeedFormat) (G : GenUtils) (N : Network)
  (c : SLCD) (level : string) (m : Z) (w : world N) (r : result) (c' : SLCD)
  (w' : world N) (again : string) :
  terminate c = 0 -> link c <> -1 -> sl_state (stat c) = SL_DATA ->
  expect_info (stat c) = 0 -> info c = Some level ->
  (netto c = 0 \/ netto_trig (stat c) <= 0) ->
  (keepalive c = 0 \/ keepalive_trig (stat c) <= 0) ->
  sl_collect_nb_size F G N c m w = (r, c', w') ->
  (exists tl, trace w' = trace w ++ SendInfo level :: tl)
  /\ info c' = None
  /\ sl_request_info N c' again w' = (0, set_info c' (Some again), w').
Proof.
  intros T L S E I To K.
  assert (Q : (exists tl, trace w' = trace w ++ SendInfo level :: tl) /\ info c' = None
              -> (exists tl, trace w' = trace w ++ SendInfo level :: tl) /\ info c' = None
                 /\ sl_request_info N c' again w' = (0, set_info c' (Some again), w')).
  { intros [A B]. repeat split; auto. unfold sl_request_info. rewrite B. reflexivity. }
  intros X. apply Q. clear Q. revert X.
  unfold sl_collect_nb_size.
  assert (I0 : info_was_set c = upd_stat (st_query_mode InfoQuery) c).
  { unfold info_was_set. rewrite I. reflexivity. }
  rewrite I0. set (c0 := upd_stat (st_query_mode InfoQuery) c).
  unfold check_slcd. replace (link c0 =? -1) with false by (subst c0; fields; lia).
  replace (terminate c0 =? 0) with true by (subst c0; fields; lia).
  unfold main_sequence, link_down.
  replace (link c0 =? -1) with false by (subst c0; fields; lia).
  assert (N0 : netto_check N c0 w = (c0, w)).
  { unfold netto_check, in_state. subst c0. fields. rewrite S. cbn [sl_state_eqb andb].
    replace (negb (netto c =? 0) && (netto_trig (stat c) >? 0)) with false by lia.
    reflexivity. }
  rewrite N0.
  assert (K0 : keepalive_check N c0 w = (c0, w)).
  { unfold keepalive_check, in_state. subst c0. fields. rewrite S. cbn [sl_state_eqb andb].
    replace ((expect_info (stat c) =? 0) && negb (keepalive c =? 0)
             && (keepalive_trig (stat c) >? 0)) with false by lia.
    reflexivity. }
  rewrite K0.
  unfold info_check. replace (info c0) with (Some level) by (subst c0; fields; congruence).
  unfold in_state.
  replace (sl_state (stat c0)) with SL_DATA by (subst c0; fields; congruence).
  replace (expect_info (stat c0) =? 0) with true by (subst c0; fields; lia).
  cbn [sl_state_eqb andb]. unfold sl_send_info.
  destruct (w_send_info N c0 level 1 (ext w)) as [sr e].
  set (w1 := {| ext := e; trace := trace w ++ [SendInfo level] |}).
  set (c1 := set_info _ None).
  assert (S1 : sl_state (stat c1) = SL_DATA /\ info c1 = None).
  { subst c1 c0. destruct (negb (sr =? -1)); fields; split; auto. }
  destruct S1 as [S1 I1].
  unfold throttle, in_state. rewrite S1. cbn [sl_state_eqb andb].
  unfold connect_step, in_state. rewrite S1. cbn [sl_state_eqb andb].
  unfold negotiate, in_state. rewrite S1. cbn [sl_state_eqb].
  destruct (process_buffer F G N c1 w1) as [[ex c3] w3] eqn:E3.
  pose proof (process_buffer_frame F G N _ _ _ _ _ E3) as ((_ & _ & I3 & _) & _).
  pose proof (extends_process_buffer F G N _ _ _ _ _ E3) as [tl3 X3].
  assert (P3 : trace w3 = trace w ++ SendInfo level :: tl3).
  { rewrite X3. subst w1. cbn [trace]. rewrite <- app_assoc. reflexivity. }
  destruct ex.
  - intros X; inv_pairs. split; [eauto|congruence].
  - intros X; inv_pairs. split; [eauto|congruence].
  - destruct (negb (terminate c3 =? 0)); [intros X; inv_pairs; split; [eauto|congruence]|].
    intros X. pose proof (info_tail_keeps N _ _ _ _ _ X) as I7.
    split; [|congruence].
    assert (X7 : extends N w3 w').
    { revert X. cbv zeta.
      destruct (stream_stopped N (shift_buffer c3) w3) as [[stop' c5] w5] eqn:E5.
      pose proof (extends_stream_stopped N _ _ _ _ _ E5) as X5.
      destruct stop'; [intros X; inv_pairs; exact X5|].
      destruct (read_nb N c5 w5) as [c6 w6] eqn:E6.
      destruct (update_timing N c6 w6) as [c7 w7] eqn:E7.
      intros X; inv_pairs.
      eapply extends_trans; [exact X5|].
      eapply extends_trans; [eapply extends_read_nb; eauto|].
      eapply extends_update_timing; eauto. }
    destruct X7 as [tl7 X7]. exists (tl3 ++ tl7).
    rewrite X7, P3, <- app_assoc. reflexivity.
Qed.

(** The theorem above, at a session in state Data with a request for INFO
    STREAMS pending. *)
Lemma info_request_sent_once_witness :
  terminate Session.asking_conn = 0 /\ link Session.asking_conn <> -1
  /\ sl_state (stat Session.asking_conn) = SL_DATA
  /\ expect_info (stat Session.asking_conn) = 0
  /\ info Session.asking_conn = Some "STREAMS"%string
  /\ (netto Session.asking_conn = 0 \/ netto_trig (stat Session.asking_conn) <= 0)
  /\ (keepalive Session.asking_conn = 0 \/ keepalive_trig (stat Session.asking_conn) <= 0)
  /\ exists r c' w',
       sl_collect_nb_size format genutils scripted Session.asking_conn SLRECSIZEMAX
         (start []) = (r, c', w')
       /\ (exists tl, trace w' = trace (start []) ++ SendInfo "STREAMS" :: tl)
       /\ info c' = None
       /\ sl_request_info scripted c' "ID" w' = (0, set_info c' (Some "ID"%string), w').
Proof.
  assert (A1 : terminate Session.asking_conn = 0) by reflexivity.
  assert (A2 : link Session.asking_conn <> -1) by discriminate.
  assert (A3 : sl_state (stat Session.asking_conn) = SL_DATA) by reflexivity.
  assert (A4 : expect_info (stat Session.asking_conn) = 0) by reflexivity.
  assert (A5 : info Session.asking_conn = Some "STREAMS"%string) by reflexivity.
  assert (A6 : netto Session.asking_conn = 0 \/ netto_trig (stat Session.asking_conn) <= 0)
    by (right; vm_compute; discriminate).
  assert (A7 : keepalive Session.asking_conn = 0
               \/ keepalive_trig (stat Session.asking_conn) <= 0)
    by (left; reflexivity).
  repeat (split; [assumption|]).
  eexists. eexists. eexists.
  match goal with
  | |- ?X /\ _ => assert (B : X) by (vm_compute; reflexivity); split; [exact B|]
  end.
  exact (info_request_sent_once format genutils scripted _ _ _ _ _ _ _ "ID"%string
           A1 A2 A3 A4 A5 A6 A7 B).
Defined.

(** X29: No byte is lost between the socket and the buffer.  In state Data, after
    the buffer has been shifted, the bytes that sl_recvdata hands over are
    put right after the bytes that were still unread: the read cursor is at
    0, and between the cursors stand the unread bytes followed by the bytes
    received. *)
Theorem received_bytes_follow_unread (N : Network) (c : SLCD) (w : world N)
  (r : Z) (data : list Z) (e : World N) (c' : SLCD) (w' : world N) :
  cursors_ok (stat c) -> Z.of_nat (List.length (databuf (stat c))) = BUFSIZE ->
  sl_state (stat c) = SL_DATA ->
  w_recvdata N (shift_buffer c) (int_sub BUFSIZE (recptr (stat (shift_buffer c)))) (ext w)
  = (r, data, e) ->
  0 < r -> r = Z.of_nat (List.length data) ->
  r <= BUFSIZE - (recptr (stat c) - sendptr (stat c)) ->
  read_nb N (shift_buffer c) w = (c', w') ->
  sendptr (stat c') = 0
  /\ recptr (stat c') = recptr (stat c) - sendptr (stat c) + r
  /\ unread (stat c') = unread (stat c) ++ data.
Proof.
  intros H L S R Hr Hd Hm.
  destruct (shift_buffer_unread c H L) as (S1 & R1 & L1 & U1 & St1).
  set (u := unread (stat c)) in *.
  unfold read_nb, in_state. rewrite St1, S. cbn [sl_state_eqb].
  unfold recv_into, sl_recvdata. rewrite R.
  replace (r <? 0) with false by lia. cbn [andb].
  replace (r >? 0) with true by lia.
  intros X; inv_pairs. unfold data_is_here, unread. fields.
  unfold cursors_ok, BUFSIZE in *.
  rewrite S1, R1. unfold int_add, int_sub.
  rewrite (wrap32s_id (recptr (stat c) - sendptr (stat c) + Z.of_nat (List.length data))) by lia.
  assert (A2 : - 2 ^ 31 <= 8192 - (recptr (stat c) - sendptr (stat c)) < 2 ^ 31) by (clear - H; lia).
  rewrite (wrap32s_id (8192 - (recptr (stat c) - sendptr (stat c)))) by exact A2.
  split; [reflexivity|]. split; [reflexivity|].
  set (n := recptr (stat c) - sendptr (stat c)) in *.
  rewrite Z.sub_0_r. change (Z.to_nat 0) with O. cbn [skipn].
  assert (Fd : firstn (Z.to_nat (8192 - n)) data = data) by (apply firstn_all2; lia).
  rewrite Fd.
  unfold write_at. rewrite U1.
  assert (Lu : List.length u = Z.to_nat n).
  { rewrite <- U1, length_firstn. lia. }
  rewrite app_assoc. apply firstn_app_exact.
  rewrite length_app, Lu. lia.
Qed.

(** The theorem above, at a session that holds the first 100 bytes of a
    packet and receives 8 more. *)
Lemma received_bytes_follow_unread_witness :
  cursors_ok (stat Session.partial_conn)
  /\ Z.of_nat (List.length (databuf (stat Session.partial_conn))) = BUFSIZE
  /\ sl_state (stat Session.partial_conn) = SL_DATA
  /\ w_recvdata scripted (shift_buffer Session.partial_conn)
       (int_sub BUFSIZE (recptr (stat (shift_buffer Session.partial_conn))))
       (ext (start [(8, bytes_of_string "SL000002")]))
     = (8, bytes_of_string "SL000002", [])
  /\ 0 < 8 /\ 8 = Z.of_nat (List.length (bytes_of_string "SL000002"))
  /\ 8 <= BUFSIZE - (recptr (stat Session.partial_conn) - sendptr (stat Session.partial_conn))
  /\ exists c' w',
       read_nb scripted (shift_buffer Session.partial_conn)
         (start [(8, bytes_of_string "SL000002")]) = (c', w')
       /\ sendptr (stat c') = 0
       /\ recptr (stat c')
          = recptr (stat Session.partial_conn) - sendptr (stat Session.partial_conn) + 8
       /\ unread (stat c') = unread (stat Session.partial_conn) ++ bytes_of_string "SL000002".
Proof.
  assert (A1 : cursors_ok (stat Session.partial_conn)).
  { unfold cursors_ok. repeat split; vm_compute; discriminate. }
  assert (A2 : Z.of_nat (List.length (databuf (stat Session.partial_conn))) = BUFSIZE)
    by (vm_compute; reflexivity).
  assert (A3 : sl_state (stat Session.partial_conn) = SL_DATA) by reflexivity.
  assert (A4 : w_recvdata scripted (shift_buffer Session.partial_conn)
                 (int_sub BUFSIZE (recptr (stat (shift_buffer Session.partial_conn))))
                 (ext (start [(8, bytes_of_string "SL000002")]))
               = (8, bytes_of_string "SL000002", [])) by reflexivity.
  assert (A5 : 0 < 8) by lia.
  assert (A6 : 8 = Z.of_nat (List.length (bytes_of_string "SL000002"))) by reflexivity.
  assert (A7 : 8 <= BUFSIZE - (recptr (stat Session.partial_conn)
                               - sendptr (stat Session.partial_conn)))
    by (vm_compute; discriminate).
  repeat (split; [assumption|]).
  eexists. eexists.
  match goal with
  | |- ?X /\ _ => assert (B : X) by (vm_compute; reflexivity); split; [exact B|]
  end.
  exact (received_bytes_follow_unread scripted Session.partial_conn
           (start [(8, bytes_of_string "SL000002")]) 8 (bytes_of_string "SL000002") []
           _ _ A1 A2 A3 A4 A5 A6 A7 B).
Defined.
